(** * merge_repos.py: the AltStore manifest merger

    A shallow embedding of src/merge_repos.py: [merge_manifests] with the
    properties its specification states about it, and the script around it,
    [fetch_manifest] and [main].

    The development has two models of [merge_manifests].

    - [Merge] works on JSON documents as immutable trees.  It follows the
      source statement by statement in an exception monad and carries the
      functional properties (deduplication, ordering, metadata).  Its [==]
      is the mathematical function: the interpreter's limit on recursion
      is not in it, so [Merge] says what a call returns when it returns.
    - [Store] works on a heap of mutable Python objects addressed by
      references, so that aliasing between the arguments and the result is
      visible.  Its [==] raises [RecursionError] beyond the recursion
      limit, and its loops run on fuel.  It carries the frame property (the
      arguments are not written to), the sharing between the result and
      the arguments, and the statements that a call returns.

    The two are related by [store_refines_merge]: on a heap that holds the
    documents, nested no deeper than the recursion limit, [Store] ends as
    [Merge] does.

    [Script] has [fetch_manifest] and [main] in a monad of output, files
    and exceptions.  The world outside is a parameter: what [urlopen]
    answers for a URL, what [json.loads] makes of the data, how many levels
    of recursion the interpreter has left, how writing the output file
    ends, and what [json.dumps] returns.  A line of output is the [print]
    statement that wrote it with the values of its f-string; [print] itself
    is taken to succeed.  [main] merges whatever the parser returned, so
    [Script] has [merge_manifests] once more, on manifests that need not be
    objects: [Script.merge_manifests] without the recursion limit, which on
    objects is [Merge]'s, and [Script.merge_manifests_within] with it,
    which is what [main] runs.

    Data domain.  A value is what [json.loads] returns for a standard JSON
    document whose numbers are integers: [None], [bool], [int], [str],
    [list] and [dict] with [str] keys.  Floating point numbers are outside
    the model.  A [str] is a Rocq [string], one [ascii] per character;
    strings with other characters are outside the model. *)

From stdpp Require Import base numbers list strings.

Open Scope string_scope.
Open Scope Z_scope.
Open Scope list_scope.

(** ** JSON values *)

Unset Elimination Schemes.
Inductive json : Type :=
| JNull
| JBool (b : bool)
| JInt (z : Z)
| JStr (s : string)
| JList (xs : list json)
| JDict (kvs : list (string * json)).
Set Elimination Schemes.

(** A Python [dict] with [str] keys, in insertion order. *)
Abbreviation dict := (list (string * json)).

(** The induction principle that reaches below lists and dictionaries. *)
Fixpoint json_ind (P : json → Prop)
    (Hnull : P JNull)
    (Hbool : ∀ b, P (JBool b))
    (Hint : ∀ z, P (JInt z))
    (Hstr : ∀ s, P (JStr s))
    (Hlist : ∀ xs, Forall P xs → P (JList xs))
    (Hdict : ∀ kvs, Forall (λ kv, P kv.2) kvs → P (JDict kvs))
    (v : json) {struct v} : P v :=
  match v with
  | JNull => Hnull
  | JBool b => Hbool b
  | JInt z => Hint z
  | JStr s => Hstr s
  | JList xs =>
      Hlist xs
        ((fix go (l : list json) : Forall P l :=
            match l with
            | [] => @List.Forall_nil _ P
            | x :: l' =>
                @List.Forall_cons _ P x l'
                  (json_ind P Hnull Hbool Hint Hstr Hlist Hdict x) (go l')
            end) xs)
  | JDict kvs =>
      Hdict kvs
        ((fix go (l : dict) : Forall (λ kv, P kv.2) l :=
            match l with
            | [] => @List.Forall_nil _ _
            | kv :: l' =>
                @List.Forall_cons _ (λ kv, P kv.2) kv l'
                  (json_ind P Hnull Hbool Hint Hstr Hlist Hdict kv.2) (go l')
            end) kvs)
  end.

(** ** Dictionaries *)

(** The entries of a [dict] with [str] keys, in insertion order; [V] is the
    type of the values. *)

(** [d.get(k)], and [d[k]] when the key is known to be there. *)
Fixpoint dict_get {V} (k : string) (d : list (string * V)) : option V :=
  match d with
  | [] => None
  | (k', v) :: d' => if String.eqb k k' then Some v else dict_get k d'
  end.

(** [k in d] *)
Definition dict_in {V} (k : string) (d : list (string * V)) : bool :=
  match dict_get k d with Some _ => true | None => false end.

(** [d[k] = v]: an existing key keeps its position, a new key goes last. *)
Fixpoint dict_set {V} (k : string) (v : V) (d : list (string * V))
  : list (string * V) :=
  match d with
  | [] => [(k, v)]
  | (k', v') :: d' =>
      if String.eqb k k' then (k, v) :: d' else (k', v') :: dict_set k v d'
  end.

(** ** Python's truth value and [==] on JSON values *)

(** [bool(v)]: [None], [False], [0], [""], [[]] and [{}] are false. *)
Definition truthy (v : json) : bool :=
  match v with
  | JNull => false
  | JBool b => b
  | JInt z => negb (z =? 0)
  | JStr s => negb (String.eqb s "")
  | JList xs => match xs with [] => false | _ :: _ => true end
  | JDict kvs => match kvs with [] => false | _ :: _ => true end
  end.

(** [a == b].  [bool] is a subclass of [int], so [True == 1] and
    [False == 0].  Lists are compared element by element; dictionaries have
    the same number of keys and every key of the left one is in the right
    one with an equal value.  This is the value [==] has when it returns;
    that it raises [RecursionError] on documents nested beyond the
    interpreter's limit is in [Store.py_eq] and in [py_eq_within]. *)
Fixpoint py_eq (a b : json) {struct a} : bool :=
  match a, b with
  | JNull, JNull => true
  | JBool x, JBool y => Z.b2z x =? Z.b2z y
  | JBool x, JInt y => Z.b2z x =? y
  | JInt x, JBool y => x =? Z.b2z y
  | JInt x, JInt y => x =? y
  | JStr s, JStr t => String.eqb s t
  | JList xs, JList ys =>
      (fix go (xs ys : list json) {struct xs} : bool :=
         match xs, ys with
         | [], [] => true
         | x :: xs', y :: ys' => py_eq x y && go xs' ys'
         | _, _ => false
         end) xs ys
  | JDict d1, JDict d2 =>
      (length d1 =? length d2)%nat &&
      (fix go (d : dict) {struct d} : bool :=
         match d with
         | [] => true
         | (k, v) :: d' =>
             match dict_get k d2 with
             | Some w => py_eq v w
             | None => false
             end && go d'
         end) d1
  | _, _ => false
  end.

(** [hash(v)] succeeds: lists and dictionaries are unhashable. *)
Definition hashable (v : json) : bool :=
  match v with
  | JList _ | JDict _ => false
  | _ => true
  end.

(** ** Exceptions *)

Inductive exn : Type :=
| ValueError      (* raise ValueError("No manifests provided to merge") *)
| TypeError       (* not iterable, unhashable *)
| AttributeError  (* no attribute 'get' / 'append' *)
| KeyError
| IndexError
| RuntimeError    (* dictionary changed size during iteration *)
| RecursionError. (* maximum recursion depth exceeded in comparison *)

Inductive result (A : Type) : Type :=
| Ok (a : A)
| Raise (e : exn).
Arguments Ok {A} a.
Arguments Raise {A} e.

Definition bind {A B} (m : result A) (f : A → result B) : result B :=
  match m with
  | Ok a => f a
  | Raise e => Raise e
  end.

Notation "'let*' x ':=' m 'in' k" := (bind m (λ x, k))
  (at level 10, x name, m at level 100, k at level 200).

(** [for x in xs: s = body(x, s)], stopping at the first exception. *)
Fixpoint for_each {A S} (body : A → S → result S) (xs : list A) (s : S)
  : result S :=
  match xs with
  | [] => Ok s
  | x :: xs' => let* s' := body x s in for_each body xs' s'
  end.

(** ** The operations [merge_manifests] uses *)

(** The characters of a [str], each as a [str] of length one. *)
Fixpoint chars (s : string) : list json :=
  match s with
  | EmptyString => []
  | String c s' => JStr (String c EmptyString) :: chars s'
  end.

(** [iter(v)]: the elements of a list, the characters of a string, the keys
    of a dictionary; anything else is not iterable. *)
Definition py_iter (v : json) : result (list json) :=
  match v with
  | JList xs => Ok xs
  | JStr s => Ok (chars s)
  | JDict kvs => Ok (map (λ kv, JStr kv.1) kvs)
  | _ => Raise TypeError
  end.

(** [v.get(k, default)]: only a [dict] has [get]. *)
Definition py_get (v : json) (k : string) (default : json) : result json :=
  match v with
  | JDict kvs =>
      Ok (match dict_get k kvs with Some w => w | None => default end)
  | _ => Raise AttributeError
  end.

(** [d[k]] *)
Definition dict_getitem (k : string) (d : dict) : result json :=
  match dict_get k d with
  | Some v => Ok v
  | None => Raise KeyError
  end.

(** [p in s] for two strings: [p] occurs in [s]. *)
Fixpoint substring_of (p s : string) : bool :=
  String.prefix p s ||
  match s with
  | EmptyString => false
  | String _ s' => substring_of p s'
  end.

(** [x in v]: an element [y] of a list with [y == x], a key of a dictionary
    (which hashes [x]), a substring of a string (which wants a string). *)
Definition py_in (x : json) (v : json) : result bool :=
  match v with
  | JList xs => Ok (existsb (λ y, py_eq y x) xs)
  | JDict kvs =>
      match x with
      | JStr k => Ok (dict_in k kvs)
      | JList _ | JDict _ => Raise TypeError
      | _ => Ok false
      end
  | JStr s =>
      match x with
      | JStr p => Ok (substring_of p s)
      | _ => Raise TypeError
      end
  | _ => Raise TypeError
  end.

(** A [set] of hashable values, as the list of its elements in the order
    they were added.  [x in s] hashes [x] first and then looks for an
    element [y] with [y == x]. *)
Definition set_contains (x : json) (s : list json) : result bool :=
  if hashable x then Ok (existsb (λ y, py_eq y x) s) else Raise TypeError.

(** [s.add(x)] *)
Definition set_add (x : json) (s : list json) : list json :=
  if existsb (λ y, py_eq y x) s then s else s ++ [x].

(** [v.append(x)]: only a [list] has [append]. *)
Definition py_append (v : json) (x : json) : result json :=
  match v with
  | JList xs => Ok (JList (xs ++ [x]))
  | _ => Raise AttributeError
  end.

(** [merged[k].append(x)] *)
Definition append_at (k : string) (x : json) (merged : dict) : result dict :=
  let* l := dict_getitem k merged in
  let* l' := py_append l x in
  Ok (dict_set k l' merged).

(** ** The merge, statement by statement *)

Module Merge.

(** The two objects the loops update: the result under construction and the
    set of bundle identifiers already taken. *)
Record state : Type := State {
  merged : dict;
  seen_apps : list json;
}.

Definition default_identifier : string := "com.octonezd.merged-repo".
Definition default_icon : string := "https://octonezd.me/octo-ios-repo/icon.jpg".

(** Lines 50-59. *)
Definition initial (output_name : string) : state :=
  {| merged :=
       [("name", JStr output_name);
        ("identifier", JStr default_identifier);
        ("iconURL", JStr default_icon);
        ("apps", JList []);
        ("news", JList [])];
     seen_apps := [] |}.

(** Lines 65-73, the body of [for app in manifest["apps"]].  The test
    [bundle_id and bundle_id not in seen_apps] looks into the set only when
    [bundle_id] is true. *)
Definition merge_app (app : json) (st : state) : result state :=
  let* bundle_id := py_get app "bundleIdentifier" (JStr "") in
  let* unseen :=
    if truthy bundle_id
    then let* seen := set_contains bundle_id (seen_apps st) in Ok (negb seen)
    else Ok false in
  if unseen then
    let* m := append_at "apps" app (merged st) in
    Ok {| merged := m; seen_apps := set_add bundle_id (seen_apps st) |}
  else if negb (truthy bundle_id) then
    let* m := append_at "apps" app (merged st) in
    Ok {| merged := m; seen_apps := seen_apps st |}
  else Ok st.

(** Lines 78-79, the body of [for news_item in manifest["news"]]. *)
Definition merge_news_item (news_item : json) (st : state) : result state :=
  let* news := dict_getitem "news" (merged st) in
  let* found := py_in news_item news in
  if negb found then
    let* m := append_at "news" news_item (merged st) in
    Ok {| merged := m; seen_apps := seen_apps st |}
  else Ok st.

(** Lines 63-79, the body of [for manifest in manifests]. *)
Definition merge_manifest (manifest : dict) (st : state) : result state :=
  let* st1 :=
    if dict_in "apps" manifest then
      let* apps := dict_getitem "apps" manifest in
      let* xs := py_iter apps in
      for_each merge_app xs st
    else Ok st in
  if dict_in "news" manifest then
    let* news := dict_getitem "news" manifest in
    let* xs := py_iter news in
    for_each merge_news_item xs st1
  else Ok st1.

Definition metadata_keys : list string :=
  ["sourceURL"; "subtitle"; "description"; "iconURL"; "headerURL";
   "website"; "tintColor"].

(** Lines 85-86, the body of [for key in [...]]. *)
Definition copy_key (first_manifest : dict) (key : string) (m : dict)
  : result dict :=
  if dict_in key first_manifest then
    let* v := dict_getitem key first_manifest in
    Ok (dict_set key v m)
  else Ok m.

(** Lines 84-86. *)
Definition copy_metadata (first_manifest : dict) (m : dict) : result dict :=
  for_each (copy_key first_manifest) metadata_keys m.

(** Lines 35-88. *)
Definition merge_manifests (manifests : list dict) (output_name : string)
  : result dict :=
  match manifests with
  | [] => Raise ValueError
  | _ :: _ =>
      let* st := for_each merge_manifest manifests (initial output_name) in
      match manifests with
      | first_manifest :: _ => copy_metadata first_manifest (merged st)
      | [] => Ok (merged st)
      end
  end.

End Merge.

(** ** The merge on a heap of Python objects *)

Module Store.

(** A reference is the index of its object in the heap. *)
Abbreviation loc := nat.

(** A value is an immutable scalar or a reference to a mutable object. *)
Inductive val : Type :=
| VNone
| VBool (b : bool)
| VInt (z : Z)
| VStr (s : string)
| VRef (l : loc).

Inductive obj : Type :=
| OList (xs : list val)
| ODict (kvs : list (string * val))
| OSet (xs : list val).

(** The heap: object [l] is [h !! l]; a new object goes to the end.  A
    reference beyond the end stands for an object of some other type, which
    has no length, no items and no methods and is equal to itself only. *)
Abbreviation heap := (list obj).

(** *** Looking at the heap *)

Definition is_empty {A} (xs : list A) : bool :=
  match xs with [] => true | _ :: _ => false end.

(** [bool(v)] *)
Definition truthy (h : heap) (v : val) : bool :=
  match v with
  | VNone => false
  | VBool b => b
  | VInt z => negb (z =? 0)
  | VStr s => negb (String.eqb s "")
  | VRef l =>
      match h !! l with
      | Some (OList xs) => negb (is_empty xs)
      | Some (ODict kvs) => negb (is_empty kvs)
      | Some (OSet xs) => negb (is_empty xs)
      | None => true
      end
  end.

(** [hash(v)] succeeds. *)
Definition hashable (h : heap) (v : val) : bool :=
  match v with
  | VRef l => match h !! l with Some _ => false | None => true end
  | _ => true
  end.

(** [a is b] *)
Definition identical (a b : val) : bool :=
  match a, b with
  | VNone, VNone => true
  | VRef l, VRef l' => (l =? l')%nat
  | _, _ => false
  end.

(** [all(p(x) for x in xs)], [any(p(x) for x in xs)] and
    [all(p(x, y) for x, y in zip(xs, ys))] for a test that may raise. *)
Fixpoint all_ok {A} (p : A → result bool) (xs : list A) : result bool :=
  match xs with
  | [] => Ok true
  | x :: xs' => let* b := p x in if b then all_ok p xs' else Ok false
  end.

Fixpoint any_ok {A} (p : A → result bool) (xs : list A) : result bool :=
  match xs with
  | [] => Ok false
  | x :: xs' => let* b := p x in if b then Ok true else any_ok p xs'
  end.

Fixpoint all2_ok {A} (p : A → A → result bool) (xs ys : list A)
  : result bool :=
  match xs, ys with
  | [], [] => Ok true
  | x :: xs', y :: ys' =>
      let* b := p x y in if b then all2_ok p xs' ys' else Ok false
  | _, _ => Ok false
  end.

(** [a is b or a == b], the comparison [in] and the equality of containers
    make.  Each level of nesting takes one level of the interpreter's
    recursion, of which there are [depth]. *)
Fixpoint py_eq (depth : nat) (h : heap) (a b : val) : result bool :=
  match depth with
  | O => Raise RecursionError
  | S depth' =>
      if identical a b then Ok true else
      match a, b with
      | VNone, VNone => Ok true
      | VBool x, VBool y => Ok (Z.b2z x =? Z.b2z y)
      | VBool x, VInt y => Ok (Z.b2z x =? y)
      | VInt x, VBool y => Ok (x =? Z.b2z y)
      | VInt x, VInt y => Ok (x =? y)
      | VStr s, VStr t => Ok (String.eqb s t)
      | VRef la, VRef lb =>
          match h !! la, h !! lb with
          | Some (OList xs), Some (OList ys) =>
              if (length xs =? length ys)%nat
              then all2_ok (py_eq depth' h) xs ys
              else Ok false
          | Some (ODict d1), Some (ODict d2) =>
              if (length d1 =? length d2)%nat
              then all_ok (λ kv, match dict_get (fst kv) d2 with
                                 | Some w => py_eq depth' h (snd kv) w
                                 | None => Ok false
                                 end) d1
              else Ok false
          | Some (OSet xs), Some (OSet ys) =>
              if (length xs =? length ys)%nat
              then all_ok (λ x, any_ok (py_eq depth' h x) ys) xs
              else Ok false
          | _, _ => Ok false
          end
      | _, _ => Ok false
      end
  end.

(** [x in v] *)
Definition py_in (depth : nat) (h : heap) (x v : val) : result bool :=
  match v with
  | VStr s =>
      match x with
      | VStr p => Ok (substring_of p s)
      | _ => Raise TypeError
      end
  | VRef l =>
      match h !! l with
      | Some (OList xs) => any_ok (λ y, py_eq depth h y x) xs
      | Some (ODict kvs) =>
          if hashable h x
          then Ok (match x with VStr k => dict_in k kvs | _ => false end)
          else Raise TypeError
      | Some (OSet xs) =>
          if hashable h x
          then any_ok (λ y, py_eq depth h y x) xs
          else Raise TypeError
      | None => Raise TypeError
      end
  | _ => Raise TypeError
  end.

(** [v[k]] for a string [k]. *)
Definition py_getitem (h : heap) (v : val) (k : string) : result val :=
  match v with
  | VRef l =>
      match h !! l with
      | Some (ODict kvs) =>
          match dict_get k kvs with
          | Some x => Ok x
          | None => Raise KeyError
          end
      | _ => Raise TypeError
      end
  | _ => Raise TypeError
  end.

(** [v[0]] *)
Definition py_first (h : heap) (v : val) : result val :=
  match v with
  | VStr s =>
      match s with
      | String c _ => Ok (VStr (String c EmptyString))
      | EmptyString => Raise IndexError
      end
  | VRef l =>
      match h !! l with
      | Some (OList xs) =>
          match xs with
          | x :: _ => Ok x
          | [] => Raise IndexError
          end
      | Some (ODict _) => Raise KeyError
      | _ => Raise TypeError
      end
  | _ => Raise TypeError
  end.

(** [v.get(k, default)] *)
Definition py_get (h : heap) (v : val) (k : string) (default : val)
  : result val :=
  match v with
  | VRef l =>
      match h !! l with
      | Some (ODict kvs) =>
          Ok (match dict_get k kvs with Some w => w | None => default end)
      | _ => Raise AttributeError
      end
  | _ => Raise AttributeError
  end.

(** *** Computations that may write to the heap *)

Inductive outcome (A : Type) : Type :=
| Done (a : A)
| Raised (e : exn)
| OutOfFuel.       (* a loop went beyond the bound on its iterations *)
Arguments Done {A} a.
Arguments Raised {A} e.
Arguments OutOfFuel {A}.

Definition M (A : Type) : Type := heap → outcome A * heap.

Definition ret {A} (a : A) : M A := λ h, (Done a, h).

Definition raise {A} (e : exn) : M A := λ h, (Raised e, h).

Definition bind {A B} (m : M A) (f : A → M B) : M B :=
  λ h, match m h with
       | (Done a, h') => f a h'
       | (Raised e, h') => (Raised e, h')
       | (OutOfFuel, h') => (OutOfFuel, h')
       end.

Notation "'let!' x ':=' m 'in' k" := (bind m (λ x, k))
  (at level 10, x name, m at level 100, k at level 200).

(** Looking at the heap writes nothing. *)
Definition look {A} (f : heap → result A) : M A :=
  λ h, (match f h with Ok a => Done a | Raise e => Raised e end, h).

(** A new object. *)
Definition alloc (o : obj) : M val := λ h, (Done (VRef (length h)), h ++ [o]).

(** [v.append(x)] *)
Definition py_append (v x : val) : M unit :=
  λ h, match v with
       | VRef l =>
           match h !! l with
           | Some (OList xs) => (Done (), <[l := OList (xs ++ [x])]> h)
           | _ => (Raised AttributeError, h)
           end
       | _ => (Raised AttributeError, h)
       end.

(** [v.add(x)] *)
Definition py_add (depth : nat) (v x : val) : M unit :=
  λ h, match v with
       | VRef l =>
           match h !! l with
           | Some (OSet xs) =>
               if hashable h x then
                 match any_ok (λ y, py_eq depth h y x) xs with
                 | Ok true => (Done (), h)
                 | Ok false => (Done (), <[l := OSet (xs ++ [x])]> h)
                 | Raise e => (Raised e, h)
                 end
               else (Raised TypeError, h)
           | _ => (Raised AttributeError, h)
           end
       | _ => (Raised AttributeError, h)
       end.

(** [v[k] = x] for a string [k]. *)
Definition py_setitem (v : val) (k : string) (x : val) : M unit :=
  λ h, match v with
       | VRef l =>
           match h !! l with
           | Some (ODict kvs) => (Done (), <[l := ODict (dict_set k x kvs)]> h)
           | _ => (Raised TypeError, h)
           end
       | _ => (Raised TypeError, h)
       end.

(** *** Loops *)

(** [for x in xs: body(x)] over values that are at hand. *)
Fixpoint for_values (body : val → M unit) (xs : list val) : M unit :=
  match xs with
  | [] => ret ()
  | x :: xs' => let! _ := body x in for_values body xs'
  end.

(** [for x in v: body(x)] from position [i] on, where [v] is the list at
    [l]: every step looks the list up again, so that an [append] the body
    makes to it is seen.  At most [fuel] steps. *)
Fixpoint for_list (fuel : nat) (body : val → M unit) (l : loc) (i : nat)
  : M unit :=
  match fuel with
  | O => λ h, (OutOfFuel, h)
  | S fuel' =>
      λ h, match h !! l with
           | Some (OList xs) =>
               match xs !! i with
               | Some x =>
                   (let! _ := body x in for_list fuel' body l (S i)) h
               | None => (Done (), h)
               end
           | _ => (Done (), h)
           end
  end.

(** The same over the keys of the dictionary, or the elements of the set, at
    [l], which had [size] entries when the loop began: Python gives up when
    the size has changed. *)
Fixpoint for_keys (fuel : nat) (body : val → M unit) (l : loc)
    (size i : nat) : M unit :=
  match fuel with
  | O => λ h, (OutOfFuel, h)
  | S fuel' =>
      λ h, let keys :=
             match h !! l with
             | Some (ODict kvs) => map (λ kv, VStr (fst kv)) kvs
             | Some (OSet xs) => xs
             | _ => []
             end in
           if negb (length keys =? size)%nat then (Raised RuntimeError, h)
           else match keys !! i with
                | Some x =>
                    (let! _ := body x in for_keys fuel' body l size (S i)) h
                | None => (Done (), h)
                end
  end.

(** The characters of a string as values. *)
Fixpoint chars (s : string) : list val :=
  match s with
  | EmptyString => []
  | String c s' => VStr (String c EmptyString) :: chars s'
  end.

(** [for x in v: body(x)] *)
Definition for_in (fuel : nat) (v : val) (body : val → M unit) : M unit :=
  match v with
  | VStr s => for_values body (chars s)
  | VRef l =>
      λ h, match h !! l with
           | Some (OList _) => for_list fuel body l 0 h
           | Some (ODict kvs) => for_keys fuel body l (length kvs) 0 h
           | Some (OSet xs) => for_keys fuel body l (length xs) 0 h
           | None => (Raised TypeError, h)
           end
  | _ => raise TypeError
  end.

(** *** The function *)

Section merge.

(** The bound on the iterations of a loop, and the interpreter's recursion
    limit. *)
Variable fuel : nat.
Variable depth : nat.

(** Lines 65-73. *)
Definition merge_app (merged seen_apps : val) (app : val) : M unit :=
  let! bundle_id := look (λ h, py_get h app "bundleIdentifier" (VStr "")) in
  let! nonempty := look (λ h, Ok (truthy h bundle_id)) in
  let! unseen :=
    if nonempty
    then let! seen := look (λ h, py_in depth h bundle_id seen_apps) in
         ret (negb seen)
    else ret false in
  if unseen then
    let! apps := look (λ h, py_getitem h merged "apps") in
    let! _ := py_append apps app in
    py_add depth seen_apps bundle_id
  else if negb nonempty then
    let! apps := look (λ h, py_getitem h merged "apps") in
    py_append apps app
  else ret ().

(** Lines 78-79. *)
Definition merge_news_item (merged : val) (news_item : val) : M unit :=
  let! news := look (λ h, py_getitem h merged "news") in
  let! found := look (λ h, py_in depth h news_item news) in
  if negb found then
    let! news := look (λ h, py_getitem h merged "news") in
    py_append news news_item
  else ret ().

(** Lines 63-79. *)
Definition merge_manifest (merged seen_apps : val) (manifest : val) : M unit :=
  let! has_apps := look (λ h, py_in depth h (VStr "apps") manifest) in
  let! _ :=
    if has_apps then
      let! apps := look (λ h, py_getitem h manifest "apps") in
      for_in fuel apps (merge_app merged seen_apps)
    else ret () in
  let! has_news := look (λ h, py_in depth h (VStr "news") manifest) in
  if has_news then
    let! news := look (λ h, py_getitem h manifest "news") in
    for_in fuel news (merge_news_item merged)
  else ret ().

(** Lines 85-86. *)
Definition copy_key (first_manifest merged : val) (key : string) : M unit :=
  let! present := look (λ h, py_in depth h (VStr key) first_manifest) in
  if present then
    let! v := look (λ h, py_getitem h first_manifest key) in
    py_setitem merged key v
  else ret ().

Fixpoint for_keys_of (body : string → M unit) (keys : list string) : M unit :=
  match keys with
  | [] => ret ()
  | k :: keys' => let! _ := body k in for_keys_of body keys'
  end.

(** Lines 35-88.  The literal of lines 50-56 makes its two lists first and
    the dictionary after them. *)
Definition merge_manifests (manifests : val) (output_name : string) : M val :=
  let! nonempty := look (λ h, Ok (truthy h manifests)) in
  if negb nonempty then raise ValueError else
  let! apps := alloc (OList []) in
  let! news := alloc (OList []) in
  let! merged :=
    alloc (ODict [("name", VStr output_name);
                  ("identifier", VStr Merge.default_identifier);
                  ("iconURL", VStr Merge.default_icon);
                  ("apps", apps);
                  ("news", news)]) in
  let! seen_apps := alloc (OSet []) in
  let! _ := for_in fuel manifests (merge_manifest merged seen_apps) in
  let! nonempty := look (λ h, Ok (truthy h manifests)) in
  let! _ :=
    if nonempty then
      let! first_manifest := look (λ h, py_first h manifests) in
      for_keys_of (copy_key first_manifest merged) Merge.metadata_keys
    else ret () in
  ret merged.

End merge.

(** *** JSON documents in the heap *)

(** Put a document into the heap, lists and dictionaries as new objects. *)
Fixpoint load (v : json) : M val :=
  match v with
  | JNull => ret VNone
  | JBool b => ret (VBool b)
  | JInt z => ret (VInt z)
  | JStr s => ret (VStr s)
  | JList xs =>
      let! vs :=
        (fix go (xs : list json) : M (list val) :=
           match xs with
           | [] => ret []
           | x :: xs' =>
               let! v := load x in let! vs := go xs' in ret (v :: vs)
           end) xs in
      alloc (OList vs)
  | JDict kvs =>
      let! vs :=
        (fix go (kvs : dict) : M (list (string * val)) :=
           match kvs with
           | [] => ret []
           | (k, x) :: kvs' =>
               let! v := load x in let! vs := go kvs' in ret ((k, v) :: vs)
           end) kvs in
      alloc (ODict vs)
  end.

(** Read the document at a value back, to a nesting of at most [n]. *)
Fixpoint dump (n : nat) (h : heap) (v : val) : option json :=
  match v with
  | VNone => Some JNull
  | VBool b => Some (JBool b)
  | VInt z => Some (JInt z)
  | VStr s => Some (JStr s)
  | VRef l =>
      match n with
      | O => None
      | S n' =>
          match h !! l with
          | Some (OList xs) => JList <$> mapM (dump n' h) xs
          | Some (ODict kvs) =>
              JDict <$> mapM (λ kv, pair (fst kv) <$> dump n' h (snd kv)) kvs
          | _ => None
          end
      end
  end.

End Store.

(** *** Notions for the frame property *)

(** Every object of [h0] is still there, as it was, in [h]. *)
Definition unchanged (h0 h : Store.heap) : Prop :=
  ∀ l o, h0 !! l = Some o → h !! l = Some o.

(** The heap while the loops run, for a call made in heap [h0]: the objects
    of [h0] are unchanged, and the result under construction, the third
    object made by the call, refers to the first and the second as its
    [apps] and [news]. *)
Definition building (h0 h : Store.heap) : Prop :=
  unchanged h0 h ∧
  ∃ d, h !! (length h0 + 2)%nat = Some (Store.ODict d) ∧
       dict_get "apps" d = Some (Store.VRef (length h0)) ∧
       dict_get "news" d = Some (Store.VRef (S (length h0))).

(** [m] keeps the invariant [I], whatever its outcome, and a value it
    returns satisfies [Q]. *)
Definition hoare {A} (I : Store.heap → Prop) (m : Store.M A) (Q : A → Prop)
  : Prop :=
  ∀ h, I h → I (m h).2 ∧ ∀ a, (m h).1 = Store.Done a → Q a.

(** *** Notions for the sharing between the result and the arguments *)

(** What [for x in v] goes through in the heap [h]. *)
Definition elems (h : Store.heap) (v : Store.val) : list Store.val :=
  match v with
  | Store.VStr s => Store.chars s
  | Store.VRef l =>
      match h !! l with
      | Some (Store.OList xs) => xs
      | Some (Store.ODict kvs) => map (λ kv, Store.VStr (fst kv)) kvs
      | Some (Store.OSet xs) => xs
      | None => []
      end
  | _ => []
  end.

(** A value of the heap [h]: a scalar, or a reference to one of its
    objects. *)
Definition known (h : Store.heap) (v : Store.val) : bool :=
  match v with
  | Store.VRef l => bool_decide (l < length h)%nat
  | _ => true
  end.

(** Every reference in an object of [h] is to an object of [h]. *)
Definition closed (h : Store.heap) : bool :=
  forallb (λ o, match o with
                | Store.OList xs | Store.OSet xs => forallb (known h) xs
                | Store.ODict kvs => forallb (λ kv, known h (snd kv)) kvs
                end) h.

(** [x] is an element of [m[key]] for an element [m] of [manifests], in the
    heap [h]: the value itself, so a reference is to the very object the
    manifest holds. *)
Definition item_of (h : Store.heap) (manifests : Store.val) (key : string)
    (x : Store.val) : Prop :=
  ∃ m c, m ∈ elems h manifests ∧ Store.py_getitem h m key = Ok c ∧
         x ∈ elems h c.

(** The heap while the loops run, for a call made in heap [h0] on
    [manifests]: it is [building], and the two lists of the result hold
    elements of the manifests' [apps] and [news] only. *)
Definition sharing (h0 : Store.heap) (manifests : Store.val)
    (h : Store.heap) : Prop :=
  building h0 h ∧
  ∃ va vn,
    h !! length h0 = Some (Store.OList va) ∧
    h !! S (length h0) = Some (Store.OList vn) ∧
    Forall (item_of h0 manifests "apps") va ∧
    Forall (item_of h0 manifests "news") vn.

(** ** The script: [fetch_manifest], [merge_manifests] and [main] together *)

(** [v[k]] for a [str] key [k]: a list and a string want an integer index,
    the other values cannot be subscripted. *)
Definition py_getitem (v : json) (k : string) : result json :=
  match v with
  | JDict kvs => dict_getitem k kvs
  | _ => Raise TypeError
  end.

(** [len(v)] *)
Definition py_len (v : json) : result nat :=
  match v with
  | JList xs => Ok (length xs)
  | JStr s => Ok (String.length s)
  | JDict kvs => Ok (length kvs)
  | _ => Raise TypeError
  end.

(** [s * n] for a string [s] *)
Fixpoint str_mul (s : string) (n : nat) : string :=
  match n with
  | O => EmptyString
  | S n' => String.append s (str_mul s n')
  end.

(** [a == b] as the interpreter evaluates it when it has [depth] levels of
    recursion left.  A comparison takes one level, and the comparison of two
    lists or of two dictionaries of the same length one more for each level
    of their nesting; with no level left it raises [RecursionError].  The
    documents [json.loads] returns share no list and no dictionary, so the
    comparison of two of them never ends early for their being one
    object. *)
Fixpoint py_eq_within (depth : nat) (a b : json) : result bool :=
  match depth with
  | O => Raise RecursionError
  | S depth' =>
      match a, b with
      | JList xs, JList ys =>
          if (length xs =? length ys)%nat
          then Store.all2_ok (py_eq_within depth') xs ys
          else Ok false
      | JDict d1, JDict d2 =>
          if (length d1 =? length d2)%nat
          then Store.all_ok (λ kv, match dict_get (fst kv) d2 with
                                   | Some w => py_eq_within depth' (snd kv) w
                                   | None => Ok false
                                   end) d1
          else Ok false
      | _, _ => Ok (py_eq a b)
      end
  end.

(** [x in v] and [x in s] for a set [s], with [depth] levels left: the
    elements of a list, and those of a set, are compared with [x] one after
    the other until one is equal. *)
Definition py_in_within (depth : nat) (x : json) (v : json) : result bool :=
  match v with
  | JList xs => Store.any_ok (λ y, py_eq_within depth y x) xs
  | _ => py_in x v
  end.

Definition set_contains_within (depth : nat) (x : json) (s : list json)
  : result bool :=
  if hashable x then Store.any_ok (λ y, py_eq_within depth y x) s
  else Raise TypeError.

Module Script.

(** *** [merge_manifests] on whatever [json.loads] returned

    [main] hands the parsed documents on as they are, and a document need
    not be an object.  The statements are those of [Merge]; [in] and the
    subscript are Python's on any value. *)

(** Lines 63-79, the body of [for manifest in manifests]. *)
Definition merge_manifest (manifest : json) (st : Merge.state)
  : result Merge.state :=
  let* has_apps := py_in (JStr "apps") manifest in
  let* st1 :=
    if has_apps then
      let* apps := py_getitem manifest "apps" in
      let* xs := py_iter apps in
      for_each Merge.merge_app xs st
    else Ok st in
  let* has_news := py_in (JStr "news") manifest in
  if has_news then
    let* news := py_getitem manifest "news" in
    let* xs := py_iter news in
    for_each Merge.merge_news_item xs st1
  else Ok st1.

(** Lines 85-86, the body of [for key in [...]]. *)
Definition copy_key (first_manifest : json) (key : string) (m : dict)
  : result dict :=
  let* present := py_in (JStr key) first_manifest in
  if present then
    let* v := py_getitem first_manifest key in
    Ok (dict_set key v m)
  else Ok m.

(** Lines 35-88. *)
Definition merge_manifests (manifests : list json) (output_name : string)
  : result dict :=
  match manifests with
  | [] => Raise ValueError
  | _ :: _ =>
      let* st :=
        for_each merge_manifest manifests (Merge.initial output_name) in
      match manifests with
      | first_manifest :: _ =>
          for_each (copy_key first_manifest) Merge.metadata_keys
                   (Merge.merged st)
      | [] => Ok (Merge.merged st)
      end
  end.

(** *** [merge_manifests] as the interpreter runs it

    The same statements once more, the comparisons of [in] being those the
    interpreter makes with [depth] levels of recursion left. *)

(** Lines 65-73. *)
Definition merge_app_within (depth : nat) (app : json) (st : Merge.state)
  : result Merge.state :=
  let* bundle_id := py_get app "bundleIdentifier" (JStr "") in
  let* unseen :=
    if truthy bundle_id
    then let* seen :=
           set_contains_within depth bundle_id (Merge.seen_apps st) in
         Ok (negb seen)
    else Ok false in
  if unseen then
    let* m := append_at "apps" app (Merge.merged st) in
    Ok {| Merge.merged := m;
          Merge.seen_apps := set_add bundle_id (Merge.seen_apps st) |}
  else if negb (truthy bundle_id) then
    let* m := append_at "apps" app (Merge.merged st) in
    Ok {| Merge.merged := m; Merge.seen_apps := Merge.seen_apps st |}
  else Ok st.

(** Lines 78-79. *)
Definition merge_news_item_within (depth : nat) (news_item : json)
    (st : Merge.state) : result Merge.state :=
  let* news := dict_getitem "news" (Merge.merged st) in
  let* found := py_in_within depth news_item news in
  if negb found then
    let* m := append_at "news" news_item (Merge.merged st) in
    Ok {| Merge.merged := m; Merge.seen_apps := Merge.seen_apps st |}
  else Ok st.

(** Lines 63-79. *)
Definition merge_manifest_within (depth : nat) (manifest : json)
    (st : Merge.state) : result Merge.state :=
  let* has_apps := py_in (JStr "apps") manifest in
  let* st1 :=
    if has_apps then
      let* apps := py_getitem manifest "apps" in
      let* xs := py_iter apps in
      for_each (merge_app_within depth) xs st
    else Ok st in
  let* has_news := py_in (JStr "news") manifest in
  if has_news then
    let* news := py_getitem manifest "news" in
    let* xs := py_iter news in
    for_each (merge_news_item_within depth) xs st1
  else Ok st1.

(** Lines 35-88. *)
Definition merge_manifests_within (depth : nat) (manifests : list json)
    (output_name : string) : result dict :=
  match manifests with
  | [] => Raise ValueError
  | _ :: _ =>
      let* st :=
        for_each (merge_manifest_within depth) manifests
                 (Merge.initial output_name) in
      match manifests with
      | first_manifest :: _ =>
          for_each (copy_key first_manifest) Merge.metadata_keys
                   (Merge.merged st)
      | [] => Ok (Merge.merged st)
      end
  end.

(** *** Exceptions, output and files *)

(** The exceptions [main] can meet: those of the network and of the parser,
    with the text [str(e)] gives, and those of the operations on
    documents. *)
Inductive error : Type :=
| URLError (text : string)         (* urllib.error.URLError, HTTPError too *)
| JSONDecodeError (text : string)  (* json.JSONDecodeError *)
| OtherError (text : string)       (* any other subclass of Exception *)
| Builtin (e : exn).

(** What a call into the world outside gives back. *)
Inductive answer (A : Type) : Type :=
| Got (a : A)
| Failed (e : error).
Arguments Got {A} a.
Arguments Failed {A} e.

(** A [print]: the statement that wrote the line, with the values its
    f-string takes. *)
Inductive line : Type :=
| Text (s : string)
| ErrorFetching (url : string) (e : error)  (* Error fetching {url}: {e} *)
| ErrorParsing (url : string) (e : error)   (* Error parsing JSON from ... *)
| FetchingURL (url : string)                (*   - Fetching {url} *)
| Found (app_count : nat)                   (* Found {app_count} app(s) *)
| FailedToFetch (url : string) (e : error)  (* Failed to fetch {url}: {e} *)
| Merged (count : nat)           (* Successfully merged {len(manifests)} ... *)
| TotalApps (count : nat)        (* Total apps in merged repository: ... *)
| SavedTo (file : string).       (* Output saved to: {output_file} *)

(** How [with open(file, "w", encoding="utf-8") as f: json.dump(doc, f,
    ...)] ends: the document is in the file; or [open] raised, and the file
    is as it was; or the file was opened, and so emptied, and an exception
    came before the whole document was in it (a character that cannot be
    encoded, a full disk, the recursion limit). *)
Inductive written : Type :=
| Saved
| NotOpened (e : error)
| Broken (e : error).

(** What a file holds: a document, or the beginning of the text of one. *)
Inductive content : Type :=
| Whole (doc : json)
| Partial.

(** What [main] works on: its variable [manifests], the two streams and the
    files, each file with what it holds. *)
Record state : Type := State {
  manifests : list json;
  stdout : list line;
  stderr : list line;
  files : list (string * content);
}.

(** How a computation ends: with a value, with an exception, or with
    [SystemExit], which no [except Exception] catches. *)
Inductive ending (A : Type) : Type :=
| Returned (a : A)
| Raised (e : error)
| Exited (code : Z).
Arguments Returned {A} a.
Arguments Raised {A} e.
Arguments Exited {A} code.

Definition prog (A : Type) : Type := state → ending A * state.

Definition ret {A} (a : A) : prog A := λ s, (Returned a, s).
Definition raise {A} (e : error) : prog A := λ s, (Raised e, s).

Definition bind {A B} (m : prog A) (k : A → prog B) : prog B :=
  λ s, match m s with
       | (Returned a, s') => k a s'
       | (Raised e, s') => (Raised e, s')
       | (Exited c, s') => (Exited c, s')
       end.

Notation "'let+' x ':=' m 'in' k" := (bind m (λ x, k))
  (at level 10, x name, m at level 100, k at level 200).

(** An operation on documents, inside [main]. *)
Definition lift {A} (r : result A) : prog A :=
  match r with
  | Ok a => ret a
  | Raise e => raise (Builtin e)
  end.

(** A call into the world outside. *)
Definition call {A} (r : answer A) : prog A :=
  match r with
  | Got a => ret a
  | Failed e => raise e
  end.

(** [try: body except Exception as e: handler(e)] *)
Definition try_except {A} (body : prog A) (handler : error → prog A)
  : prog A :=
  λ s, match body s with
       | (Raised e, s') => handler e s'
       | r => r
       end.

(** [print(l)] and [print(l, file=sys.stderr)] *)
Definition print (l : line) : prog () :=
  λ s, (Returned (),
        {| manifests := manifests s; stdout := stdout s ++ [l];
           stderr := stderr s; files := files s |}).
Definition eprint (l : line) : prog () :=
  λ s, (Returned (),
        {| manifests := manifests s; stdout := stdout s;
           stderr := stderr s ++ [l]; files := files s |}).

(** [sys.exit(code)] *)
Definition sys_exit {A} (code : Z) : prog A := λ s, (Exited code, s).

(** [manifests = v], [manifests.append(x)] and reading [manifests] *)
Definition assign_manifests (v : list json) : prog () :=
  λ s, (Returned (),
        {| manifests := v; stdout := stdout s;
           stderr := stderr s; files := files s |}).
Definition append_manifest (x : json) : prog () :=
  λ s, (Returned (),
        {| manifests := manifests s ++ [x]; stdout := stdout s;
           stderr := stderr s; files := files s |}).
Definition read_manifests : prog (list json) :=
  λ s, (Returned (manifests s), s).

(** The file [file] now holds [c]. *)
Definition write_file (file : string) (c : content) : prog () :=
  λ s, (Returned (),
        {| manifests := manifests s; stdout := stdout s;
           stderr := stderr s; files := dict_set file c (files s) |}).

(** [for x in xs: body(x)] *)
Fixpoint for_in {A} (body : A → prog ()) (xs : list A) : prog () :=
  match xs with
  | [] => ret ()
  | x :: xs' => let+ _ := body x in for_in body xs'
  end.


Definition newline : string := String (Ascii.ascii_of_nat 10) EmptyString.

Section world.

(** The world outside: what [urllib.request.urlopen(url)] followed by
    [response.read()] gives for a URL, and what [json.loads] makes of the
    data. *)
Variable urlopen : string → answer string.
Variable loads : string → answer json.

(** The levels of recursion the interpreter has left where [main] calls
    [merge_manifests]; how writing a document to a file ends; and the text
    [json.dumps(doc, indent=2, ensure_ascii=False)] returns, or the
    exception it raises. *)
Variable depth : nat.
Variable dump : string → json → written.
Variable dumps : json → answer string.

(** Lines 13-32. *)
Definition fetch_manifest (url : string) : prog json :=
  try_except
    (let+ data := call (urlopen url) in
     call (loads data))
    (λ e, match e with
          | URLError _ =>
              let+ _ := eprint (ErrorFetching url e) in raise e
          | JSONDecodeError _ =>
              let+ _ := eprint (ErrorParsing url e) in raise e
          | _ => raise e
          end).

(** Lines 100-111, the body of [for url in urls]. *)
Definition fetch_into_manifests (url : string) : prog () :=
  try_except
    (let+ _ := print (FetchingURL url) in
     let+ manifest := fetch_manifest url in
     let+ _ := append_manifest manifest in
     let+ app_count :=
       lift (let* apps := py_get manifest "apps" (JList []) in
             py_len apps) in
     print (Found app_count))
    (λ e, eprint (FailedToFetch url e)).

(** Lines 123-124,
    [with open(file, "w", encoding="utf-8") as f: json.dump(doc, f, ...)]. *)
Definition dump_to (file : string) (doc : json) : prog () :=
  match dump file doc with
  | Saved => write_file file (Whole doc)
  | NotOpened e => raise e
  | Broken e => let+ _ := write_file file Partial in raise e
  end.

Definition output_name : string := "OctoNezd's Merged Repository".
Definition output_file : string := "merged_altstore.json".

(** Lines 91-134, for any list of URLs. *)
Definition main_with (urls : list string) : prog () :=
  let+ _ := print (Text "Fetching manifests...") in
  let+ _ := assign_manifests [] in
  let+ _ := for_in fetch_into_manifests urls in
  let+ manifests := read_manifests in
  let+ _ :=
    if negb (truthy (JList manifests)) then
      let+ _ := eprint (Text "Error: No manifests could be fetched") in
      sys_exit 1
    else ret () in
  let+ _ := print (Text (String.append newline "Merging manifests...")) in
  let+ merged := lift (merge_manifests_within depth manifests output_name) in
  let+ _ := dump_to output_file (JDict merged) in
  let+ _ := print (Merged (length manifests)) in
  let+ total :=
    lift (let* apps := dict_getitem "apps" merged in py_len apps) in
  let+ _ := print (TotalApps total) in
  let+ _ := print (SavedTo output_file) in
  let+ _ := print (Text (String.append newline (str_mul "=" 60))) in
  let+ _ := print (Text "Merged Manifest:") in
  let+ _ := print (Text (str_mul "=" 60)) in
  let+ text := call (dumps (JDict merged)) in
  print (Text text).

Definition urls : list string :=
  ["https://github.com/OctoNezd/oldlander/releases/latest/download/altStoreManifest.json";
   "https://github.com/OctoNezd/VNDS-LOVE-TOUCH/releases/latest/download/altStoreManifest.json"].

(** Lines 91-134. *)
Definition main : prog () := main_with urls.

End world.

(** [len(manifest.get("apps", []))], the count [main] prints for a
    manifest. *)
Definition app_count (manifest : json) : result nat :=
  let* apps := py_get manifest "apps" (JList []) in py_len apps.

End Script.

(** ** Notions the properties are stated with *)

(** The identifier the merge reads off an app: [app.get("bundleIdentifier",
    "")], and [""] for a value that has no [get]. *)
Definition app_id (app : json) : json :=
  match py_get app "bundleIdentifier" (JStr "") with
  | Ok v => v
  | Raise _ => JStr ""
  end.

(** The elements of [manifest[key]], none if the key is absent. *)
Definition entries (key : string) (manifest : dict) : list json :=
  match dict_get key manifest with
  | Some v => match py_iter v with Ok xs => xs | Raise _ => [] end
  | None => []
  end.

(** All apps, and all news items, of the input in input order. *)
Definition all_apps (manifests : list dict) : list json :=
  concat (map (entries "apps") manifests).
Definition all_news (manifests : list dict) : list json :=
  concat (map (entries "news") manifests).

(** The non-empty identifiers of a sequence of apps. *)
Definition nonempty_ids (apps : list json) : list json :=
  filter (λ v, truthy v = true) (map app_id apps).

(** [set(ids)], and the number of distinct identifiers [len(set(ids))]. *)
Definition py_set (ids : list json) : list json :=
  fold_left (λ s x, set_add x s) ids [].
Definition count_distinct (ids : list json) : nat := length (py_set ids).

(** The non-empty identifiers that are strings, as strings. *)
Definition string_ids (apps : list json) : list string :=
  omap (λ app, match app_id app with
               | JStr s => if String.eqb s "" then None else Some s
               | _ => None
               end) apps.

(** An app the loop body accepts: a dictionary whose identifier is false or
    hashable. *)
Definition app_ok (app : json) : bool :=
  match app with
  | JDict _ => negb (truthy (app_id app)) || hashable (app_id app)
  | _ => false
  end.

(** A manifest of the documented shape: [apps], when present, is a list of
    acceptable apps, and [news], when present, is a list. *)
Definition manifest_ok (manifest : dict) : bool :=
  match dict_get "apps" manifest with
  | Some (JList xs) => forallb app_ok xs
  | Some _ => false
  | None => true
  end &&
  match dict_get "news" manifest with
  | Some (JList _) | None => true
  | Some _ => false
  end.

(** No dictionary inside the value has a key twice (every Python [dict]
    is so). *)
Fixpoint json_wf (v : json) : bool :=
  match v with
  | JList xs => forallb json_wf xs
  | JDict kvs =>
      bool_decide (NoDup (map fst kvs)) && forallb (λ kv, json_wf (snd kv)) kvs
  | _ => true
  end.

(** Deep structural equality of JSON values: arrays are equal element by
    element in order, objects have the same keys with equal values whatever
    the order of the keys. *)
Unset Elimination Schemes.
Inductive json_equal : json → json → Prop :=
| equal_null : json_equal JNull JNull
| equal_bool b : json_equal (JBool b) (JBool b)
| equal_int z : json_equal (JInt z) (JInt z)
| equal_str s : json_equal (JStr s) (JStr s)
| equal_list xs ys :
    Forall2 json_equal xs ys → json_equal (JList xs) (JList ys)
| equal_dict d1 d2 :
    (∀ k, dict_in k d1 = dict_in k d2) →
    (∀ k v w, dict_get k d1 = Some v → dict_get k d2 = Some w →
              json_equal v w) →
    json_equal (JDict d1) (JDict d2).
Set Elimination Schemes.

(** The news item of the specification's example. *)
Definition hello_item : json := JDict [("title", JStr "hello")].

(** The six JSON values Python takes for false. *)
Definition falsy_values : list json :=
  [JNull; JBool false; JInt 0; JStr ""; JList []; JDict []].

(** *** The loops as functions on their accumulators *)

(** What [for app in xs] appends to [merged["apps"]] when the set of
    identifiers is [seen] at the start. *)
Fixpoint keep_apps (seen : list json) (xs : list json) : list json :=
  match xs with
  | [] => []
  | app :: xs' =>
      if truthy (app_id app) then
        if existsb (λ y, py_eq y (app_id app)) seen then keep_apps seen xs'
        else app :: keep_apps (seen ++ [app_id app]) xs'
      else app :: keep_apps seen xs'
  end.

(** The set of identifiers after [for app in xs]. *)
Fixpoint seen_after (seen : list json) (xs : list json) : list json :=
  match xs with
  | [] => seen
  | app :: xs' =>
      if truthy (app_id app) then
        if existsb (λ y, py_eq y (app_id app)) seen then seen_after seen xs'
        else seen_after (seen ++ [app_id app]) xs'
      else seen_after seen xs'
  end.

(** [merged["news"]] after [for news_item in xs] when it is [acc] at the
    start. *)
Fixpoint keep_news (acc : list json) (xs : list json) : list json :=
  match xs with
  | [] => acc
  | x :: xs' =>
      keep_news (if existsb (λ y, py_eq y x) acc then acc else acc ++ [x]) xs'
  end.

(** The result under construction, with the two sequences it accumulates. *)
Definition shape (output_name : string) (apps news : list json) : dict :=
  [("name", JStr output_name);
   ("identifier", JStr Merge.default_identifier);
   ("iconURL", JStr Merge.default_icon);
   ("apps", JList apps);
   ("news", JList news)].

(** A value [for ... in] can iterate over. *)
Definition iterable (v : json) : bool :=
  match v with
  | JList _ | JStr _ | JDict _ => true
  | _ => false
  end.

(** A manifest the loop body runs through without an exception: [apps] and
    [news], when present, can be iterated over, and every element of [apps]
    is an acceptable app. *)
Definition accepted (manifest : dict) : bool :=
  match dict_get "apps" manifest with Some v => iterable v | None => true end
  && forallb app_ok (entries "apps" manifest)
  && match dict_get "news" manifest with Some v => iterable v | None => true end.

(** What lines 84-86 leave in the result, as a function. *)
Definition with_metadata (first_manifest : dict) (m : dict) : dict :=
  fold_left (λ m key, match dict_get key first_manifest with
                      | Some v => dict_set key v m
                      | None => m
                      end) Merge.metadata_keys m.

(** No two apps of the sequence have the same non-empty identifier. *)
Definition distinct_ids (xs : list json) : Prop :=
  ∀ i j a b, xs !! i = Some a → xs !! j = Some b → (i < j)%nat →
             truthy (app_id b) = true → py_eq (app_id a) (app_id b) = false.

(** No two items of the sequence are equal. *)
Definition distinct_items (xs : list json) : Prop :=
  ∀ i j a b, xs !! i = Some a → xs !! j = Some b → (i < j)%nat →
             py_eq a b = false.

(** *** Notions that relate the two models *)

(** The value [v] in the heap [h] is the document [j]. *)
Unset Elimination Schemes.
Inductive repr (h : Store.heap) : Store.val → json → Prop :=
| repr_none : repr h Store.VNone JNull
| repr_bool b : repr h (Store.VBool b) (JBool b)
| repr_int z : repr h (Store.VInt z) (JInt z)
| repr_str s : repr h (Store.VStr s) (JStr s)
| repr_list l vs js :
    h !! l = Some (Store.OList vs) →
    Forall2 (repr h) vs js →
    repr h (Store.VRef l) (JList js)
| repr_dict l kvs jkvs :
    h !! l = Some (Store.ODict kvs) →
    Forall2 (λ kv jkv, fst kv = fst jkv ∧ repr h (snd kv) (snd jkv)) kvs jkvs →
    repr h (Store.VRef l) (JDict jkvs).
Set Elimination Schemes.

(** The number of values in a document: it bounds the length of every list
    in it and the depth of its nesting. *)
Fixpoint json_size (v : json) : nat :=
  match v with
  | JList xs => S (list_sum (map json_size xs))
  | JDict kvs => S (list_sum (map (λ kv, json_size (snd kv)) kvs))
  | _ => 1
  end.

(** How deep a document is nested: 1 for a value that holds no other, one
    more than its deepest element for a list or a dictionary.  Comparing two
    documents with [==] recurses this deep and no deeper. *)
Fixpoint json_depth (v : json) : nat :=
  match v with
  | JList xs => S (max_list (map json_depth xs))
  | JDict kvs => S (max_list (map (λ kv, json_depth (snd kv)) kvs))
  | _ => 1
  end.

(** Two results agree: both values, related by [P], or the same
    exception. *)
Definition agree {A B} (P : A → B → Prop) (r : result A) (r' : result B)
  : Prop :=
  match r, r' with
  | Ok a, Ok b => P a b
  | Raise e, Raise e' => e = e'
  | _, _ => False
  end.

(** The heap [h] holds the state [st] of the loops, for a call made in the
    heap [h0]: the objects of [h0] are unchanged; the first four objects
    after them are the result's [apps] and [news], the result and the set of
    identifiers; they hold values of [h0] that are the documents of [st].
    The accumulated news are well formed and nested at most [bound] deep,
    the identifiers in the set are hashable. *)
Definition holds (h0 : Store.heap) (name : string) (bound : nat)
    (st : Merge.state) (h : Store.heap) : Prop :=
  unchanged h0 h ∧
  ∃ apps news va vn vs,
    Merge.merged st = shape name apps news ∧
    h !! length h0 = Some (Store.OList va) ∧
    Forall2 (repr h0) va apps ∧
    h !! S (length h0) = Some (Store.OList vn) ∧
    Forall2 (repr h0) vn news ∧
    Forall (λ j, json_wf j = true ∧ (json_depth j ≤ bound)%nat) news ∧
    h !! (length h0 + 2)%nat =
      Some (Store.ODict
              [("name", Store.VStr name);
               ("identifier", Store.VStr Merge.default_identifier);
               ("iconURL", Store.VStr Merge.default_icon);
               ("apps", Store.VRef (length h0));
               ("news", Store.VRef (S (length h0)))]) ∧
    h !! (length h0 + 3)%nat = Some (Store.OSet vs) ∧
    Forall2 (repr h0) vs (Merge.seen_apps st) ∧
    Forall (λ j, hashable j = true) (Merge.seen_apps st).

(** A computation on the heap does what a step on trees does: both end in
    states related by [R], or both raise the same exception. *)
Definition simulates {S} (R : S → Store.heap → Prop) (r : result S)
    (o : Store.outcome () * Store.heap) : Prop :=
  match r, o with
  | Ok s, (Store.Done _, h) => R s h
  | Raise e, (Store.Raised e', _) => e = e'
  | _, _ => False
  end.

(** The heap [h] while the metadata are copied into the result [d], for a
    call made in [h0] whose loops have left [apps] and [news]: the result's
    values are values of [h0] or the two lists. *)
Definition finishing (h0 : Store.heap) (apps news : list json) (d : dict)
    (h : Store.heap) : Prop :=
  unchanged h0 h ∧
  ∃ va vn kvs,
    h !! length h0 = Some (Store.OList va) ∧
    Forall2 (repr h0) va apps ∧
    h !! S (length h0) = Some (Store.OList vn) ∧
    Forall2 (repr h0) vn news ∧
    h !! (length h0 + 2)%nat = Some (Store.ODict kvs) ∧
    Forall2 (λ kv jkv,
               fst kv = fst jkv ∧
               (repr h0 (snd kv) (snd jkv) ∨
                (snd kv = Store.VRef (length h0) ∧ snd jkv = JList apps) ∨
                (snd kv = Store.VRef (S (length h0)) ∧ snd jkv = JList news)))
      kvs d.

(** The body [body] of a loop on the heap, run on [x], does what the body
    [pbody] of the loop on trees does on [jx]. *)
Definition step {St B} (R : St → Store.heap → Prop)
    (pbody : B → St → result St) (body : Store.val → Store.M ())
    (x : Store.val) (jx : B) : Prop :=
  ∀ s h, R s h → simulates R (pbody jx s) (body x h).

(** Two states of the loops that differ in the output name only. *)
Definition renamed (n1 n2 : string) (s1 s2 : Merge.state) : Prop :=
  ∃ A N seen, s1 = Merge.State (shape n1 A N) seen ∧
              s2 = Merge.State (shape n2 A N) seen.

(** *** First-seen order, in the specification's words *)

(** The items of [xs] in their order, an item being left out when [dup]
    finds it among the items before it. *)
Definition first_seen {A} (dup : list A → A → bool) (xs : list A) : list A :=
  omap (λ i, match xs !! i with
             | Some x => if dup (take i xs) x then None else Some x
             | None => None
             end) (seq 0 (length xs)).

(** The same by recursion, for the items [xs] that come after [pre]. *)
Fixpoint first_seen_after {A} (dup : list A → A → bool) (pre xs : list A)
  : list A :=
  match xs with
  | [] => []
  | x :: xs' =>
      if dup pre x then first_seen_after dup (pre ++ [x]) xs'
      else x :: first_seen_after dup (pre ++ [x]) xs'
  end.

(** An app whose identifier is not empty and is the identifier of an app
    among [pre]. *)
Definition identifier_taken (pre : list json) (app : json) : bool :=
  truthy (app_id app) && existsb (λ e, py_eq (app_id e) (app_id app)) pre.

(** A news item that equals an item among [pre]. *)
Definition item_present (pre : list json) (item : json) : bool :=
  existsb (λ e, py_eq e item) pre.

(** *** Notions for the recursion limit *)

(** [r] is [r'], unless the recursion limit was hit on the way. *)
Definition up_to_limit {A} (r r' : result A) : Prop :=
  r = r' ∨ r = Raise RecursionError.

(** *** Notions for the script *)

Section script_notions.

Variable urlopen : string → Script.answer string.
Variable loads : string → Script.answer json.

(** What the request and the parser together make of a URL. *)
Definition fetched (url : string) : Script.answer json :=
  match urlopen url with
  | Script.Got data => loads data
  | Script.Failed e => Script.Failed e
  end.

(** The document behind a URL, if the request and the parser succeed. *)
Definition delivered (url : string) : option json :=
  match fetched url with
  | Script.Got doc => Some doc
  | Script.Failed _ => None
  end.

(** The line [fetch_manifest] writes for an exception, if it writes one. *)
Definition fetch_log (url : string) (e : Script.error) : list Script.line :=
  match e with
  | Script.URLError _ => [Script.ErrorFetching url e]
  | Script.JSONDecodeError _ => [Script.ErrorParsing url e]
  | _ => []
  end.

(** What one turn of the loop of [main] writes to [stdout] and to
    [stderr]. *)
Definition progress (url : string) : list Script.line :=
  Script.FetchingURL url ::
  match fetched url with
  | Script.Got doc =>
      match Script.app_count doc with
      | Ok n => [Script.Found n]
      | Raise _ => []
      end
  | Script.Failed _ => []
  end.

Definition complaints (url : string) : list Script.line :=
  match fetched url with
  | Script.Got doc =>
      match Script.app_count doc with
      | Ok _ => []
      | Raise e => [Script.FailedToFetch url (Script.Builtin e)]
      end
  | Script.Failed e => fetch_log url e ++ [Script.FailedToFetch url e]
  end.

End script_notions.

(** What [main] prints once the merge of [count] manifests has returned [d]
    and [d] is in the file, up to the heading; and all of it, with the
    [text] of [d] at the end. *)
Definition summary (count : nat) (d : dict) : list Script.line :=
  [Script.Text (String.append Script.newline "Merging manifests...");
   Script.Merged count;
   Script.TotalApps
     (match dict_get "apps" d with
      | Some (JList apps) => length apps
      | _ => 0%nat
      end);
   Script.SavedTo Script.output_file;
   Script.Text (String.append Script.newline (str_mul "=" 60));
   Script.Text "Merged Manifest:";
   Script.Text (str_mul "=" 60)].
Definition report (count : nat) (d : dict) (text : string)
  : list Script.line :=
  summary count d ++ [Script.Text text].

(** The verdicts among the lines: [Found] on [stdout], [Failed to fetch] on
    [stderr]. *)
Definition is_found (l : Script.line) : bool :=
  match l with Script.Found _ => true | _ => false end.
Definition is_failed (l : Script.line) : bool :=
  match l with Script.FailedToFetch _ _ => true | _ => false end.

(** *** Example documents *)

(** The manifests [A] and [B] of the specification's example. *)
Definition spec_A : dict :=
  [("apps", JList [JDict [("bundleIdentifier", JStr "x"); ("v", JInt 1)]])].
Definition spec_B : dict :=
  [("apps", JList [JDict [("bundleIdentifier", JStr "x"); ("v", JInt 2)];
                   JDict [("bundleIdentifier", JStr "y"); ("v", JInt 1)]])].

(** Two manifests with metadata, news, an app without identifier in both and
    an app whose identifier is [null]. *)
Definition example_first : dict :=
  [("name", JStr "First");
   ("iconURL", JStr "https://example.org/icon.png");
   ("apps", JList [JDict [("bundleIdentifier", JStr "x"); ("v", JInt 1)];
                   JDict [("name", JStr "anonymous")];
                   JDict [("bundleIdentifier", JNull)]]);
   ("news", JList [hello_item])].
Definition example_second : dict :=
  [("website", JStr "https://example.org");
   ("apps", JList [JDict [("bundleIdentifier", JStr "x"); ("v", JInt 2)];
                   JDict [("bundleIdentifier", JStr "y"); ("v", JInt 1)];
                   JDict [("name", JStr "anonymous")]]);
   ("news", JList [hello_item; JDict [("title", JStr "bye")]])].
Definition example_manifests : list dict := [example_first; example_second].

(** A manifest with the same nested news item twice: the second is compared
    with the first, one level of recursion for the two lists and one for
    their elements. *)
Definition example_nested : dict :=
  [("news", JList [JList [JInt 1]; JList [JInt 1]])].

(** The same two manifests in a heap, and the reference to their list. *)
Definition example_heap : Store.heap :=
  (Store.load (JList (map JDict example_manifests)) []).2.
Definition example_ref : Store.val :=
  match (Store.load (JList (map JDict example_manifests)) []).1 with
  | Store.Done v => v
  | _ => Store.VNone
  end.

(** A world for the examples: two URLs answer with the text of the two
    example manifests, a third with text that is no JSON, a fourth with an
    empty array, a fifth with an object whose [apps] is [null], and any
    other URL is not found. *)
Definition example_urlopen (url : string) : Script.answer string :=
  if String.eqb url "https://example.org/first.json" then
    Script.Got "<first>"
  else if String.eqb url "https://example.org/second.json" then
    Script.Got "<second>"
  else if String.eqb url "https://example.org/broken.json" then
    Script.Got "<!DOCTYPE html>"
  else if String.eqb url "https://example.org/array.json" then
    Script.Got "[]"
  else if String.eqb url "https://example.org/odd.json" then
    Script.Got "<odd>"
  else Script.Failed (Script.URLError "HTTP Error 404: Not Found").

Definition example_loads (data : string) : Script.answer json :=
  if String.eqb data "<first>" then Script.Got (JDict example_first)
  else if String.eqb data "<second>" then Script.Got (JDict example_second)
  else if String.eqb data "[]" then Script.Got (JList [])
  else if String.eqb data "<odd>" then Script.Got (JDict [("apps", JNull)])
  else Script.Failed
         (Script.JSONDecodeError "Expecting value: line 1 column 1 (char 0)").

(** Every file can be written, and the text of a document is at hand. *)
Definition example_dump (file : string) (doc : json) : Script.written :=
  Script.Saved.
Definition example_dumps (doc : json) : Script.answer string :=
  Script.Got "<text>".


Definition example_state : Script.state :=
  {| Script.manifests := []; Script.stdout := []; Script.stderr := [];
     Script.files := [] |}.

(** * Properties *)

(** ** Dictionaries *)

Lemma dict_get_set_eq {V} k (v : V) d : dict_get k (dict_set k v d) = Some v.
Proof.
  induction d as [|[k' v'] d IH]; simpl.
  - by rewrite String.eqb_refl.
  - destruct (String.eqb k k') eqn:E; simpl; rewrite ?String.eqb_refl, ?E; done.
Qed.

Lemma dict_get_set_ne {V} k k' (v : V) d :
  k ≠ k' → dict_get k' (dict_set k v d) = dict_get k' d.
Proof.
  intros Hne. induction d as [|[k0 v0] d IH]; simpl.
  - apply String.eqb_neq in Hne. rewrite String.eqb_sym in Hne. by rewrite Hne.
  - destruct (String.eqb k k0) eqn:E; simpl.
    + apply String.eqb_eq in E as <-.
      assert (String.eqb k' k = false) as ->; [|done].
      apply String.eqb_neq. congruence.
    + by rewrite IH.
Qed.

Lemma dict_in_set_ne {V} k k' (v : V) d :
  k ≠ k' → dict_in k' (dict_set k v d) = dict_in k' d.
Proof. intros. unfold dict_in. by rewrite dict_get_set_ne. Qed.

Lemma dict_get_elem_of {V} k (v : V) d : dict_get k d = Some v → (k, v) ∈ d.
Proof.
  induction d as [|[k' v'] d IH]; simpl; [done|].
  destruct (String.eqb k k') eqn:E.
  - apply String.eqb_eq in E as <-. intros [= <-]. left.
  - intros. right. auto.
Qed.

Lemma dict_get_None {V} k (d : list (string * V)) :
  dict_get k d = None ↔ k ∉ map fst d.
Proof.
  induction d as [|[k' v'] d IH]; simpl.
  - split; [intros _; apply not_elem_of_nil | done].
  - rewrite not_elem_of_cons. destruct (String.eqb k k') eqn:E.
    + apply String.eqb_eq in E. split; [done | tauto].
    + apply String.eqb_neq in E. tauto.
Qed.

Lemma dict_get_NoDup {V} k (v : V) d :
  NoDup (map fst d) → (k, v) ∈ d → dict_get k d = Some v.
Proof.
  induction d as [|[k' v'] d IH]; simpl.
  - intros _ H. by apply elem_of_nil in H.
  - rewrite NoDup_cons. intros [Hk Hd] [Heq | Hin]%elem_of_cons.
    + injection Heq as <- <-. by rewrite String.eqb_refl.
    + destruct (String.eqb k k') eqn:E; [|auto].
      apply String.eqb_eq in E as <-. destruct Hk.
      apply list_elem_of_fmap. by exists (k, v).
Qed.

(** ** Python equality on hashable values *)

Lemma py_eq_str s t : py_eq (JStr s) (JStr t) = true ↔ s = t.
Proof. apply String.eqb_eq. Qed.

Lemma py_eq_truthy a b : py_eq a b = true → truthy a = truthy b.
Proof.
  destruct a as [|x|x|s|xs|d1], b as [|y|y|t|ys|d2];
    cbn [py_eq truthy]; try done.
  - by destruct x, y.
  - intros <-%Z.eqb_eq. by destruct x.
  - intros ->%Z.eqb_eq. by destruct y.
  - by intros ->%Z.eqb_eq.
  - by intros ->%String.eqb_eq.
  - by destruct xs, ys.
  - by destruct d1, d2.
Qed.

Lemma py_eq_hashable a b : py_eq a b = true → hashable a = hashable b.
Proof. destruct a, b; simpl; done. Qed.

Lemma py_eq_refl_hashable a : hashable a = true → py_eq a a = true.
Proof.
  destruct a; cbn [py_eq hashable]; try done; intros _;
    first [apply Z.eqb_refl | apply String.eqb_refl].
Qed.

Lemma py_eq_sym_hashable a b : hashable a = true → py_eq a b = py_eq b a.
Proof.
  destruct a, b; cbn [py_eq hashable]; try done; intros _;
    first [apply Z.eqb_sym | apply String.eqb_sym].
Qed.

Lemma py_eq_trans_hashable a b c :
  hashable a = true → py_eq a b = true → py_eq b c = true → py_eq a c = true.
Proof.
  destruct a, b; cbn [py_eq hashable]; try done;
    destruct c; cbn [py_eq]; try done; intros _;
    rewrite ?Z.eqb_eq, ?String.eqb_eq; congruence.
Qed.

Lemma py_eq_list_cons x xs y ys :
  py_eq (JList (x :: xs)) (JList (y :: ys)) =
  py_eq x y && py_eq (JList xs) (JList ys).
Proof. reflexivity. Qed.

Lemma py_eq_dict_unfold d1 d2 :
  py_eq (JDict d1) (JDict d2) =
  (length d1 =? length d2)%nat &&
  forallb (λ kv, match dict_get (fst kv) d2 with
                 | Some w => py_eq (snd kv) w
                 | None => false
                 end) d1.
Proof.
  cbn [py_eq]. f_equal. induction d1 as [|[k v] d1 IH]; [done|].
  cbn [forallb fst snd]. by rewrite <- IH.
Qed.

(** ** The exception monad *)

Lemma for_each_app {A S} (body : A → S → result S) xs ys s :
  for_each body (xs ++ ys) s =
  let* s' := for_each body xs s in for_each body ys s'.
Proof.
  revert s. induction xs as [|x xs IH]; intros s; simpl; [done|].
  destruct (body x s); simpl; auto.
Qed.

Lemma bind_Ok {A B} (m : result A) (f : A → result B) b :
  bind m f = Ok b ↔ ∃ a, m = Ok a ∧ f a = Ok b.
Proof.
  destruct m; simpl; split.
  - eauto.
  - by intros (? & [= <-] & ?).
  - done.
  - by intros (? & ? & ?).
Qed.

(** ** The loops of the merge, on the accumulators *)

Lemma keep_apps_app seen xs ys :
  keep_apps seen (xs ++ ys) =
  keep_apps seen xs ++ keep_apps (seen_after seen xs) ys.
Proof.
  revert seen. induction xs as [|x xs IH]; intros seen; simpl; [done|].
  destruct (truthy (app_id x)); [destruct (existsb _ seen)|];
    simpl; by rewrite ?IH.
Qed.

Lemma seen_after_app seen xs ys :
  seen_after seen (xs ++ ys) = seen_after (seen_after seen xs) ys.
Proof.
  revert seen. induction xs as [|x xs IH]; intros seen; simpl; [done|].
  destruct (truthy (app_id x)); [destruct (existsb _ seen)|]; by rewrite ?IH.
Qed.

Lemma keep_news_app acc xs ys :
  keep_news acc (xs ++ ys) = keep_news (keep_news acc xs) ys.
Proof. revert acc. induction xs as [|x xs IH]; intros acc; simpl; auto. Qed.

Lemma append_at_apps n A N x :
  append_at "apps" x (shape n A N) = Ok (shape n (A ++ [x]) N).
Proof. reflexivity. Qed.

Lemma append_at_news n A N x :
  append_at "news" x (shape n A N) = Ok (shape n A (N ++ [x])).
Proof. reflexivity. Qed.

Lemma merge_app_shape app n A N seen :
  match Merge.merge_app app (Merge.State (shape n A N) seen) with
  | Ok st =>
      app_ok app = true ∧
      st = Merge.State (shape n (A ++ keep_apps seen [app]) N)
                       (seen_after seen [app])
  | Raise e => app_ok app = false ∧ e ≠ ValueError
  end.
Proof.
  unfold Merge.merge_app, app_ok, keep_apps, seen_after, app_id.
  destruct app as [| | | | |kvs]; simpl py_get; cbn [bind]; try done.
  set (b := match dict_get _ kvs with Some w => w | None => JStr "" end).
  unfold set_contains, set_add. cbn [Merge.seen_apps Merge.merged].
  destruct (truthy b) eqn:Hb; cbn [negb orb bind].
  - destruct (hashable b) eqn:Hh; cbn [bind]; [|done].
    destruct (existsb (λ y, py_eq y b) seen) eqn:Hs; cbn [negb bind].
    + by rewrite app_nil_r.
    + by rewrite append_at_apps.
  - by rewrite append_at_apps.
Qed.

Lemma apps_loop xs n A N seen :
  match for_each Merge.merge_app xs (Merge.State (shape n A N) seen) with
  | Ok st =>
      forallb app_ok xs = true ∧
      st = Merge.State (shape n (A ++ keep_apps seen xs) N) (seen_after seen xs)
  | Raise e => forallb app_ok xs = false ∧ e ≠ ValueError
  end.
Proof.
  revert A seen. induction xs as [|x xs IH]; intros A seen.
  - simpl. by rewrite app_nil_r.
  - cbn [for_each forallb].
    pose proof (merge_app_shape x n A N seen) as Hx.
    destruct (Merge.merge_app x _) as [st|e]; cbn [bind].
    + destruct Hx as [-> ->]. specialize (IH (A ++ keep_apps seen [x])
        (seen_after seen [x])).
      change (x :: xs) with ([x] ++ xs).
      rewrite keep_apps_app, seen_after_app, app_assoc. exact IH.
    + destruct Hx as [-> ?]. done.
Qed.

Lemma merge_news_item_shape x n A N seen :
  Merge.merge_news_item x (Merge.State (shape n A N) seen) =
  Ok (Merge.State (shape n A (keep_news N [x])) seen).
Proof.
  unfold Merge.merge_news_item. simpl.
  destruct (existsb (λ y, py_eq y x) N); reflexivity.
Qed.

Lemma news_loop xs n A N seen :
  for_each Merge.merge_news_item xs (Merge.State (shape n A N) seen) =
  Ok (Merge.State (shape n A (keep_news N xs)) seen).
Proof.
  revert N. induction xs as [|x xs IH]; intros N; [done|].
  cbn [for_each]. rewrite merge_news_item_shape. cbn [bind].
  rewrite IH. reflexivity.
Qed.

Lemma merge_manifest_shape m n A N seen :
  match Merge.merge_manifest m (Merge.State (shape n A N) seen) with
  | Ok st =>
      accepted m = true ∧
      st = Merge.State (shape n (A ++ keep_apps seen (entries "apps" m))
                                (keep_news N (entries "news" m)))
                       (seen_after seen (entries "apps" m))
  | Raise e => accepted m = false ∧ e ≠ ValueError
  end.
Proof.
  unfold Merge.merge_manifest, accepted, entries, dict_in, dict_getitem.
  destruct (dict_get "apps" m) as [va|]; cbn [bind].
  - destruct va as [| | |s|xs|kvs]; cbn [py_iter iterable bind andb]; try done.
    all: match goal with
         | |- context [for_each Merge.merge_app ?l ?st] =>
             pose proof (apps_loop l n A N seen) as Ha;
             destruct (for_each Merge.merge_app l st) as [st1|e]
         end; cbn [bind]; destruct Ha as [-> Ha]; cbn [andb]; try done;
      subst st1;
      (destruct (dict_get "news" m) as [vn|]; cbn [bind]; [|done]);
      (destruct vn; cbn [py_iter iterable bind]; try done);
      by rewrite news_loop.
  - cbn [forallb andb]. rewrite app_nil_r.
    destruct (dict_get "news" m) as [vn|]; cbn [bind]; [|done].
    destruct vn; cbn [py_iter iterable bind]; try done; by rewrite news_loop.
Qed.

Lemma manifests_loop ms n A N seen :
  match for_each Merge.merge_manifest ms (Merge.State (shape n A N) seen) with
  | Ok st =>
      forallb accepted ms = true ∧
      st = Merge.State (shape n (A ++ keep_apps seen (all_apps ms))
                                (keep_news N (all_news ms)))
                       (seen_after seen (all_apps ms))
  | Raise e => forallb accepted ms = false ∧ e ≠ ValueError
  end.
Proof.
  revert A N seen. induction ms as [|m ms IH]; intros A N seen.
  - simpl. by rewrite app_nil_r.
  - cbn [for_each forallb]. unfold all_apps, all_news. cbn [map concat].
    pose proof (merge_manifest_shape m n A N seen) as Hm.
    destruct (Merge.merge_manifest m _) as [st|e]; cbn [bind].
    + destruct Hm as [-> ->]. cbn [andb].
      rewrite keep_apps_app, seen_after_app, keep_news_app, app_assoc.
      apply IH.
    + by destruct Hm as [-> ?].
Qed.

Lemma copy_metadata_fun first m :
  Merge.copy_metadata first m = Ok (with_metadata first m).
Proof.
  unfold Merge.copy_metadata, with_metadata.
  generalize Merge.metadata_keys. intros keys. revert m.
  induction keys as [|k keys IH]; intros m; [done|].
  cbn [for_each fold_left]. unfold Merge.copy_key at 1, dict_in, dict_getitem.
  destruct (dict_get k first); cbn [bind]; apply IH.
Qed.

(** The whole function in one equation. *)
Lemma merge_manifests_spec ms name :
  match Merge.merge_manifests ms name with
  | Ok r =>
      ∃ first rest, ms = first :: rest ∧ forallb accepted ms = true ∧
        r = with_metadata first
              (shape name (keep_apps [] (all_apps ms))
                          (keep_news [] (all_news ms)))
  | Raise e =>
      (ms = [] ∧ e = ValueError) ∨
      (ms ≠ [] ∧ forallb accepted ms = false ∧ e ≠ ValueError)
  end.
Proof.
  destruct ms as [|first rest]; [by left|].
  unfold Merge.merge_manifests.
  pose proof (manifests_loop (first :: rest) name [] [] []) as H.
  change (Merge.initial name) with (Merge.State (shape name [] []) []).
  destruct (for_each Merge.merge_manifest _ _) as [st|e]; cbn [bind].
  - destruct H as [Hok ->]. cbn [Merge.merged]. rewrite copy_metadata_fun.
    exists first, rest. by rewrite app_nil_l.
  - right. by destruct H.
Qed.

(** ** The metadata step *)

Lemma with_metadata_other (first : dict) keys (m : dict) k :
  k ∉ keys →
  dict_get k (fold_left (λ m key, match dict_get key first with
                                  | Some v => dict_set key v m
                                  | None => m
                                  end) keys m) = dict_get k m.
Proof.
  revert m. induction keys as [|k0 keys IH]; intros m Hk; [done|].
  apply not_elem_of_cons in Hk as [Hne Hk]. cbn [fold_left].
  rewrite IH by done. destruct (dict_get k0 first); [|done].
  by apply dict_get_set_ne.
Qed.

Lemma with_metadata_copied (first : dict) keys (m : dict) k :
  k ∈ keys →
  dict_get k (fold_left (λ m key, match dict_get key first with
                                  | Some v => dict_set key v m
                                  | None => m
                                  end) keys m) =
  match dict_get k first with
  | Some v => Some v
  | None => dict_get k m
  end.
Proof.
  revert m. induction keys as [|k0 keys IH]; intros m Hk.
  - by apply elem_of_nil in Hk.
  - cbn [fold_left]. destruct (decide (k ∈ keys)) as [Hin|Hnotin].
    + rewrite IH by done. destruct (dict_get k first) eqn:Ek; [done|].
      destruct (dict_get k0 first) eqn:Ek0; [|done].
      apply dict_get_set_ne. congruence.
    + apply elem_of_cons in Hk as [->|?]; [|done].
      rewrite with_metadata_other by done.
      destruct (dict_get k0 first); [apply dict_get_set_eq | done].
Qed.

Lemma manifest_ok_accepted m : manifest_ok m = true → accepted m = true.
Proof.
  unfold manifest_ok, accepted, entries.
  destruct (dict_get "apps" m) as [[]|], (dict_get "news" m) as [[]|];
    cbn [py_iter iterable forallb andb]; rewrite ?andb_true_r, ?andb_false_r;
    done.
Qed.

Lemma merge_manifests_Ok ms name r :
  Merge.merge_manifests ms name = Ok r →
  ∃ first rest, ms = first :: rest ∧ forallb accepted ms = true ∧
    r = with_metadata first
          (shape name (keep_apps [] (all_apps ms)) (keep_news [] (all_news ms))).
Proof. intros H. pose proof (merge_manifests_spec ms name). by rewrite H in *. Qed.

Lemma result_apps first name A N :
  dict_get "apps" (with_metadata first (shape name A N)) = Some (JList A).
Proof.
  unfold with_metadata. rewrite with_metadata_other; [done|].
  unfold Merge.metadata_keys. rewrite !not_elem_of_cons.
  repeat split; try done. apply not_elem_of_nil.
Qed.

Lemma result_news first name A N :
  dict_get "news" (with_metadata first (shape name A N)) = Some (JList N).
Proof.
  unfold with_metadata. rewrite with_metadata_other; [done|].
  unfold Merge.metadata_keys. rewrite !not_elem_of_cons.
  repeat split; try done. apply not_elem_of_nil.
Qed.

(** ** C6, C7 *)

(** C6.  Each of the seven metadata keys is in the result with the first
    manifest's value exactly when the first manifest has it; otherwise the
    result keeps what it had, the default for [iconURL] and no entry for the
    others.  The later manifests play no part. *)
Theorem C6_metadata_from_first first rest name r :
  Merge.merge_manifests (first :: rest) name = Ok r →
  (∀ v, dict_get "iconURL" first = Some v → dict_get "iconURL" r = Some v) ∧
  (∀ k, k ∈ ["sourceURL"; "subtitle"; "description"; "iconURL"; "headerURL";
             "website"; "tintColor"] →
     dict_get k r =
     match dict_get k first with
     | Some v => Some v
     | None =>
         if String.eqb k "iconURL"
         then Some (JStr "https://octonezd.me/octo-ios-repo/icon.jpg")
         else None
     end).
Proof.
  intros (f & rs & [= <- <-] & _ & ->)%merge_manifests_Ok.
  assert (∀ k, k ∈ Merge.metadata_keys →
    dict_get k (with_metadata first (shape name (keep_apps [] (all_apps (first :: rest)))
        (keep_news [] (all_news (first :: rest))))) =
    match dict_get k first with
    | Some v => Some v
    | None => if String.eqb k "iconURL" then Some (JStr Merge.default_icon) else None
    end) as Hk.
  { intros k Hk. unfold with_metadata. rewrite with_metadata_copied by done.
    destruct (dict_get k first); [done|].
    unfold Merge.metadata_keys in Hk.
    repeat (apply elem_of_cons in Hk as [->|Hk]; [reflexivity|]).
    by apply elem_of_nil in Hk. }
  split; [|exact Hk].
  intros v Hv. rewrite Hk, Hv; [done|].
  unfold Merge.metadata_keys. do 3 right. left.
Qed.

(** C7.  The result's [identifier] is always ["com.octonezd.merged-repo"]
    and its [name] the given output name; the metadata step always completes
    and leaves [name], [identifier], [apps] and [news] as they were. *)
Theorem C7_identifier_name_fixed :
  (∀ ms name r, Merge.merge_manifests ms name = Ok r →
     dict_get "identifier" r = Some (JStr "com.octonezd.merged-repo") ∧
     dict_get "name" r = Some (JStr name)) ∧
  (∀ first m, ∃ m', Merge.copy_metadata first m = Ok m' ∧
     ∀ k, k ∈ ["name"; "identifier"; "apps"; "news"] →
          dict_get k m' = dict_get k m).
Proof.
  assert (∀ first m k, k ∈ ["name"; "identifier"; "apps"; "news"] →
            dict_get k (with_metadata first m) = dict_get k m) as Hframe.
  { intros first m k Hk. apply with_metadata_other.
    unfold Merge.metadata_keys. intros Hin.
    repeat (apply elem_of_cons in Hk as [->|Hk];
            [repeat (apply elem_of_cons in Hin as [?|Hin]; [done|]);
             by apply elem_of_nil in Hin|]).
    by apply elem_of_nil in Hk. }
  split.
  - intros ms name r (f & rs & -> & _ & ->)%merge_manifests_Ok.
    rewrite !Hframe; [done| |].
    + left.
    + right; left.
  - intros first m. exists (with_metadata first m).
    split; [apply copy_metadata_fun | apply Hframe].
Qed.

(** ** The apps loop keeps first occurrences *)

Lemma keep_apps_sublist seen xs : keep_apps seen xs `sublist_of` xs.
Proof.
  revert seen. induction xs as [|x xs IH]; intros seen; simpl; [done|].
  destruct (truthy (app_id x)); [destruct (existsb _ seen)|].
  - by apply sublist_cons.
  - by apply sublist_skip.
  - by apply sublist_skip.
Qed.

Lemma existsb_app_false {A} (p : A → bool) l1 l2 :
  existsb p (l1 ++ l2) = false ↔ existsb p l1 = false ∧ existsb p l2 = false.
Proof. rewrite existsb_app. apply orb_false_iff. Qed.

Lemma existsb_false_elem {A} (p : A → bool) l :
  existsb p l = false ↔ ∀ x, x ∈ l → p x = false.
Proof.
  induction l as [|y l IH]; simpl.
  - split; [intros _ x Hx; by apply elem_of_nil in Hx | done].
  - rewrite orb_false_iff, IH. split.
    + intros [Hy Hl] x [-> |Hx]%elem_of_cons; auto.
    + intros H. split; [apply H; left | intros x Hx; apply H; by right].
Qed.

(** A kept app with an identifier was not in the set at the start. *)
Lemma keep_apps_unseen seen xs a :
  a ∈ keep_apps seen xs → truthy (app_id a) = true →
  existsb (λ y, py_eq y (app_id a)) seen = false.
Proof.
  revert seen. induction xs as [|x xs IH]; intros seen; simpl.
  - intros H. by apply elem_of_nil in H.
  - destruct (truthy (app_id x)) eqn:Hx;
      [destruct (existsb (λ y, py_eq y (app_id x)) seen) eqn:Hs|].
    + apply IH.
    + intros [-> |Hin]%elem_of_cons Ha; [done|].
      by apply (IH _ Hin) in Ha as [? _]%existsb_app_false.
    + intros [-> |Hin]%elem_of_cons Ha; [congruence|]. by apply IH.
Qed.

(** Of two kept apps, the later one's identifier differs from the earlier
    one's. *)
Lemma keep_apps_distinct seen xs i j a b :
  keep_apps seen xs !! i = Some a → keep_apps seen xs !! j = Some b →
  (i < j)%nat → truthy (app_id a) = true →
  py_eq (app_id a) (app_id b) = false.
Proof.
  revert seen i j. induction xs as [|x xs IH]; intros seen i j; simpl; [done|].
  assert (∀ s, (x :: keep_apps s xs) !! i = Some a →
               (x :: keep_apps s xs) !! j = Some b →
               (i < j)%nat → truthy (app_id a) = true →
               (truthy (app_id x) = true → ∀ c, c ∈ keep_apps s xs →
                  py_eq (app_id x) (app_id c) = false) →
               py_eq (app_id a) (app_id b) = false) as Hcons.
  { intros s Hi Hj Hij Ha Hhead. destruct i as [|i], j as [|j]; try lia.
    - injection Hi as ->. apply Hhead; [done|].
      by eapply list_elem_of_lookup_2.
    - simpl in Hi, Hj. eapply (IH s i j); eauto with lia. }
  destruct (truthy (app_id x)) eqn:Hx;
    [destruct (existsb (λ y, py_eq y (app_id x)) seen) eqn:Hs|].
  - apply IH.
  - intros Hi Hj Hij Ha. apply (Hcons _ Hi Hj Hij Ha). intros _ c Hc.
    destruct (truthy (app_id c)) eqn:Hcid.
    + apply (keep_apps_unseen _ _ _ Hc) in Hcid.
      apply existsb_app_false in Hcid as [_ Hcid]. simpl in Hcid.
      by rewrite orb_false_r in Hcid.
    + destruct (py_eq (app_id x) (app_id c)) eqn:E; [|done].
      apply py_eq_truthy in E. congruence.
  - intros Hi Hj Hij Ha. apply (Hcons _ Hi Hj Hij Ha). congruence.
Qed.

Lemma seen_after_elem seen xs v :
  v ∈ seen_after seen xs → v ∈ seen ∨ ∃ e, e ∈ xs ∧ v = app_id e.
Proof.
  revert seen. induction xs as [|x xs IH]; intros seen; simpl; [by left|].
  assert (∀ s, (v ∈ s → v ∈ seen ∨ v = app_id x) → v ∈ seen_after s xs →
               v ∈ seen ∨ ∃ e, e ∈ x :: xs ∧ v = app_id e) as Hstep.
  { intros s Hs [Hv|(e & He & ->)]%IH.
    - destruct (Hs Hv) as [?| ->]; [by left|]. right. exists x. split; [left|done].
    - right. exists e. split; [by right|done]. }
  destruct (truthy (app_id x)); [destruct (existsb _ seen)|];
    apply Hstep; try tauto.
  intros [?| ->%list_elem_of_singleton]%elem_of_app; tauto.
Qed.

(** The first app with a given identifier is kept. *)
Lemma keep_apps_first seen pre a post :
  truthy (app_id a) = true →
  existsb (λ y, py_eq y (app_id a)) seen = false →
  (∀ e, e ∈ pre → py_eq (app_id e) (app_id a) = false) →
  a ∈ keep_apps seen (pre ++ a :: post).
Proof.
  intros Ha Hs Hpre. rewrite keep_apps_app. apply elem_of_app. right.
  assert (existsb (λ y, py_eq y (app_id a)) (seen_after seen pre) = false) as Hs'.
  { apply existsb_false_elem. intros v [Hv|(e & He & ->)]%seen_after_elem.
    - by eapply existsb_false_elem in Hs.
    - by apply Hpre. }
  simpl. rewrite Ha, Hs'. left.
Qed.

(** Apps without an identifier all go through. *)
Lemma keep_apps_unidentified seen xs :
  filter (λ a, truthy (app_id a) = false) (keep_apps seen xs) =
  filter (λ a, truthy (app_id a) = false) xs.
Proof.
  revert seen. induction xs as [|x xs IH]; intros seen; simpl; [done|].
  destruct (truthy (app_id x)) eqn:Hx;
    [destruct (existsb (λ y, py_eq y (app_id x)) seen) eqn:Hs|].
  - rewrite filter_cons_False by congruence. apply IH.
  - rewrite !filter_cons_False by congruence. apply IH.
  - rewrite !filter_cons_True by done. by rewrite IH.
Qed.

Lemma elem_of_concat_map {A B} (f : A → list B) (l : list A) (y : B) :
  y ∈ concat (map f l) ↔ ∃ x, x ∈ l ∧ y ∈ f x.
Proof.
  induction l as [|x l IH]; simpl.
  - split; [intros H; by apply elem_of_nil in H|].
    intros (x & Hx & _). by apply elem_of_nil in Hx.
  - rewrite elem_of_app, IH. split.
    + intros [Hy|(x' & Hx' & Hy)]; [exists x; split; [left|done]|].
      exists x'. split; [by right|done].
    + intros (x' & [-> |Hx']%elem_of_cons & Hy); [by left|].
      right. by exists x'.
Qed.

Lemma accepted_app_ok ms a :
  forallb accepted ms = true → a ∈ all_apps ms → app_ok a = true.
Proof.
  intros Hacc Ha. unfold all_apps in Ha.
  apply elem_of_concat_map in Ha as (m & Hm & Ha).
  rewrite forallb_forall in Hacc. apply list_elem_of_In, Hacc in Hm.
  unfold accepted in Hm. apply andb_true_iff in Hm as [Hm _].
  apply andb_true_iff in Hm as [_ Hm]. rewrite forallb_forall in Hm.
  by apply Hm, list_elem_of_In.
Qed.

Lemma app_ok_hashable a :
  app_ok a = true → truthy (app_id a) = true → hashable (app_id a) = true.
Proof.
  unfold app_ok. destruct a; try done. intros H Ht. rewrite Ht in H. done.
Qed.

(** ** Counting identifiers *)

Lemma nonempty_ids_cons x xs :
  nonempty_ids (x :: xs) =
  if truthy (app_id x) then app_id x :: nonempty_ids xs else nonempty_ids xs.
Proof.
  unfold nonempty_ids. cbn [map].
  destruct (truthy (app_id x)) eqn:Hx.
  - by rewrite filter_cons_True.
  - rewrite filter_cons_False; [done | congruence].
Qed.

(** The set of identifiers after the loop is the set of the non-empty
    identifiers of the apps it went through, and also of those it kept. *)
Lemma set_add_unfold x s :
  set_add x s = if existsb (λ y, py_eq y x) s then s else s ++ [x].
Proof. reflexivity. Qed.

Lemma seen_after_set seen xs :
  fold_left (λ s x, set_add x s) (nonempty_ids xs) seen = seen_after seen xs.
Proof.
  revert seen. induction xs as [|x xs IH]; intros seen; [done|].
  rewrite nonempty_ids_cons. cbn [seen_after].
  destruct (truthy (app_id x)); [|apply IH]. cbn [fold_left].
  rewrite (set_add_unfold (app_id x) seen).
  destruct (existsb _ seen); apply IH.
Qed.

Lemma seen_after_kept seen xs :
  fold_left (λ s x, set_add x s) (nonempty_ids (keep_apps seen xs)) seen =
  seen_after seen xs.
Proof.
  revert seen. induction xs as [|x xs IH]; intros seen; [done|].
  cbn [seen_after keep_apps].
  destruct (truthy (app_id x)) eqn:Hx;
    [destruct (existsb (λ y, py_eq y (app_id x)) seen) eqn:Hs|].
  - apply IH.
  - rewrite nonempty_ids_cons, Hx. cbn [fold_left].
    rewrite (set_add_unfold (app_id x) seen), Hs. apply IH.
  - rewrite nonempty_ids_cons, Hx. apply IH.
Qed.

Lemma first_match {A} (p : A → bool) (l : list A) x :
  x ∈ l → p x = true →
  ∃ pre y post, l = pre ++ y :: post ∧ p y = true ∧
                ∀ e, e ∈ pre → p e = false.
Proof.
  induction l as [|z l IH]; intros Hx Hp; [by apply elem_of_nil in Hx|].
  destruct (p z) eqn:Hz.
  - exists [], z, l. repeat split; [done|]. intros e He.
    by apply elem_of_nil in He.
  - apply elem_of_cons in Hx as [-> |Hx]; [congruence|].
    destruct (IH Hx Hp) as (pre & y & post & -> & Hy & Hpre).
    exists (z :: pre), y, post. repeat split; [done|].
    intros e [-> |He]%elem_of_cons; auto.
Qed.

Lemma py_eq_str_l s v : py_eq (JStr s) v = true → v = JStr s.
Proof. destruct v; try done. by intros ->%py_eq_str. Qed.

Lemma py_eq_str_r s v : py_eq v (JStr s) = true → v = JStr s.
Proof. destruct v; try done. by intros ->%py_eq_str. Qed.

Lemma string_ids_elem s xs :
  s ∈ string_ids xs ↔ s ≠ "" ∧ ∃ a, a ∈ xs ∧ app_id a = JStr s.
Proof.
  unfold string_ids. rewrite list_elem_of_omap. split.
  - intros (a & Ha & Hs). destruct (app_id a) eqn:Hid; try done.
    destruct (String.eqb s0 "") eqn:E; [done|]. injection Hs as ->.
    apply String.eqb_neq in E. eauto.
  - intros (Hne & a & Ha & Hid). exists a. split; [done|]. rewrite Hid.
    apply String.eqb_neq in Hne. by rewrite Hne.
Qed.

Lemma string_ids_kept xs s :
  s ∈ string_ids (keep_apps [] xs) ↔ s ∈ string_ids xs.
Proof.
  rewrite !string_ids_elem. split.
  - intros (Hne & a & Ha & Hid). split; [done|]. exists a. split; [|done].
    eapply elem_of_sublist; [done | apply keep_apps_sublist].
  - intros (Hne & a & Ha & Hid). split; [done|].
    destruct (first_match (λ e, py_eq (app_id e) (JStr s)) xs a Ha)
      as (pre & a' & post & -> & Ha' & Hpre).
    { rewrite Hid. by apply py_eq_str. }
    apply py_eq_str_r in Ha'. exists a'. split; [|done].
    apply keep_apps_first; rewrite ?Ha'; [|done|done].
    simpl. apply String.eqb_neq in Hne. by rewrite Hne.
Qed.

(** C3.  The merged [apps] and the input have the same number of distinct
    non-empty bundle identifiers: as Python's [len(set(...))] counts them,
    and, for identifiers that are strings, as the number of different
    strings. *)
Theorem C3_distinct_identifier_count ms name r :
  Merge.merge_manifests ms name = Ok r →
  ∃ apps, dict_get "apps" r = Some (JList apps) ∧
    count_distinct (nonempty_ids apps) =
    count_distinct (nonempty_ids (all_apps ms)) ∧
    length (remove_dups (string_ids apps)) =
    length (remove_dups (string_ids (all_apps ms))).
Proof.
  intros (first & rest & Hms & Hacc & ->)%merge_manifests_Ok.
  exists (keep_apps [] (all_apps ms)). split; [apply result_apps|]. split.
  - unfold count_distinct, py_set. by rewrite seen_after_kept, seen_after_set.
  - apply Permutation_length, NoDup_Permutation; try apply NoDup_remove_dups.
    intros s. rewrite !elem_of_remove_dups. apply string_ids_kept.
Qed.

(** ** A single manifest *)

Lemma keep_apps_all seen xs :
  (∀ b, b ∈ xs → truthy (app_id b) = true →
        existsb (λ y, py_eq y (app_id b)) seen = false) →
  distinct_ids xs → keep_apps seen xs = xs.
Proof.
  revert seen. induction xs as [|x xs IH]; intros seen Hseen Hd; [done|].
  simpl. assert (distinct_ids xs) as Hd'.
  { intros i j a b Hi Hj Hij. by apply (Hd (S i) (S j)); [| |lia]. }
  destruct (truthy (app_id x)) eqn:Hx.
  - rewrite Hseen; [|left|done]. f_equal. apply IH; [|done].
    intros b Hb Hbt. apply existsb_app_false. split.
    + apply Hseen; [by right|done].
    + simpl. rewrite orb_false_r.
      apply list_elem_of_lookup in Hb as [j Hj].
      by apply (Hd 0%nat (S j) x b); [| |lia|].
  - f_equal. apply IH; [|done]. intros b Hb. apply Hseen. by right.
Qed.

Lemma keep_news_all acc xs :
  (∀ b, b ∈ xs → existsb (λ y, py_eq y b) acc = false) →
  distinct_items xs → keep_news acc xs = acc ++ xs.
Proof.
  revert acc. induction xs as [|x xs IH]; intros acc Hacc Hd; simpl.
  - by rewrite app_nil_r.
  - rewrite Hacc by left. rewrite IH.
    + by rewrite <- app_assoc.
    + intros b Hb. apply existsb_app_false. split; [apply Hacc; by right|].
      simpl. rewrite orb_false_r.
      apply list_elem_of_lookup in Hb as [j Hj].
      by apply (Hd 0%nat (S j) x b); [| |lia].
    + intros i j a b Hi Hj Hij. by apply (Hd (S i) (S j)); [| |lia].
Qed.

(** C8.  Merging one manifest gives its own apps and news run through the
    same two loops: their first occurrences, in order.  When the manifest
    has no two apps with the same non-empty identifier the merged apps are
    its apps, and when it has no two equal news items the merged news are its
    news. *)
Theorem C8_single_manifest m name r :
  Merge.merge_manifests [m] name = Ok r →
  ∃ apps news,
    dict_get "apps" r = Some (JList apps) ∧
    dict_get "news" r = Some (JList news) ∧
    apps = keep_apps [] (entries "apps" m) ∧
    news = keep_news [] (entries "news" m) ∧
    apps `sublist_of` entries "apps" m ∧
    (distinct_ids (entries "apps" m) → apps = entries "apps" m) ∧
    (distinct_items (entries "news" m) → news = entries "news" m).
Proof.
  intros (first & rest & Hms & Hacc & ->)%merge_manifests_Ok.
  injection Hms as <- <-. unfold all_apps, all_news. cbn [map concat].
  rewrite !app_nil_r.
  exists (keep_apps [] (entries "apps" m)), (keep_news [] (entries "news" m)).
  split; [apply result_apps|]. split; [apply result_news|].
  do 2 (split; [done|]). split; [apply keep_apps_sublist|]. split.
  - intros Hd. by apply keep_apps_all.
  - intros Hd. by rewrite keep_news_all.
Qed.

(** ** Identifiers that are false *)

Lemma falsy_values_truthy v : v ∈ falsy_values ↔ truthy v = false.
Proof.
  unfold falsy_values. split.
  - intros H. repeat (apply elem_of_cons in H as [-> |H]; [done|]).
    by apply elem_of_nil in H.
  - destruct v as [|[]|z|s|[]|[]]; simpl; try done.
    + intros _. by left.
    + intros _. do 1 right. left.
    + intros ->%negb_false_iff%Z.eqb_eq. do 2 right. left.
    + intros ->%negb_false_iff%String.eqb_eq. do 3 right. left.
    + intros _. do 4 right. left.
    + intros _. do 5 right. left.
Qed.

Lemma merge_app_unidentified kvs st :
  truthy (app_id (JDict kvs)) = false →
  Merge.merge_app (JDict kvs) st =
  let* m := append_at "apps" (JDict kvs) (Merge.merged st) in
  Ok {| Merge.merged := m; Merge.seen_apps := Merge.seen_apps st |}.
Proof.
  unfold Merge.merge_app, app_id. simpl py_get. cbn [bind].
  intros ->. reflexivity.
Qed.

(** C9.  An app whose [bundleIdentifier] is [null], [false], [0], [""],
    [[]] or [{}] goes the way of an app without the key: the body appends it
    and leaves the set of identifiers alone, in the loop it raises nothing,
    and every such app of the input is in the merged [apps]. *)
Theorem C9_falsy_identifier_as_missing v kvs :
  v ∈ falsy_values →
  dict_get "bundleIdentifier" kvs = Some v →
  (∀ st, Merge.merge_app (JDict kvs) st =
         let* m := append_at "apps" (JDict kvs) (Merge.merged st) in
         Ok {| Merge.merged := m; Merge.seen_apps := Merge.seen_apps st |}) ∧
  (∀ kvs' st, dict_get "bundleIdentifier" kvs' = None →
         Merge.merge_app (JDict kvs') st =
         let* m := append_at "apps" (JDict kvs') (Merge.merged st) in
         Ok {| Merge.merged := m; Merge.seen_apps := Merge.seen_apps st |}) ∧
  (∀ name apps news seen,
         Merge.merge_app (JDict kvs) (Merge.State (shape name apps news) seen) =
         Ok (Merge.State (shape name (apps ++ [JDict kvs]) news) seen)) ∧
  (∀ ms name r, Merge.merge_manifests ms name = Ok r →
         JDict kvs ∈ all_apps ms →
         ∃ apps, dict_get "apps" r = Some (JList apps) ∧ JDict kvs ∈ apps).
Proof.
  intros Hv%falsy_values_truthy Hget.
  assert (truthy (app_id (JDict kvs)) = false) as Hid.
  { unfold app_id. simpl. by rewrite Hget. }
  split; [|split; [|split]].
  - intros st. by apply merge_app_unidentified.
  - intros kvs' st Hnone. apply merge_app_unidentified.
    unfold app_id. simpl. by rewrite Hnone.
  - intros name apps news seen. by rewrite merge_app_unidentified.
  - intros ms name r (first & rest & Hms & Hacc & ->)%merge_manifests_Ok Hin.
    exists (keep_apps [] (all_apps ms)). split; [apply result_apps|].
    assert (JDict kvs ∈ filter (λ a, truthy (app_id a) = false)
                          (keep_apps [] (all_apps ms))) as H.
    { rewrite keep_apps_unidentified. by apply list_elem_of_filter. }
    by apply list_elem_of_filter in H as [_ ?].
Qed.

(** ** A later app with a taken identifier *)

Lemma seen_after_mono (p : json → bool) seen xs :
  existsb p seen = true → existsb p (seen_after seen xs) = true.
Proof.
  revert seen. induction xs as [|x xs IH]; intros seen Hs; [done|]. simpl.
  destruct (truthy (app_id x)); [destruct (existsb (λ y, py_eq y _) seen)|]; auto.
  apply IH. rewrite existsb_app, Hs. done.
Qed.

(** Once the loop is past an app, the set has its identifier. *)
Lemma seen_after_covers seen xs e :
  e ∈ xs → truthy (app_id e) = true → hashable (app_id e) = true →
  existsb (λ y, py_eq y (app_id e)) (seen_after seen xs) = true.
Proof.
  revert seen. induction xs as [|x xs IH]; intros seen He Ht Hh.
  - by apply elem_of_nil in He.
  - apply elem_of_cons in He as [<- |He].
    + simpl. rewrite Ht.
      destruct (existsb (λ y, py_eq y (app_id e)) seen) eqn:Hs.
      * by apply seen_after_mono.
      * apply seen_after_mono. rewrite existsb_app. simpl.
        rewrite py_eq_refl_hashable by done. by rewrite orb_true_r.
    + simpl.
      destruct (truthy (app_id x)); [destruct (existsb (λ y, py_eq y _) seen)|]; auto.
Qed.

Lemma existsb_py_eq_trans a b s :
  hashable a = true → py_eq b a = true →
  existsb (λ y, py_eq y b) s = true → existsb (λ y, py_eq y a) s = true.
Proof.
  intros Ha Hba (x & Hx & Hxb)%existsb_exists.
  apply existsb_exists. exists x. split; [done|].
  apply (py_eq_trans_hashable x b a); [|done..].
  apply py_eq_hashable in Hxb, Hba. congruence.
Qed.

(** The body does nothing for an app whose identifier is in the set. *)
Lemma merge_app_seen a st :
  truthy (app_id a) = true → hashable (app_id a) = true →
  existsb (λ y, py_eq y (app_id a)) (Merge.seen_apps st) = true →
  Merge.merge_app a st = Ok st.
Proof.
  unfold Merge.merge_app, app_id.
  destruct a; simpl py_get; cbn [bind]; try done.
  intros -> Hh Hs. unfold set_contains. rewrite Hh. cbn [bind].
  rewrite Hs. reflexivity.
Qed.

Lemma with_metadata_ext first first' m :
  (∀ k, k ∈ Merge.metadata_keys → dict_get k first = dict_get k first') →
  with_metadata first m = with_metadata first' m.
Proof.
  unfold with_metadata. generalize Merge.metadata_keys. intros keys.
  revert m. induction keys as [|k keys IH]; intros m Hk; [done|].
  cbn [fold_left]. rewrite (Hk k) by left. apply IH.
  intros k' Hk'. apply Hk. by right.
Qed.

Lemma merge_manifests_unfold first rest name :
  Merge.merge_manifests (first :: rest) name =
  let* st := for_each Merge.merge_manifest (first :: rest)
               (Merge.State (shape name [] []) []) in
  Ok (with_metadata first (Merge.merged st)).
Proof.
  unfold Merge.merge_manifests.
  change (Merge.initial name) with (Merge.State (shape name [] []) []).
  destruct (for_each _ _ _); cbn [bind]; [apply copy_metadata_fun | done].
Qed.

(** Taking a later app with a taken identifier out of its manifest changes
    nothing. *)
Lemma merge_manifests_discard ms1 m ms2 l1 a l2 e name :
  dict_get "apps" m = Some (JList (l1 ++ a :: l2)) →
  e ∈ all_apps ms1 ++ l1 →
  truthy (app_id a) = true →
  py_eq (app_id e) (app_id a) = true →
  Merge.merge_manifests (ms1 ++ m :: ms2) name =
  Merge.merge_manifests
    (ms1 ++ dict_set "apps" (JList (l1 ++ l2)) m :: ms2) name.
Proof.
  intros Hm He Ha Hae. set (m' := dict_set "apps" (JList (l1 ++ l2)) m).
  assert (truthy (app_id e) = true) as Het.
  { apply py_eq_truthy in Hae. congruence. }
  pose proof (py_eq_hashable _ _ Hae) as Hhash.
  assert (∀ k, k ≠ "apps" → dict_get k m' = dict_get k m) as Hother.
  { intros k Hk. apply dict_get_set_ne. congruence. }
  assert (dict_get "apps" m' = Some (JList (l1 ++ l2))) as Hm'.
  { apply dict_get_set_eq. }
  (* the loop over the manifests *)
  assert (for_each Merge.merge_manifest (ms1 ++ m :: ms2)
            (Merge.State (shape name [] []) []) =
          for_each Merge.merge_manifest (ms1 ++ m' :: ms2)
            (Merge.State (shape name [] []) [])) as Hloop.
  { rewrite !for_each_app.
    pose proof (manifests_loop ms1 name [] [] []) as H1.
    destruct (for_each Merge.merge_manifest ms1 _) as [st|]; [|done].
    destruct H1 as [Hacc ->]. cbn [bind for_each]. f_equal.
    unfold Merge.merge_manifest, dict_in, dict_getitem.
    rewrite Hm, Hm', (Hother "news") by done. cbn [bind py_iter].
    rewrite !for_each_app.
    pose proof (apps_loop l1 name ([] ++ keep_apps [] (all_apps ms1))
                  (keep_news [] (all_news ms1))
                  (seen_after [] (all_apps ms1))) as H2.
    destruct (for_each Merge.merge_app l1 _) as [st1|]; [|done].
    destruct H2 as [Hl1 ->]. cbn [bind for_each].
    assert (hashable (app_id e) = true) as Heh.
    { apply app_ok_hashable; [|done].
      apply elem_of_app in He as [He|He].
      - by apply (accepted_app_ok ms1).
      - rewrite forallb_forall in Hl1. by apply Hl1, list_elem_of_In. }
    rewrite merge_app_seen; [done|..]; cbn [Merge.seen_apps].
    - done.
    - congruence.
    - rewrite <- seen_after_app.
      apply (existsb_py_eq_trans _ (app_id e)); [congruence|done|].
      by apply seen_after_covers. }
  destruct ms1 as [|first ms1]; cbn [app].
  - rewrite !merge_manifests_unfold. cbn [app] in Hloop. rewrite Hloop.
    clear Hloop. destruct (for_each _ _ _); cbn [bind]; [|done]. f_equal.
    apply with_metadata_ext. intros k Hk. symmetry. apply Hother.
    intros ->. unfold Merge.metadata_keys in Hk.
    repeat (apply elem_of_cons in Hk as [?|Hk]; [done|]).
    by apply elem_of_nil in Hk.
  - rewrite !merge_manifests_unfold. cbn [app] in Hloop. by rewrite Hloop.
Qed.

(** C2.  The first occurrence wins.  For the two manifests of the
    specification's example, [A] with one app [x] (v = 1) and [B] with apps
    [x] (v = 2) and [y], merging [[A, B]] gives [x] (v = 1) and [y].  In
    general, an app whose non-empty identifier equals that of an app earlier
    in the input is dropped without a trace: the merge gives the same
    outcome with and without it, whatever the app contains. *)
Theorem C2_first_occurrence_wins :
  (∀ name,
     ∃ r, Merge.merge_manifests
            [ [("apps", JList [JDict [("bundleIdentifier", JStr "x");
                                      ("v", JInt 1)]])];
              [("apps", JList [JDict [("bundleIdentifier", JStr "x");
                                      ("v", JInt 2)];
                               JDict [("bundleIdentifier", JStr "y");
                                      ("v", JInt 1)]])] ] name = Ok r ∧
          dict_get "apps" r =
          Some (JList [JDict [("bundleIdentifier", JStr "x"); ("v", JInt 1)];
                       JDict [("bundleIdentifier", JStr "y"); ("v", JInt 1)]]))
  ∧
  (∀ ms1 m ms2 l1 a l2 e name,
     dict_get "apps" m = Some (JList (l1 ++ a :: l2)) →
     e ∈ all_apps ms1 ++ l1 →
     truthy (app_id a) = true →
     py_eq (app_id e) (app_id a) = true →
     Merge.merge_manifests (ms1 ++ m :: ms2) name =
     Merge.merge_manifests
       (ms1 ++ dict_set "apps" (JList (l1 ++ l2)) m :: ms2) name).
Proof.
  split.
  - intros name. eexists. split; reflexivity.
  - apply merge_manifests_discard.
Qed.

(** ** Python equality and structural equality *)

Lemma json_wf_list xs :
  json_wf (JList xs) = true ↔ ∀ x, x ∈ xs → json_wf x = true.
Proof.
  cbn [json_wf]. rewrite forallb_forall.
  split; intros H x Hx; apply H; by apply list_elem_of_In.
Qed.

Lemma json_wf_dict kvs :
  json_wf (JDict kvs) = true ↔
  NoDup (map fst kvs) ∧ ∀ k v, (k, v) ∈ kvs → json_wf v = true.
Proof.
  cbn [json_wf]. rewrite andb_true_iff, bool_decide_eq_true, forallb_forall.
  split; intros [Hnd H]; (split; [done|]).
  - intros k v Hkv. by apply (H (k, v)), list_elem_of_In.
  - intros [k v] Hkv. by apply (H k v), list_elem_of_In.
Qed.

Lemma dict_in_elem {V} k (d : list (string * V)) :
  dict_in k d = true ↔ k ∈ map fst d.
Proof.
  unfold dict_in. destruct (dict_get k d) as [v|] eqn:E.
  - split; [intros _|done]. apply dict_get_elem_of in E.
    apply list_elem_of_fmap. by exists (k, v).
  - split; [done|]. intros H. by apply dict_get_None in E.
Qed.

Lemma json_equal_refl a : json_equal a a.
Proof.
  induction a as [|x|x|s|xs IH|kvs IH] using json_ind; try constructor.
  - induction IH; constructor; auto.
  - done.
  - intros k v w Hv Hw. assert (v = w) as <- by congruence.
    apply dict_get_elem_of in Hv. rewrite Forall_forall in IH.
    apply (IH (k, v) Hv).
Qed.

Lemma json_equal_sym a b : json_equal a b → json_equal b a.
Proof.
  revert b. induction a as [|x|x|s|xs IH|kvs IH] using json_ind; intros b Hab;
    inversion Hab as [| | | |xs' ys HF|d1 d2 Hk Hv]; subst; clear Hab;
    try constructor.
  - induction HF as [|x y xs ys Hxy HF IHF]; constructor.
    + apply Forall_cons in IH as [IHx _]. auto.
    + apply Forall_cons in IH as [_ IHl]. auto.
  - done.
  - intros k v w Hv' Hw. rewrite Forall_forall in IH.
    apply (IH (k, w)); [by apply dict_get_elem_of | eauto].
Qed.

(** Structurally equal values are equal for Python.  (Not the other way
    round: [True == 1].) *)
Lemma json_equal_py_eq a b :
  json_wf a = true → json_wf b = true → json_equal a b → py_eq a b = true.
Proof.
  revert b. induction a as [|x|x|s|xs IH|d1 IH] using json_ind;
    intros b Ha Hb Hab;
    inversion Hab as [| | | |xs' ys HF|d1' d2 Hk Hv]; subst; clear Hab;
    cbn [py_eq].
  - done.
  - apply Z.eqb_refl.
  - apply Z.eqb_refl.
  - apply String.eqb_refl.
  - rewrite json_wf_list in Ha, Hb.
    induction HF as [|x y xs ys Hxy HF IHF]; [done|].
    apply Forall_cons in IH as [IHx IHxs].
    rewrite IHx, IHF; try done.
    + intros z Hz. apply Ha. by right.
    + intros z Hz. apply Hb. by right.
    + apply Ha. left.
    + apply Hb. left.
  - apply json_wf_dict in Ha as [Hnd1 Hwf1], Hb as [Hnd2 Hwf2].
    apply andb_true_iff. split.
    + apply Nat.eqb_eq. rewrite <- (length_map fst d1), <- (length_map fst d2).
      apply Permutation_length, NoDup_Permutation; [done..|].
      intros k. rewrite <- !dict_in_elem. by rewrite Hk.
    + assert (∀ d, (∀ kv, kv ∈ d → kv ∈ d1) →
        (fix go (d : dict) : bool :=
           match d with
           | [] => true
           | (k, v) :: d' =>
               match dict_get k d2 with
               | Some w => py_eq v w
               | None => false
               end && go d'
           end) d = true) as Hgo; [|by apply Hgo].
      intros d. induction d as [|[k v] d IHd]; intros Hsub; [done|].
      assert ((k, v) ∈ d1) as Hkv by (apply Hsub; left).
      pose proof (dict_get_NoDup k v d1 Hnd1 Hkv) as Hget1.
      assert (dict_in k d2 = true) as Hin2.
      { rewrite <- Hk. unfold dict_in. by rewrite Hget1. }
      unfold dict_in in Hin2.
      destruct (dict_get k d2) as [w|] eqn:Hget2; [|done].
      rewrite Forall_forall in IH. rewrite (IH (k, v) Hkv); simpl.
      * apply IHd. intros kv Hkv'. apply Hsub. by right.
      * by apply (Hwf1 k).
      * apply (Hwf2 k), dict_get_elem_of, Hget2.
      * eauto.
Qed.

Lemma py_eq_refl a : json_wf a = true → py_eq a a = true.
Proof. intros. apply json_equal_py_eq; auto using json_equal_refl. Qed.

(** ** The news loop keeps first occurrences *)

Lemma keep_news_added acc xs :
  ∃ l, keep_news acc xs = acc ++ l ∧ l `sublist_of` xs.
Proof.
  revert acc. induction xs as [|x xs IH]; intros acc; simpl.
  - exists []. by rewrite app_nil_r.
  - destruct (existsb (λ y, py_eq y x) acc).
    + destruct (IH acc) as (l & -> & Hl). exists l. split; [done|].
      by apply sublist_cons.
    + destruct (IH (acc ++ [x])) as (l & -> & Hl). exists (x :: l).
      split; [by rewrite <- app_assoc | by apply sublist_skip].
Qed.

Lemma keep_news_mono (p : json → bool) acc xs :
  existsb p acc = true → existsb p (keep_news acc xs) = true.
Proof.
  destruct (keep_news_added acc xs) as (l & -> & _). intros H.
  by rewrite existsb_app, H.
Qed.

(** Every item the loop went through has an equal in the result. *)
Lemma keep_news_covers acc xs x :
  x ∈ xs → json_wf x = true → existsb (λ y, py_eq y x) (keep_news acc xs) = true.
Proof.
  revert acc. induction xs as [|y xs IH]; intros acc Hx Hwf.
  - by apply elem_of_nil in Hx.
  - apply elem_of_cons in Hx as [<- |Hx]; [|by apply IH]. simpl.
    apply keep_news_mono. destruct (existsb (λ y, py_eq y x) acc) eqn:E; [done|].
    rewrite existsb_app. simpl. by rewrite py_eq_refl, orb_true_r.
Qed.

Lemma distinct_items_snoc acc x :
  distinct_items acc → existsb (λ y, py_eq y x) acc = false →
  distinct_items (acc ++ [x]).
Proof.
  intros Hd Hx i j a b Hi Hj Hij.
  destruct (decide (j < length acc)%nat) as [Hlt|Hge].
  - rewrite lookup_app_l in Hi, Hj by lia. by apply (Hd i j).
  - rewrite lookup_app_r in Hj by lia.
    destruct (j - length acc)%nat eqn:E; [|by destruct n].
    injection Hj as <-. assert (i < length acc)%nat as Hlt.
    { apply lookup_lt_Some in Hi. rewrite length_app in Hi. simpl in Hi. lia. }
    rewrite lookup_app_l in Hi by done.
    eapply existsb_false_elem in Hx; [done|]. by eapply list_elem_of_lookup_2.
Qed.

Lemma keep_news_distinct acc xs :
  distinct_items acc → distinct_items (keep_news acc xs).
Proof.
  revert acc. induction xs as [|x xs IH]; intros acc Hd; [done|]. simpl.
  destruct (existsb (λ y, py_eq y x) acc) eqn:E; apply IH; [done|].
  by apply distinct_items_snoc.
Qed.

Lemma py_eq_hello y : py_eq y hello_item = true → y = hello_item.
Proof.
  unfold hello_item. destruct y as [| | | | |d]; try done. cbn [py_eq].
  destruct d as [|[k v] [|? ?]]; try done.
  cbn [length Nat.eqb andb dict_get].
  destruct (String.eqb k "title") eqn:E; [|done].
  apply String.eqb_eq in E as ->. rewrite !andb_true_r.
  by intros ->%py_eq_str_r.
Qed.

(** ** First-seen order *)

Lemma first_seen_from {A} (dup : list A → A → bool) pre xs :
  omap (λ i, match (pre ++ xs) !! i with
             | Some x => if dup (take i (pre ++ xs)) x then None else Some x
             | None => None
             end) (seq (length pre) (length xs)) =
  first_seen_after dup pre xs.
Proof.
  revert pre. induction xs as [|x xs IH]; intros pre; [done|].
  cbn [length seq first_seen_after]. csimpl.
  rewrite list_lookup_middle by done. rewrite take_app_length.
  specialize (IH (pre ++ [x])). rewrite <- app_assoc in IH. cbn [app] in IH.
  rewrite length_app in IH. cbn [length] in IH.
  replace (length pre + 1)%nat with (S (length pre)) in IH by lia.
  rewrite IH. by destruct (dup pre x).
Qed.

Lemma first_seen_rec {A} (dup : list A → A → bool) xs :
  first_seen dup xs = first_seen_after dup [] xs.
Proof. exact (first_seen_from dup [] xs). Qed.

(** The set of identifiers the loop keeps answers as the apps before do. *)
Lemma seen_after_taken pre v :
  truthy v = true → hashable v = true →
  existsb (λ y, py_eq y v) (seen_after [] pre) =
  existsb (λ e, py_eq (app_id e) v) pre.
Proof.
  intros Ht Hh.
  destruct (existsb (λ e, py_eq (app_id e) v) pre) eqn:E.
  - apply existsb_exists in E as (e & He & Hev).
    apply list_elem_of_In in He.
    apply (existsb_py_eq_trans v (app_id e)); [done..|].
    apply seen_after_covers; [done| |].
    + apply py_eq_truthy in Hev. congruence.
    + apply py_eq_hashable in Hev. congruence.
  - destruct (existsb (λ y, py_eq y v) (seen_after [] pre)) eqn:E';
      [|done].
    apply existsb_exists in E' as (y & Hy & Hyv).
    apply list_elem_of_In, seen_after_elem in Hy as [Hy|(e & He & ->)];
      [by apply elem_of_nil in Hy|].
    rewrite existsb_false_elem in E. by rewrite (E e He) in Hyv.
Qed.

Lemma keep_apps_first_seen pre xs :
  forallb app_ok xs = true →
  keep_apps (seen_after [] pre) xs =
  first_seen_after identifier_taken pre xs.
Proof.
  revert pre. induction xs as [|a xs IH]; intros pre Hok; [done|].
  cbn [forallb] in Hok. apply andb_true_iff in Hok as [Ha Hok].
  specialize (IH (pre ++ [a]) Hok). rewrite seen_after_app in IH.
  cbn [seen_after] in IH. cbn [keep_apps first_seen_after].
  unfold identifier_taken at 1.
  destruct (truthy (app_id a)) eqn:Ht; cbn [andb].
  - rewrite <- seen_after_taken by (try apply app_ok_hashable; done).
    destruct (existsb _ (seen_after [] pre)); by rewrite IH.
  - by rewrite IH.
Qed.

(** Python's [==] on JSON values is transitive. *)
Lemma py_eq_trans a b c :
  py_eq a b = true → py_eq b c = true → py_eq a c = true.
Proof.
  revert b c. induction a as [|x|x|s|xs IH|d1 IH] using json_ind;
    intros b c; destruct b as [|y|y|t|ys|d2]; cbn [py_eq]; try done;
    destruct c as [|z|z|u|zs|d3]; cbn [py_eq]; try done;
    rewrite ?Z.eqb_eq, ?String.eqb_eq; try congruence.
  - change (py_eq (JList xs) (JList ys) = true →
            py_eq (JList ys) (JList zs) = true →
            py_eq (JList xs) (JList zs) = true).
    revert ys zs. induction IH as [|x xs Hx _ IHxs]; intros ys zs;
      destruct ys as [|y ys]; try done; destruct zs as [|z zs]; try done.
    rewrite !py_eq_list_cons, !andb_true_iff.
    intros [Hxy Hxs] [Hyz Hys]. split; [by eapply Hx|by eapply IHxs].
  - change (py_eq (JDict d1) (JDict d2) = true →
            py_eq (JDict d2) (JDict d3) = true →
            py_eq (JDict d1) (JDict d3) = true).
    rewrite !py_eq_dict_unfold, !andb_true_iff, !Nat.eqb_eq.
    intros [Hl12 H12] [Hl23 H23]. split; [congruence|].
    rewrite forallb_forall in H12, H23. apply forallb_forall.
    intros [k v] Hkv. cbn [fst snd].
    pose proof (H12 _ Hkv) as Hv. cbn [fst snd] in Hv.
    destruct (dict_get k d2) as [w|] eqn:Hw; [|done].
    apply dict_get_elem_of, list_elem_of_In in Hw.
    pose proof (H23 _ Hw) as Hu. cbn [fst snd] in Hu.
    destruct (dict_get k d3) as [u|]; [|done].
    rewrite Forall_forall in IH.
    apply (IH (k, v) ltac:(by apply list_elem_of_In) w u); done.
Qed.

(** The news the loop has kept answers as the items before do. *)
Lemma keep_news_present pre x :
  forallb json_wf pre = true →
  existsb (λ y, py_eq y x) (keep_news [] pre) =
  existsb (λ e, py_eq e x) pre.
Proof.
  intros Hwf. rewrite forallb_forall in Hwf.
  destruct (existsb (λ e, py_eq e x) pre) eqn:E.
  - apply existsb_exists in E as (e & He & Hex).
    assert (existsb (λ y, py_eq y e) (keep_news [] pre) = true)
      as (y & Hy & Hye)%existsb_exists.
    { apply keep_news_covers; [by apply list_elem_of_In|by apply Hwf]. }
    apply existsb_exists. exists y. split; [done|]. by eapply py_eq_trans.
  - destruct (existsb (λ y, py_eq y x) (keep_news [] pre)) eqn:E'; [|done].
    apply existsb_exists in E' as (y & Hy & Hyx).
    destruct (keep_news_added [] pre) as (l & Hl & Hsub).
    rewrite Hl in Hy. cbn [app] in Hy.
    rewrite existsb_false_elem in E. rewrite (E y) in Hyx; [done|].
    eapply elem_of_sublist; [|done]. by apply list_elem_of_In.
Qed.

Lemma keep_news_first_seen pre xs :
  forallb json_wf pre = true → forallb json_wf xs = true →
  keep_news (keep_news [] pre) xs =
  keep_news [] pre ++ first_seen_after item_present pre xs.
Proof.
  revert pre. induction xs as [|x xs IH]; intros pre Hpre Hxs.
  - cbn. by rewrite app_nil_r.
  - cbn [forallb] in Hxs. apply andb_true_iff in Hxs as [Hx Hxs].
    assert (forallb json_wf (pre ++ [x]) = true) as Hpre'.
    { rewrite forallb_app, Hpre. cbn. by rewrite Hx. }
    specialize (IH (pre ++ [x]) Hpre' Hxs). rewrite keep_news_app in IH.
    cbn [keep_news] in IH. cbn [keep_news first_seen_after].
    unfold item_present at 1. rewrite <- (keep_news_present pre x Hpre).
    rewrite IH. destruct (existsb _ (keep_news [] pre)); [done|].
    by rewrite <- app_assoc.
Qed.

(** C1.  In the merged [apps], two entries with the same non-empty
    identifier are the same entry; the entries are in input order, and the
    first app of the input with a given identifier is among them; every app
    whose identifier is empty or missing is there, as often as in the
    input.  Position by position: the merged [apps] are the apps of the
    input in input order, an app being left out exactly when its identifier
    is not empty and an app before it in the input has the same
    identifier. *)
Theorem C1_apps_dedup_first_seen ms name r :
  ms ≠ [] →
  Merge.merge_manifests ms name = Ok r →
  ∃ apps, dict_get "apps" r = Some (JList apps) ∧
    apps `sublist_of` all_apps ms ∧
    (∀ i j a b, apps !! i = Some a → apps !! j = Some b →
       truthy (app_id a) = true → py_eq (app_id a) (app_id b) = true →
       i = j) ∧
    (∀ pre a post, all_apps ms = pre ++ a :: post →
       truthy (app_id a) = true →
       (∀ e, e ∈ pre → py_eq (app_id e) (app_id a) = false) →
       a ∈ apps) ∧
    filter (λ a, truthy (app_id a) = false) apps =
    filter (λ a, truthy (app_id a) = false) (all_apps ms) ∧
    apps = first_seen identifier_taken (all_apps ms).
Proof.
  intros _ (first & rest & Hms & Hacc & ->)%merge_manifests_Ok.
  exists (keep_apps [] (all_apps ms)). split; [apply result_apps|].
  split; [apply keep_apps_sublist|]. split; [|split; [|split]].
  - intros i j a b Hi Hj Ha Hab.
    destruct (Nat.lt_trichotomy i j) as [Hlt|[-> |Hgt]]; [|done|].
    + pose proof (keep_apps_distinct _ _ _ _ _ _ Hi Hj Hlt Ha). congruence.
    + assert (truthy (app_id b) = true) as Hb.
      { apply py_eq_truthy in Hab. congruence. }
      pose proof (keep_apps_distinct _ _ _ _ _ _ Hj Hi Hgt Hb) as Hne.
      rewrite py_eq_sym_hashable in Hab; [congruence|].
      apply app_ok_hashable; [|done]. apply (accepted_app_ok ms); [done|].
      eapply elem_of_sublist; [|apply keep_apps_sublist].
      by eapply list_elem_of_lookup_2.
  - intros pre a post -> Ha Hpre. by apply keep_apps_first.
  - apply keep_apps_unidentified.
  - rewrite first_seen_rec.
    apply (keep_apps_first_seen [] (all_apps ms)).
    apply forallb_forall. intros a Ha. apply (accepted_app_ok ms); [done|].
    by apply list_elem_of_In.
Qed.

(** C5.  The merged [news] is taken from the input's news items in input
    order; an item is in it only when no structurally equal item comes
    before it, so no two entries are structurally equal; every input item
    has an entry Python finds equal to it; and when [{"title": "hello"}] is
    among the input's news items, whether in one manifest or in several, the
    merged [news] has it exactly once.  Position by position: the merged
    [news] are the news items of the input in input order, an item being
    left out exactly when an item before it in the input equals it. *)
Theorem C5_news_dedup ms name r :
  Merge.merge_manifests ms name = Ok r →
  forallb json_wf (all_news ms) = true →
  ∃ news, dict_get "news" r = Some (JList news) ∧
    news `sublist_of` all_news ms ∧
    (∀ pre x post, news = pre ++ x :: post →
       ∀ e, e ∈ pre → ¬ json_equal x e) ∧
    (∀ i j x y, news !! i = Some x → news !! j = Some y →
       json_equal x y → i = j) ∧
    (∀ x, x ∈ all_news ms → ∃ y, y ∈ news ∧ py_eq y x = true) ∧
    (hello_item ∈ all_news ms →
       ∃ pre post, news = pre ++ hello_item :: post ∧
                   (hello_item ∉ pre) ∧ (hello_item ∉ post)) ∧
    news = first_seen item_present (all_news ms).
Proof.
  intros (first & rest & Hms & Hacc & ->)%merge_manifests_Ok Hwf.
  pose proof Hwf as Hwfb.
  rewrite forallb_forall in Hwf.
  set (news := keep_news [] (all_news ms)).
  assert (news `sublist_of` all_news ms) as Hsub.
  { destruct (keep_news_added [] (all_news ms)) as (l & Hl & ?).
    unfold news. by rewrite Hl. }
  assert (∀ x, x ∈ news → json_wf x = true) as Hwfn.
  { intros x Hx. apply Hwf, list_elem_of_In. by eapply elem_of_sublist. }
  assert (distinct_items news) as Hd.
  { apply keep_news_distinct. intros i j a b Hi. done. }
  assert (∀ i j x y, news !! i = Some x → news !! j = Some y →
            (i < j)%nat → ¬ json_equal x y) as Hlt.
  { intros i j x y Hi Hj Hij Hxy.
    apply json_equal_py_eq in Hxy;
      [|by eapply Hwfn, list_elem_of_lookup_2..].
    by rewrite (Hd i j x y) in Hxy. }
  exists news. split; [apply result_news|]. split; [done|].
  split; [|split; [|split; [|split]]].
  - intros pre x post Hnews e He Hxe.
    apply list_elem_of_lookup in He as [i Hi].
    assert (i < length pre)%nat by by eapply lookup_lt_Some.
    apply (Hlt i (length pre) e x); [| |done|by apply json_equal_sym].
    + rewrite Hnews. by rewrite lookup_app_l.
    + rewrite Hnews. by rewrite list_lookup_middle.
  - intros i j x y Hi Hj Hxy.
    destruct (Nat.lt_trichotomy i j) as [Hij|[-> |Hij]]; [|done|].
    + by destruct (Hlt i j x y).
    + apply json_equal_sym in Hxy. by destruct (Hlt j i y x).
  - intros x Hx.
    assert (existsb (λ y, py_eq y x) news = true) as (y & Hy & Hxy)%existsb_exists.
    { apply keep_news_covers; [done|]. by apply Hwf, list_elem_of_In. }
    exists y. by rewrite list_elem_of_In.
  - intros Hin.
    assert (existsb (λ y, py_eq y hello_item) news = true)
      as (y & Hy & ->%py_eq_hello)%existsb_exists.
    { by apply keep_news_covers. }
    apply list_elem_of_In, list_elem_of_lookup in Hy as [i Hi].
    exists (take i news), (drop (S i) news).
    split; [by rewrite take_drop_middle|].
    split; intros [j Hj]%list_elem_of_lookup.
    + rewrite lookup_take_Some in Hj. destruct Hj as [Hj Hji].
      destruct (Hlt j i hello_item hello_item); auto using json_equal_refl.
    + rewrite lookup_drop in Hj.
      destruct (Hlt i (S i + j)%nat hello_item hello_item);
        auto using json_equal_refl with lia.
  - rewrite first_seen_rec. unfold news.
    exact (keep_news_first_seen [] (all_news ms) eq_refl Hwfb).
Qed.

(** ** The heap model: the call writes to its own objects only *)

Section hoare.
Import Store.
Context {A B : Type} (I : heap → Prop).

Lemma hoare_ret (a : A) (Q : A → Prop) : Q a → hoare I (ret a) Q.
Proof. intros Ha h Hh. split; [done|]. by intros ? [= <-]. Qed.

Lemma hoare_raise e (Q : A → Prop) : hoare I (raise e) Q.
Proof. intros h Hh. split; [done|]. by intros ?. Qed.

Lemma hoare_look (f : heap → result A) (Q : A → Prop) :
  (∀ h a, I h → f h = Ok a → Q a) → hoare I (look f) Q.
Proof.
  intros Hf h Hh. split; [done|]. unfold look. simpl.
  destruct (f h) eqn:E; [|done]. intros ? [= <-]. eauto.
Qed.

Lemma hoare_weaken (m : M A) (Q Q' : A → Prop) :
  hoare I m Q → (∀ a, Q a → Q' a) → hoare I m Q'.
Proof. intros Hm HQ h Hh. destruct (Hm h Hh). split; auto. Qed.

Lemma hoare_bind (m : M A) (f : A → M B) (Q : A → Prop) (R : B → Prop) :
  hoare I m Q → (∀ a, Q a → hoare I (f a) R) → hoare I (bind m f) R.
Proof.
  intros Hm Hf h Hh. destruct (Hm h Hh) as [HI HQ]. unfold bind.
  destruct (m h) as [[a|e|] h']; simpl in *; [|done..].
  apply (Hf a); auto.
Qed.

End hoare.

Section frame.
Import Store.
Context (h0 : heap).

Lemma unchanged_refl : unchanged h0 h0.
Proof. by intros l o. Qed.

Lemma unchanged_alloc h o : unchanged h0 h → unchanged h0 (h ++ [o]).
Proof. intros H l o' Hl. apply lookup_app_l_Some. auto. Qed.

(** Writing to an object that is not one of [h0] leaves [h0] as it is. *)
Lemma unchanged_insert h l o :
  (length h0 ≤ l)%nat → unchanged h0 h → unchanged h0 (<[l := o]> h).
Proof.
  intros Hl H l' o' Hl'. rewrite list_lookup_insert_ne; [auto|].
  apply lookup_lt_Some in Hl'. lia.
Qed.

Lemma building_insert h l o :
  (length h0 ≤ l)%nat → l ≠ (length h0 + 2)%nat →
  building h0 h → building h0 (<[l := o]> h).
Proof.
  intros Hl Hne [Hu (d & Hd & Ha & Hn)]. split; [by apply unchanged_insert|].
  exists d. by rewrite list_lookup_insert_ne.
Qed.

Lemma hoare_true {X} (I : heap → Prop) (m : M X) :
  (∀ h, I h → I (m h).2) → hoare I m (λ _, True).
Proof. intros H h Hh. split; auto. Qed.

Lemma append_building l x :
  l = length h0 ∨ l = S (length h0) →
  hoare (building h0) (py_append (VRef l) x) (λ _, True).
Proof.
  intros Hl. apply hoare_true. intros h Hh. unfold py_append.
  destruct (h !! l) as [[xs| |]|]; try done. simpl.
  apply building_insert; [lia | lia | done].
Qed.

Lemma add_building depth x :
  hoare (building h0) (py_add depth (VRef (length h0 + 3)) x) (λ _, True).
Proof.
  apply hoare_true. intros h Hh. unfold py_add.
  destruct (h !! _) as [[|  |xs]|]; try done.
  destruct (hashable h x); [|done].
  destruct (any_ok _ xs) as [[]|]; try done. simpl.
  apply building_insert; [lia | lia | done].
Qed.

Lemma getitem_apps :
  hoare (building h0)
    (look (λ h, py_getitem h (VRef (length h0 + 2)) "apps"))
    (λ v, v = VRef (length h0)).
Proof.
  apply hoare_look. intros h a (_ & d & Hd & Ha & _). unfold py_getitem.
  rewrite Hd, Ha. by intros [= <-].
Qed.

Lemma getitem_news :
  hoare (building h0)
    (look (λ h, py_getitem h (VRef (length h0 + 2)) "news"))
    (λ v, v = VRef (S (length h0))).
Proof.
  apply hoare_look. intros h a (_ & d & Hd & _ & Hn). unfold py_getitem.
  rewrite Hd, Hn. by intros [= <-].
Qed.

Lemma look_any {X} (I : heap → Prop) (f : heap → result X) :
  hoare I (look f) (λ _, True).
Proof. by apply hoare_look. Qed.

Lemma merge_app_building depth app :
  hoare (building h0)
    (merge_app depth (VRef (length h0 + 2)) (VRef (length h0 + 3)) app)
    (λ _, True).
Proof.
  unfold merge_app.
  eapply hoare_bind; [apply look_any|]. intros bundle_id _.
  eapply hoare_bind; [apply look_any|]. intros nonempty _.
  eapply hoare_bind with (Q := λ _, True).
  { destruct nonempty; [|by apply hoare_ret].
    eapply hoare_bind; [apply look_any|]. intros ? _. by apply hoare_ret. }
  intros [] _.
  - eapply hoare_bind; [apply getitem_apps|]. intros ? ->.
    eapply hoare_bind; [apply append_building; by left|]. intros _ _.
    apply add_building.
  - destruct (negb nonempty); [|by apply hoare_ret].
    eapply hoare_bind; [apply getitem_apps|]. intros ? ->.
    apply append_building. by left.
Qed.

Lemma merge_news_item_building depth item :
  hoare (building h0)
    (merge_news_item depth (VRef (length h0 + 2)) item) (λ _, True).
Proof.
  unfold merge_news_item.
  eapply hoare_bind; [apply look_any|]. intros news _.
  eapply hoare_bind; [apply look_any|]. intros found _.
  destruct (negb found); [|by apply hoare_ret].
  eapply hoare_bind; [apply getitem_news|]. intros ? ->.
  apply append_building. by right.
Qed.

(** A loop keeps what its body keeps. *)
Section loops.
Context (I : heap → Prop) (body : val → M unit).
Hypothesis Hbody : ∀ x, hoare I (body x) (λ _, True).

Lemma for_values_hoare xs : hoare I (for_values body xs) (λ _, True).
Proof.
  induction xs as [|x xs IH]; simpl; [by apply hoare_ret|].
  eapply hoare_bind; [apply Hbody|]. by intros _ _.
Qed.

Lemma for_list_hoare fuel l i : hoare I (for_list fuel body l i) (λ _, True).
Proof.
  revert i. induction fuel as [|fuel IH]; intros i; apply hoare_true;
    intros h Hh; simpl; [done|].
  destruct (h !! l) as [[xs| |]|]; try done.
  destruct (xs !! i) as [x|]; [|done].
  refine (proj1 (hoare_bind I (body x) _ _ _ (Hbody x) _ h Hh)).
  intros _ _. apply IH.
Qed.

Lemma for_keys_hoare fuel l size i :
  hoare I (for_keys fuel body l size i) (λ _, True).
Proof.
  revert i. induction fuel as [|fuel IH]; intros i; apply hoare_true;
    intros h Hh; simpl; [done|].
  destruct (negb _); [done|].
  destruct (_ !! i) as [x|]; [|done].
  refine (proj1 (hoare_bind I (body x) _ _ _ (Hbody x) _ h Hh)).
  intros _ _. apply IH.
Qed.

Lemma for_in_hoare fuel v : hoare I (for_in fuel v body) (λ _, True).
Proof.
  destruct v as [| | |s|l]; simpl; try apply hoare_raise.
  - apply for_values_hoare.
  - apply hoare_true. intros h Hh.
    destruct (h !! l) as [[xs|kvs|xs]|]; [| | |done].
    + by apply for_list_hoare.
    + by apply for_keys_hoare.
    + by apply for_keys_hoare.
Qed.

End loops.

Lemma merge_manifest_building fuel depth manifest :
  hoare (building h0)
    (merge_manifest fuel depth (VRef (length h0 + 2)) (VRef (length h0 + 3))
       manifest) (λ _, True).
Proof.
  unfold merge_manifest.
  eapply hoare_bind; [apply look_any|]. intros has_apps _.
  eapply hoare_bind with (Q := λ _, True).
  { destruct has_apps; [|by apply hoare_ret].
    eapply hoare_bind; [apply look_any|]. intros apps _.
    apply for_in_hoare. intros x. apply merge_app_building. }
  intros _ _.
  eapply hoare_bind; [apply look_any|]. intros has_news _.
  destruct has_news; [|by apply hoare_ret].
  eapply hoare_bind; [apply look_any|]. intros news _.
  apply for_in_hoare. intros x. apply merge_news_item_building.
Qed.

Lemma copy_key_unchanged depth first key :
  hoare (unchanged h0) (copy_key depth first (VRef (length h0 + 2)) key)
    (λ _, True).
Proof.
  unfold copy_key.
  eapply hoare_bind; [apply look_any|]. intros present _.
  destruct present; [|by apply hoare_ret].
  eapply hoare_bind; [apply look_any|]. intros v _.
  apply hoare_true. intros h Hh. unfold py_setitem.
  destruct (h !! _) as [[|kvs|]|]; try done. simpl.
  apply unchanged_insert; [lia|done].
Qed.

Lemma for_keys_of_hoare (I : heap → Prop) (body : string → M unit) keys :
  (∀ k, hoare I (body k) (λ _, True)) →
  hoare I (for_keys_of body keys) (λ _, True).
Proof.
  intros Hbody. induction keys as [|k keys IH]; simpl; [by apply hoare_ret|].
  eapply hoare_bind; [apply Hbody|]. by intros _ _.
Qed.

Lemma merge_manifests_unchanged fuel depth manifests name :
  unchanged h0 (merge_manifests fuel depth manifests name h0).2.
Proof.
  unfold merge_manifests, bind at 1, look at 1. simpl.
  destruct (truthy h0 manifests); simpl; [|apply unchanged_refl].
  unfold bind at 1, alloc at 1. unfold bind at 1, alloc at 1.
  unfold bind at 1, alloc at 1. unfold bind at 1, alloc at 1.
  rewrite !length_app. simpl.
  replace (length h0 + 1 + 1)%nat with (length h0 + 2)%nat by lia.
  replace (length h0 + 2 + 1)%nat with (length h0 + 3)%nat by lia.
  replace (length h0 + 1)%nat with (S (length h0)) by lia.
  set (h1 := (((h0 ++ _) ++ _) ++ _) ++ _).
  assert (building h0 h1) as H1.
  { split; [by do 4 apply unchanged_alloc; apply unchanged_refl|].
    eexists. split.
    - unfold h1. rewrite <- !app_assoc. simpl.
      rewrite lookup_app_r by lia.
      replace (length h0 + 2 - length h0)%nat with 2%nat by lia.
      reflexivity.
    - split; reflexivity. }
  match goal with
  | |- unchanged h0 (bind ?m ?f h1).2 =>
      assert (hoare (building h0) m (λ _, True)) as Hloop
        by (apply for_in_hoare; intros x; apply merge_manifest_building);
      destruct (Hloop h1 H1) as [[H2 _] _]; unfold bind at 1;
      destruct (m h1) as [[[]|e|] h2]; simpl in *; [|done..]
  end.
  match goal with
  | |- unchanged h0 (bind ?m ?f h2).2 =>
      assert (hoare (unchanged h0) (bind m f) (λ _, True)) as Hrest
  end; [|by apply Hrest].
  eapply hoare_bind; [apply look_any|]. intros nonempty _.
  eapply hoare_bind with (Q := λ _, True); [|intros; by apply hoare_ret].
  destruct nonempty; [|by apply hoare_ret].
  eapply hoare_bind; [apply look_any|]. intros first _.
  apply (for_keys_of_hoare (unchanged h0)
           (copy_key depth first (VRef (length h0 + 2))) Merge.metadata_keys).
  intros k. apply copy_key_unchanged.
Qed.

End frame.

Lemma dump_unchanged h h' n v j :
  unchanged h h' → Store.dump n h v = Some j → Store.dump n h' v = Some j.
Proof.
  intros Hu. revert v j. induction n as [|n IH]; intros v j;
    destruct v as [| | | |l]; simpl; try done.
  destruct (h !! l) as [o|] eqn:Hl; [|done]. rewrite (Hu l o Hl).
  destruct o as [xs|kvs|]; [| |done].
  - destruct (mapM (Store.dump n h) xs) as [js|] eqn:E; [|done].
    intros [= <-]. apply mapM_Some in E.
    assert (mapM (Store.dump n h') xs = Some js) as ->; [|done].
    apply mapM_Some. eapply Forall2_impl; [done|]. auto.
  - destruct (mapM _ kvs) as [js|] eqn:E; [|done].
    intros [= <-]. apply mapM_Some in E.
    match goal with |- _ <$> ?m = _ => assert (m = Some js) as ->; [|done] end.
    apply mapM_Some. eapply Forall2_impl; [done|]. intros [k x] y. simpl.
    destruct (Store.dump n h x) as [jx|] eqn:Ex; [|done].
    by rewrite (IH _ _ Ex).
Qed.

(** C10.  A call of [merge_manifests], whatever it is given and however
    it ends, leaves every object that existed before the call as it was: the
    list of manifests, each manifest, its [apps] and [news] lists and
    everything below them.  Hence every document that could be read from a
    value before the call is read unchanged after it. *)
Theorem C10_inputs_unchanged fuel depth manifests name h :
  let h' := (Store.merge_manifests fuel depth manifests name h).2 in
  (∀ l o, h !! l = Some o → h' !! l = Some o) ∧
  (∀ n v j, Store.dump n h v = Some j → Store.dump n h' v = Some j).
Proof.
  pose proof (merge_manifests_unchanged h fuel depth manifests name) as Hu.
  split; [exact Hu|]. intros n v j. by apply dump_unchanged.
Qed.

(** ** The merge on the heap computes the merge on trees *)

Section refinement.

Lemma repr_unchanged h h' v j : unchanged h h' → repr h v j → repr h' v j.
Proof.
  intros Hu. revert v. induction j as [|b|z|s|js IH|jkvs IH] using json_ind;
    intros v Hv; inversion Hv as [| | | |l vs js' Hl HF|l kvs jkvs' Hl HF];
    subst; try constructor.
  - apply repr_list with vs; [by apply Hu|]. clear Hl Hv.
    induction HF as [|x jx vs js Hx HF IHF]; constructor.
    + apply Forall_cons in IH as [IHx _]. auto.
    + apply Forall_cons in IH as [_ IHl]. auto.
  - apply repr_dict with kvs; [by apply Hu|]. clear Hl Hv.
    induction HF as [|x jx vs js Hx HF IHF]; constructor.
    + apply Forall_cons in IH as [IHx _]. destruct Hx. auto.
    + apply Forall_cons in IH as [_ IHl]. auto.
Qed.

Lemma repr_fun h v j j' : repr h v j → repr h v j' → j = j'.
Proof.
  revert v j'. induction j as [|b|z|s|js IH|jkvs IH] using json_ind;
    intros v j' Hv Hv'; inversion Hv as [| | | |l vs js' Hl HF|l kvs jkvs' Hl HF];
    subst; inversion Hv' as [| | | |l' vs' js'' Hl' HF'|l' kvs' jkvs'' Hl' HF'];
    subst; try done; try congruence.
  - assert (vs' = vs) as -> by congruence. f_equal. clear Hl Hl' Hv Hv'.
    revert js'' HF'. induction HF as [|x jx vs js Hx HF IHF];
      intros js'' HF'; inversion HF'; subst; [done|].
    apply Forall_cons in IH as [IHx IHl]. f_equal; eauto.
  - assert (kvs' = kvs) as -> by congruence. f_equal. clear Hl Hl' Hv Hv'.
    revert jkvs'' HF'. induction HF as [|x jx vs js Hx HF IHF];
      intros js'' HF'; inversion HF' as [|? jx' ? ? Hx' ?]; subst; [done|].
    apply Forall_cons in IH as [IHx IHl]. destruct Hx, Hx'.
    f_equal; [|eauto]. destruct jx, jx'; simpl in *. f_equal; [congruence|].
    eauto.
Qed.

Lemma repr_truthy h v j : repr h v j → Store.truthy h v = truthy j.
Proof.
  intros Hv; inversion Hv as [| | | |l vs js' Hl HF|l kvs jkvs' Hl HF];
    subst; simpl; try done; rewrite Hl; by destruct HF.
Qed.

Lemma repr_hashable h v j : repr h v j → Store.hashable h v = hashable j.
Proof.
  intros Hv; inversion Hv as [| | | |l vs js' Hl HF|l kvs jkvs' Hl HF];
    subst; simpl; try done; by rewrite Hl.
Qed.

Lemma json_size_elem x xs :
  x ∈ xs → (json_size x ≤ list_sum (map json_size xs))%nat.
Proof.
  induction xs as [|y xs IH]; intros Hx; [by apply elem_of_nil in Hx|].
  simpl. apply elem_of_cons in Hx as [-> |Hx]; [lia|]. apply IH in Hx. lia.
Qed.

Lemma json_size_pos j : (1 ≤ json_size j)%nat.
Proof. destruct j; simpl; lia. Qed.

Lemma json_depth_pos j : (1 ≤ json_depth j)%nat.
Proof. destruct j; simpl; lia. Qed.

Lemma json_depth_elem x xs :
  x ∈ xs → (json_depth x ≤ max_list (map json_depth xs))%nat.
Proof.
  intros Hx. apply max_list_elem_of_le, list_elem_of_fmap. by exists x.
Qed.

Lemma json_depth_value k x (d : dict) :
  (k, x) ∈ d →
  (json_depth x ≤ max_list (map (λ kv, json_depth (snd kv)) d))%nat.
Proof.
  intros Hx. apply max_list_elem_of_le, list_elem_of_fmap. by exists (k, x).
Qed.

Lemma max_list_le_sum (l : list nat) : (max_list l ≤ list_sum l)%nat.
Proof. induction l as [|n l IH]; simpl; lia. Qed.

Lemma max_list_mono {A} (f g : A → nat) (l : list A) :
  Forall (λ x, f x ≤ g x)%nat l →
  (max_list (map f l) ≤ max_list (map g l))%nat.
Proof. induction 1 as [|x l Hx _ IH]; simpl; lia. Qed.

(** A document is nested no deeper than it has values. *)
Lemma json_depth_le_size j : (json_depth j ≤ json_size j)%nat.
Proof.
  induction j as [|x|x|s|js IH|jd IH] using json_ind; simpl; try lia.
  - pose proof (max_list_mono json_depth json_size js IH).
    pose proof (max_list_le_sum (map json_size js)). lia.
  - pose proof (max_list_mono (λ kv, json_depth (snd kv))
                  (λ kv, json_size (snd kv)) jd IH).
    pose proof (max_list_le_sum (map (λ kv, json_size (snd kv)) jd)). lia.
Qed.

Lemma dict_get_repr h k kvs jkvs :
  Forall2 (λ kv jkv, fst kv = fst jkv ∧ repr h (snd kv) (snd jkv)) kvs jkvs →
  match dict_get k kvs, dict_get k jkvs with
  | Some v, Some jv => repr h v jv
  | None, None => True
  | _, _ => False
  end.
Proof.
  induction 1 as [|[k1 v] [k2 jv] kvs jkvs [Hk Hv] HF IH]; [done|].
  simpl in *. subst k2. by destruct (String.eqb k k1).
Qed.

Lemma dict_in_repr h k kvs jkvs :
  Forall2 (λ kv jkv, fst kv = fst jkv ∧ repr h (snd kv) (snd jkv)) kvs jkvs →
  dict_in k kvs = dict_in k jkvs.
Proof.
  intros HF. pose proof (dict_get_repr h k kvs jkvs HF) as H.
  unfold dict_in. by destruct (dict_get k kvs), (dict_get k jkvs).
Qed.

(** The comparison on the heap is the comparison of the documents, when the
    left one is nested no deeper than the recursion limit. *)
Lemma py_eq_repr h depth a b ja jb :
  repr h a ja → repr h b jb → json_wf ja = true →
  (json_depth ja ≤ depth)%nat →
  Store.py_eq depth h a b = Ok (py_eq ja jb).
Proof.
  revert depth a b jb.
  induction ja as [|x|x|s|js IH|jd IH] using json_ind;
    intros depth a b jb Ha Hb Hwf Hsize;
    (destruct depth as [|d]; [simpl in Hsize; lia|]);
    inversion Ha as [| | | |la vs js1 Hla HFa|la kvs jd1 Hla HFa]; subst;
    inversion Hb as [| | | |lb vs' js' Hlb HFb|lb kvs' jd' Hlb HFb]; subst;
    cbn [Store.py_eq Store.identical]; try done.
  - (* two lists *)
    destruct (la =? lb)%nat eqn:E.
    { apply Nat.eqb_eq in E as ->. rewrite (repr_fun _ _ _ _ Hb Ha).
      by rewrite py_eq_refl. }
    rewrite Hla, Hlb. clear E Hla Hlb Ha Hb.
    rewrite json_wf_list in Hwf. simpl in Hsize.
    assert (Forall (λ jx, ∀ x y jy, repr h x jx → repr h y jy →
              Store.py_eq d h x y = Ok (py_eq jx jy)) js) as Helem.
    { rewrite Forall_forall in IH. apply Forall_forall. intros jx Hjx x y jy ??.
      apply IH; auto. pose proof (json_depth_elem jx js Hjx). lia. }
    clear IH Hwf Hsize. revert vs' js' HFb.
    induction HFa as [|x jx vs js Hx HFa IHa]; intros vs' js' HFb;
      destruct HFb as [|y jy vs' js' Hy HFb]; try done.
    apply Forall_cons in Helem as [Hx' Helem]. specialize (IHa Helem _ _ HFb).
    rewrite py_eq_list_cons. cbn [length Nat.eqb Store.all2_ok].
    destruct (length vs =? length vs')%nat.
    + rewrite (Hx' x y jy) by done. cbn [bind].
      destruct (py_eq jx jy); [done|done].
    + assert (py_eq (JList js) (JList js') = false) as -> by congruence.
      by rewrite andb_false_r.
  - (* a list and a dictionary *)
    destruct (la =? lb)%nat eqn:E.
    { apply Nat.eqb_eq in E as ->. congruence. }
    by rewrite Hla, Hlb.
  - (* a dictionary and a list *)
    destruct (la =? lb)%nat eqn:E.
    { apply Nat.eqb_eq in E as ->. congruence. }
    by rewrite Hla, Hlb.
  - (* two dictionaries *)
    destruct (la =? lb)%nat eqn:E.
    { apply Nat.eqb_eq in E as ->. rewrite (repr_fun _ _ _ _ Hb Ha).
      by rewrite py_eq_refl. }
    rewrite Hla, Hlb. clear E Hla Hlb Ha Hb.
    rewrite py_eq_dict_unfold.
    rewrite (Forall2_length _ _ _ HFa), (Forall2_length _ _ _ HFb).
    destruct (length jd =? length jd')%nat; [|done]. cbn [andb].
    apply json_wf_dict in Hwf as [_ Hwf]. simpl in Hsize.
    assert (Forall (λ jkv, ∀ x y jy, repr h x (snd jkv) → repr h y jy →
              Store.py_eq d h x y = Ok (py_eq (snd jkv) jy)) jd) as Helem.
    { rewrite Forall_forall in IH. apply Forall_forall.
      intros [k jx] Hjx x y jy ??. apply IH; auto.
      - by apply (Hwf k).
      - simpl. pose proof (json_depth_value k jx jd Hjx). lia. }
    clear IH Hwf Hsize.
    induction HFa as [|[k x] [k' jx] kvs jd [Hk Hx] HFa IHa]; [done|].
    apply Forall_cons in Helem as [Hx' Helem]. specialize (IHa Helem).
    simpl in Hk, Hx, Hx'. subst k'. cbn [Store.all_ok forallb fst snd].
    pose proof (dict_get_repr h k kvs' jd' HFb) as Hget.
    destruct (dict_get k kvs') as [w|], (dict_get k jd') as [jw|]; try done.
    rewrite (Hx' x w jw) by done. cbn [bind].
    destruct (py_eq jx jw); [done|done].
Qed.

End refinement.

Section simulation.

Lemma bind_look {A B} (f : Store.heap → result A) (k : A → Store.M B) h :
  Store.bind (Store.look f) k h =
  match f h with Ok a => k a h | Raise e => (Store.Raised e, h) end.
Proof. unfold Store.bind, Store.look. by destruct (f h). Qed.

Lemma bind_alloc {B} o (k : Store.val → Store.M B) h :
  Store.bind (Store.alloc o) k h = k (Store.VRef (length h)) (h ++ [o]).
Proof. reflexivity. Qed.

Lemma bind_done {A B} (m : Store.M A) (k : A → Store.M B) h a h' :
  m h = (Store.Done a, h') → Store.bind m k h = k a h'.
Proof. unfold Store.bind. by intros ->. Qed.

Lemma bind_raised {A B} (m : Store.M A) (k : A → Store.M B) h e h' :
  m h = (Store.Raised e, h') → Store.bind m k h = (Store.Raised e, h').
Proof. unfold Store.bind. by intros ->. Qed.

Lemma bind_ret {A B} (a : A) (k : A → Store.M B) h :
  Store.bind (Store.ret a) k h = k a h.
Proof. reflexivity. Qed.

Lemma bind_assoc {A B C} (m : Store.M A) (f : A → Store.M B)
    (g : B → Store.M C) h :
  Store.bind (Store.bind m f) g h =
  Store.bind m (λ a, Store.bind (f a) g) h.
Proof. unfold Store.bind. by destruct (m h) as [[]]. Qed.

Lemma py_get_repr h app japp k d jd :
  repr h app japp → repr h d jd →
  agree (repr h) (Store.py_get h app k d) (py_get japp k jd).
Proof.
  intros Ha Hd. inversion Ha as [| | | |l vs js Hl HF|l kvs jkvs Hl HF]; subst;
    simpl; try done; rewrite Hl; [done|]. simpl.
  pose proof (dict_get_repr h k kvs jkvs HF) as Hget.
  by destruct (dict_get k kvs), (dict_get k jkvs).
Qed.

Lemma any_ok_repr h depth vs js x jx :
  Forall2 (repr h) vs js →
  Forall (λ j, json_wf j = true ∧ (json_depth j ≤ depth)%nat) js →
  repr h x jx →
  Store.any_ok (λ y, Store.py_eq depth h y x) vs =
  Ok (existsb (λ y, py_eq y jx) js).
Proof.
  intros HF Hjs Hx. induction HF as [|y jy vs js Hy HF IH]; [done|].
  apply Forall_cons in Hjs as [[Hwf Hsize] Hjs]. simpl.
  rewrite (py_eq_repr h depth y x jy jx) by done. cbn [bind].
  destruct (py_eq jy jx); [done|]. by apply IH.
Qed.

(** *** Loops *)

Section loops.
Context {St : Type} (R : St → Store.heap → Prop).
Context (pbody : json → St → result St) (body : Store.val → Store.M ()).

Local Abbreviation step := (step R pbody body).

Lemma sim_for_values xs js s h :
  Forall2 step xs js → R s h →
  simulates R (for_each pbody js s) (Store.for_values body xs h).
Proof.
  intros HF. revert s h. induction HF as [|x jx xs js Hx HF IH];
    intros s h Hsh; [done|].
  cbn [for_each Store.for_values]. specialize (Hx s h Hsh).
  unfold Store.bind. destruct (pbody jx s) as [s'|e],
    (body x h) as [[[]|e'|] h']; simpl in *; try done. by apply IH.
Qed.

Lemma drop_lookup_head {A} (l : list A) i :
  l !! i = head (drop i l).
Proof.
  rewrite <- (Nat.add_0_r i) at 1. rewrite <- lookup_drop.
  by destruct (drop i l).
Qed.

Lemma drop_tail {A} (l : list A) i x rest :
  drop i l = x :: rest → drop (S i) l = rest.
Proof.
  intros H. replace (S i) with (i + 1)%nat by lia.
  by rewrite <- drop_drop, H.
Qed.

Lemma sim_for_list l vs fuel js i s h :
  (∀ s h, R s h → h !! l = Some (Store.OList vs)) →
  Forall2 step (drop i vs) js → (length js < fuel)%nat → R s h →
  simulates R (for_each pbody js s) (Store.for_list fuel body l i h).
Proof.
  intros Hl. revert fuel i s h. induction js as [|jx js IH];
    intros fuel i s h HF Hfuel Hsh;
    (destruct fuel as [|fuel]; [simpl in *; lia|]);
    cbn [Store.for_list for_each]; rewrite (Hl s h Hsh),
      drop_lookup_head;
    inversion HF as [|x jx' rest js' Hx HF' Hdrop]; subst; cbn [head].
  - done.
  - symmetry in Hdrop. specialize (Hx s h Hsh). unfold Store.bind.
    destruct (pbody jx s) as [s'|e], (body x h) as [[[]|e'|] h'];
      simpl in *; try done.
    apply IH; [|lia|done]. by rewrite (drop_tail _ _ _ _ Hdrop).
Qed.

Lemma sim_for_keys l keys fuel js i s h :
  (∀ s h, R s h →
     match h !! l with
     | Some (Store.ODict kvs) => map (λ kv, Store.VStr (fst kv)) kvs
     | Some (Store.OSet xs) => xs
     | _ => []
     end = keys) →
  Forall2 step (drop i keys) js → (length js < fuel)%nat → R s h →
  simulates R (for_each pbody js s)
    (Store.for_keys fuel body l (length keys) i h).
Proof.
  intros Hl. revert fuel i s h. induction js as [|jx js IH];
    intros fuel i s h HF Hfuel Hsh;
    (destruct fuel as [|fuel]; [simpl in *; lia|]);
    cbn [Store.for_keys for_each]; rewrite (Hl s h Hsh), Nat.eqb_refl;
    cbn [negb]; rewrite drop_lookup_head;
    inversion HF as [|x jx' rest js' Hx HF' Hdrop]; subst; cbn [head].
  - done.
  - symmetry in Hdrop. specialize (Hx s h Hsh). unfold Store.bind.
    destruct (pbody jx s) as [s'|e], (body x h) as [[[]|e'|] h'];
      simpl in *; try done.
    apply IH; [|lia|done]. by rewrite (drop_tail _ _ _ _ Hdrop).
Qed.

Lemma Forall2_elem_of_r {A B} (P : A → B → Prop) xs ys :
  Forall2 P xs ys → Forall2 (λ x y, P x y ∧ y ∈ ys) xs ys.
Proof.
  induction 1 as [|x y xs ys Hxy HF IH]; constructor.
  - split; [done|left].
  - eapply Forall2_impl; [exact IH|]. intros ?? [??]. split; [done|by right].
Qed.

Lemma length_le_size js : (length js ≤ list_sum (map json_size js))%nat.
Proof.
  induction js as [|j js IH]; simpl; [lia|].
  pose proof (json_size_pos j). lia.
Qed.

Lemma sim_for_in h0 fuel v jv s h :
  (∀ s h, R s h → unchanged h0 h) →
  repr h0 v jv →
  (∀ js x jx, py_iter jv = Ok js → jx ∈ js → repr h0 x jx → step x jx) →
  (json_size jv ≤ fuel)%nat →
  R s h →
  simulates R (let* js := py_iter jv in for_each pbody js s)
    (Store.for_in fuel v body h).
Proof.
  intros Hu Hv Hstep Hfuel Hsh.
  inversion Hv as [| | |str|l vs js Hl HF|l kvs jkvs Hl HF]; subst;
    cbn [py_iter bind Store.for_in]; try done.
  - apply sim_for_values; [|done].
    assert (∀ t, (∀ jx, jx ∈ chars t → jx ∈ chars str) →
                 Forall2 step (Store.chars t) (chars t)) as Hchars.
    { induction t as [|c t IH]; intros Hsub; constructor.
      - eapply Hstep; [done|apply Hsub; left|constructor].
      - apply IH. intros jx Hjx. apply Hsub. by right. }
    by apply Hchars.
  - rewrite (Hu s h Hsh l _ Hl).
    apply sim_for_list with vs; [| |simpl in Hfuel|done].
    + intros s' h' Hsh'. by apply (Hu s' h' Hsh').
    + rewrite drop_0. apply Forall2_elem_of_r in HF.
      eapply Forall2_impl; [exact HF|]. intros x jx [Hx Hin]. by eapply Hstep.
    + pose proof (length_le_size js). lia.
  - rewrite (Hu s h Hsh l _ Hl).
    rewrite <- (length_map (λ kv, Store.VStr (fst kv)) kvs).
    apply sim_for_keys; [| |simpl in Hfuel|done].
    + intros s' h' Hsh'. by rewrite (Hu s' h' Hsh' l _ Hl).
    + rewrite drop_0. apply Forall2_fmap.
      assert (∀ k kv, Forall2 (λ kv jkv, fst kv = fst jkv ∧
                                 repr h0 (snd kv) (snd jkv)) k kv →
                (∀ x, x ∈ kv → x ∈ jkvs) →
                Forall2 (λ kv jkv, step (Store.VStr (fst kv)) (JStr (fst jkv)))
                  k kv) as Hkeys.
      { induction 1 as [|kv jkv k kv' [Hk _] HF' IH]; intros Hsub;
          constructor.
        - rewrite Hk. eapply Hstep; [done| |constructor].
          apply list_elem_of_fmap. exists jkv. split; [done|]. apply Hsub. left.
        - apply IH. intros x Hx. apply Hsub. by right. }
      by apply Hkeys.
    + rewrite length_map.
      assert (length jkvs ≤ list_sum (map (λ kv, json_size (snd kv)) jkvs))%nat.
      { clear. induction jkvs as [|[k j] l IH]; simpl; [lia|].
        pose proof (json_size_pos j). lia. }
      lia.
Qed.

End loops.

Section bodies.
Context (h0 : Store.heap) (name : string) (bound : nat).

Lemma holds_unchanged st h : holds h0 name bound st h → unchanged h0 h.
Proof. by intros [? _]. Qed.

Lemma holds_append_app st h va A N app japp :
  holds h0 name bound st h →
  h !! length h0 = Some (Store.OList va) →
  Merge.merged st = shape name A N →
  repr h0 app japp →
  holds h0 name bound
    {| Merge.merged := shape name (A ++ [japp]) N;
       Merge.seen_apps := Merge.seen_apps st |}
    (<[length h0 := Store.OList (va ++ [app])]> h).
Proof.
  intros (Hu & A' & N' & va' & vn & vs & Hm & Hla & HFa & Hln & HFn & Hnews
          & Hlm & Hls & HFs & Hhash) Hla' Hm' Happ.
  assert (va' = va) as -> by congruence.
  assert (A' = A ∧ N' = N) as [-> ->].
  { rewrite Hm in Hm'. unfold shape in Hm'. by injection Hm' as -> ->. }
  split; [by apply unchanged_insert|].
  exists (A ++ [japp]), N, (va ++ [app]), vn, vs. simpl.
  rewrite list_lookup_insert_eq by (by eapply lookup_lt_Some).
  rewrite !list_lookup_insert_ne by lia.
  repeat split; try done. apply Forall2_app; [done|]. by constructor.
Qed.

Lemma holds_append_news st h vn A N item jitem :
  holds h0 name bound st h →
  h !! S (length h0) = Some (Store.OList vn) →
  Merge.merged st = shape name A N →
  repr h0 item jitem →
  json_wf jitem = true → (json_depth jitem ≤ bound)%nat →
  holds h0 name bound
    {| Merge.merged := shape name A (N ++ [jitem]);
       Merge.seen_apps := Merge.seen_apps st |}
    (<[S (length h0) := Store.OList (vn ++ [item])]> h).
Proof.
  intros (Hu & A' & N' & va & vn' & vs & Hm & Hla & HFa & Hln & HFn & Hnews
          & Hlm & Hls & HFs & Hhash) Hln' Hm' Hitem Hwf Hsize.
  assert (vn' = vn) as -> by congruence.
  assert (A' = A ∧ N' = N) as [-> ->].
  { rewrite Hm in Hm'. unfold shape in Hm'. by injection Hm' as -> ->. }
  split; [apply unchanged_insert; [lia|done]|].
  exists A, (N ++ [jitem]), va, (vn ++ [item]), vs. simpl.
  rewrite list_lookup_insert_eq by (by eapply lookup_lt_Some).
  rewrite !list_lookup_insert_ne by lia.
  repeat split; try done.
  - apply Forall2_app; [done|]. by constructor.
  - apply Forall_app. split; [done|]. by constructor.
Qed.

Lemma holds_add_seen st h vs b jb :
  holds h0 name bound st h →
  h !! (length h0 + 3)%nat = Some (Store.OSet vs) →
  repr h0 b jb → hashable jb = true →
  holds h0 name bound
    {| Merge.merged := Merge.merged st;
       Merge.seen_apps := Merge.seen_apps st ++ [jb] |}
    (<[(length h0 + 3)%nat := Store.OSet (vs ++ [b])]> h).
Proof.
  intros (Hu & A & N & va & vn & vs' & Hm & Hla & HFa & Hln & HFn & Hnews
          & Hlm & Hls & HFs & Hhash) Hls' Hb Hh.
  assert (vs' = vs) as -> by congruence.
  split; [apply unchanged_insert; [lia|done]|].
  exists A, N, va, vn, (vs ++ [b]). simpl.
  rewrite list_lookup_insert_eq by (by eapply lookup_lt_Some).
  rewrite !list_lookup_insert_ne by lia.
  repeat split; try done.
  - apply Forall2_app; [done|]. by constructor.
  - apply Forall_app. split; [done|]. by constructor.
Qed.

Lemma py_get_unchanged h app japp k d :
  unchanged h0 h → repr h0 app japp →
  Store.py_get h app k d = Store.py_get h0 app k d.
Proof.
  intros Hu Ha. inversion Ha as [| | | |l vs js Hl HF|l kvs jkvs Hl HF];
    subst; simpl; try done; by rewrite Hl, (Hu _ _ Hl).
Qed.

Lemma hashable_wf_size j depth :
  hashable j = true → (1 ≤ depth)%nat →
  json_wf j = true ∧ (json_depth j ≤ depth)%nat.
Proof. by destruct j. Qed.

Lemma sim_merge_app depth app japp st h :
  repr h0 app japp → (1 ≤ depth)%nat →
  holds h0 name bound st h →
  simulates (holds h0 name bound) (Merge.merge_app japp st)
    (Store.merge_app depth (Store.VRef (length h0 + 2))
       (Store.VRef (length h0 + 3)) app h).
Proof.
  intros Happ Hdepth Hst. pose proof Hst as (Hu & A & N & va & vn & vs & Hm
    & Hla & HFa & Hln & HFn & Hnews & Hlm & Hls & HFs & Hhash).
  unfold Merge.merge_app, Store.merge_app. rewrite bind_look.
  rewrite (py_get_unchanged h app japp) by done.
  pose proof (py_get_repr h0 app japp "bundleIdentifier" (Store.VStr "")
                (JStr "") Happ (repr_str _ _)) as Hget.
  destruct (Store.py_get h0 app _ _) as [b|e],
    (py_get japp _ _) as [jb|e']; simpl in Hget; try done. cbn [bind].
  rewrite bind_look. cbn iota beta.
  assert (repr h b jb) as Hb by exact (repr_unchanged h0 h b jb Hu Hget).
  rewrite (repr_truthy h b jb Hb).
  assert (Store.py_getitem h (Store.VRef (length h0 + 2)) "apps"
          = Ok (Store.VRef (length h0))) as Hgetapps.
  { unfold Store.py_getitem. by rewrite Hlm. }
  assert (append_at "apps" japp (Merge.merged st)
          = Ok (shape name (A ++ [japp]) N)) as Happend.
  { by rewrite Hm. }
  assert (Store.py_append (Store.VRef (length h0)) app h =
          (Store.Done (), <[length h0 := Store.OList (va ++ [app])]> h))
    as Hstore.
  { unfold Store.py_append. by rewrite Hla. }
  destruct (truthy jb) eqn:Ht.
  - rewrite bind_assoc, bind_look. unfold set_contains, Store.py_in.
    rewrite Hls, (repr_hashable h b jb Hb).
    destruct (hashable jb) eqn:Hh; [|done].
    rewrite (any_ok_repr h depth vs (Merge.seen_apps st) b jb); [| | |done].
    2:{ eapply Forall2_impl; [exact HFs|]. intros x jx Hx.
        exact (repr_unchanged h0 h x jx Hu Hx). }
    2:{ eapply Forall_impl; [exact Hhash|]. intros j Hj.
        by apply hashable_wf_size. }
    cbn [bind]. rewrite bind_ret.
    destruct (existsb _ (Merge.seen_apps st)) eqn:Hs; cbn [negb].
    + done.
    + rewrite bind_look, Hgetapps, Happend. cbn [bind].
      unfold Store.bind at 1. rewrite Hstore.
      set (h1 := <[length h0 := _]> h).
      assert (holds h0 name bound
                {| Merge.merged := shape name (A ++ [japp]) N;
                   Merge.seen_apps := Merge.seen_apps st |} h1) as H1.
      { by apply holds_append_app. }
      assert (h1 !! (length h0 + 3)%nat = Some (Store.OSet vs)) as Hls1.
      { unfold h1. by rewrite list_lookup_insert_ne by lia. }
      assert (repr h1 b jb) as Hb1.
      { exact (repr_unchanged h0 h1 b jb (holds_unchanged _ _ H1) Hget). }
      unfold Store.py_add. rewrite Hls1, (repr_hashable h1 b jb Hb1), Hh.
      rewrite (any_ok_repr h1 depth vs (Merge.seen_apps st) b jb);
        [| | |done].
      2:{ eapply Forall2_impl; [exact HFs|]. intros x jx Hx.
          exact (repr_unchanged h0 h1 x jx (holds_unchanged _ _ H1) Hx). }
      2:{ eapply Forall_impl; [exact Hhash|]. intros j Hj.
          by apply hashable_wf_size. }
      rewrite Hs. unfold set_add. rewrite Hs. simpl.
      by apply (holds_add_seen _ _ _ _ _ H1).
  - rewrite bind_ret. cbn [negb bind]. rewrite bind_look, Hgetapps, Happend.
    cbn [bind]. rewrite Hstore. simpl. by apply holds_append_app.
Qed.

End bodies.

Section bodies2.
Context (h0 : Store.heap) (name : string) (bound : nat).

Lemma sim_merge_news_item depth item jitem st h :
  repr h0 item jitem → json_wf jitem = true → (json_depth jitem ≤ bound)%nat →
  (bound ≤ depth)%nat →
  holds h0 name bound st h →
  simulates (holds h0 name bound) (Merge.merge_news_item jitem st)
    (Store.merge_news_item depth (Store.VRef (length h0 + 2)) item h).
Proof.
  intros Hitem Hwf Hsize Hdepth Hst.
  pose proof Hst as (Hu & A & N & va & vn & vs & Hm
    & Hla & HFa & Hln & HFn & Hnews & Hlm & Hls & HFs & Hhash).
  unfold Merge.merge_news_item, Store.merge_news_item.
  assert (Store.py_getitem h (Store.VRef (length h0 + 2)) "news"
          = Ok (Store.VRef (S (length h0)))) as Hgetnews.
  { unfold Store.py_getitem. by rewrite Hlm. }
  rewrite bind_look, Hgetnews, Hm.
  change (dict_getitem "news" (shape name A N)) with (Ok (A:=json) (JList N)).
  cbn [bind py_in].
  rewrite bind_look. unfold Store.py_in. rewrite Hln.
  rewrite (any_ok_repr h depth vn N item jitem).
  2:{ eapply Forall2_impl; [exact HFn|]. intros x jx Hx.
      exact (repr_unchanged h0 h x jx Hu Hx). }
  2:{ eapply Forall_impl; [exact Hnews|]. intros j [??]. split; [done|lia]. }
  2:{ exact (repr_unchanged h0 h _ _ Hu Hitem). }
  cbn [bind]. destruct (existsb _ N); cbn [negb]; [done|].
  rewrite bind_look, Hgetnews.
  change (append_at "news" jitem (shape name A N))
    with (Ok (A:=dict) (shape name A (N ++ [jitem]))). cbn [bind].
  unfold Store.py_append. rewrite Hln. simpl.
  by apply holds_append_news.
Qed.

Lemma py_iter_elem jv js jx :
  py_iter jv = Ok js → jx ∈ js → json_wf jv = true →
  json_wf jx = true ∧ (json_depth jx ≤ json_depth jv)%nat.
Proof.
  destruct jv as [| | |s|xs|kvs]; simpl; try done; intros [= <-] Hin Hwf.
  - assert (∀ t, jx ∈ chars t → json_wf jx = true ∧ (json_depth jx ≤ 1)%nat)
      as Hc; [|by eapply Hc].
    induction t as [|c t IH]; simpl; intros Hc; [by apply elem_of_nil in Hc|].
    apply elem_of_cons in Hc as [-> |Hc]; [done|auto].
  - split.
    + rewrite forallb_forall in Hwf. by apply Hwf, list_elem_of_In.
    + pose proof (json_depth_elem jx xs Hin). lia.
  - apply list_elem_of_fmap in Hin as (kv & -> & _). simpl. split; [done|lia].
Qed.

Lemma dict_value_wf_size k v (d : dict) :
  dict_get k d = Some v → json_wf (JDict d) = true →
  json_wf v = true ∧ (json_size v ≤ json_size (JDict d))%nat ∧
  (json_depth v ≤ json_depth (JDict d))%nat.
Proof.
  intros Hget Hwf. apply dict_get_elem_of in Hget.
  apply json_wf_dict in Hwf as [_ Hwf]. split; [by eapply Hwf|]. split.
  - simpl. induction d as [|[k' v'] d IH]; [by apply elem_of_nil in Hget|].
    simpl. apply elem_of_cons in Hget as [[= <- <-]|Hget]; [lia|].
    apply IH in Hget; [lia|]. intros k0 v0 H0. eapply Hwf. by right.
  - simpl. pose proof (json_depth_value k v d Hget). lia.
Qed.

Lemma sim_bind {St} (R : St → Store.heap → Prop) (p1 : result St)
    (p2 : St → result St) (m1 m2 : Store.M ()) h :
  simulates R p1 (m1 h) →
  (∀ s' h', R s' h' → simulates R (p2 s') (m2 h')) →
  simulates R (bind p1 p2) (Store.bind m1 (λ _, m2) h).
Proof.
  intros H1 H2. unfold Store.bind.
  destruct p1 as [s'|e], (m1 h) as [[[]|e'|] h']; simpl in *; try done.
  by apply H2.
Qed.

Lemma sim_merge_manifest fuel depth mv m st h :
  repr h0 mv (JDict m) → json_wf (JDict m) = true →
  (json_depth (JDict m) ≤ bound)%nat →
  (bound ≤ depth)%nat → (json_size (JDict m) ≤ fuel)%nat →
  holds h0 name bound st h →
  simulates (holds h0 name bound) (Merge.merge_manifest m st)
    (Store.merge_manifest fuel depth (Store.VRef (length h0 + 2))
       (Store.VRef (length h0 + 3)) mv h).
Proof.
  intros Hmv Hwf Hsize Hdepth Hfuel Hst.
  inversion Hmv as [| | | | |l kvs jkvs Hl HF]; subst.
  assert (∀ h, unchanged h0 h → ∀ k,
    Store.py_in depth h (Store.VStr k) (Store.VRef l) = Ok (dict_in k m))
    as Hin.
  { intros h' Hu k. unfold Store.py_in. rewrite (Hu _ _ Hl). simpl.
    by rewrite (dict_in_repr h0 k kvs m HF). }
  assert (∀ h, unchanged h0 h → ∀ k jv, dict_get k m = Some jv →
    ∃ v, Store.py_getitem h (Store.VRef l) k = Ok v ∧ repr h0 v jv) as Hget.
  { intros h' Hu k jv Hk. unfold Store.py_getitem. rewrite (Hu _ _ Hl).
    pose proof (dict_get_repr h0 k kvs m HF) as H. rewrite Hk in H.
    destruct (dict_get k kvs) as [v|]; [|done]. by exists v. }
  pose proof (json_depth_pos (JDict m)) as Hpos.
  unfold Merge.merge_manifest, Store.merge_manifest.
  rewrite bind_look, (Hin h (holds_unchanged _ _ _ _ _ Hst)).
  apply sim_bind.
  - unfold dict_in, dict_getitem.
    destruct (dict_get "apps" m) as [japps|] eqn:Ea; [|done].
    destruct (Hget h (holds_unchanged _ _ _ _ _ Hst) _ _ Ea) as (av & Hav & Hra).
    rewrite bind_look, Hav. cbn [bind].
    destruct (dict_value_wf_size _ _ _ Ea Hwf) as (Hwfa & Hsizea & _).
    apply (sim_for_in (holds h0 name bound) Merge.merge_app
             (Store.merge_app depth _ _) h0); try done.
    + apply holds_unchanged.
    + intros js x jx Hjs Hjx Hx s' h' Hs'. apply sim_merge_app; [done|lia|done].
    + lia.
  - intros st1 h1 Hst1.
    rewrite bind_look, (Hin h1 (holds_unchanged _ _ _ _ _ Hst1)).
    unfold dict_in, dict_getitem.
    destruct (dict_get "news" m) as [jnews|] eqn:En; [|done].
    destruct (Hget h1 (holds_unchanged _ _ _ _ _ Hst1) _ _ En)
      as (nv & Hnv & Hrn).
    rewrite bind_look, Hnv. cbn [bind].
    destruct (dict_value_wf_size _ _ _ En Hwf) as (Hwfn & Hsizen & Hdeepn).
    apply (sim_for_in (holds h0 name bound) Merge.merge_news_item
             (Store.merge_news_item depth _) h0); try done.
    + apply holds_unchanged.
    + intros js x jx Hjs Hjx Hx s' h' Hs'.
      destruct (py_iter_elem _ _ _ Hjs Hjx Hwfn).
      apply sim_merge_news_item; try done. lia.
    + lia.
Qed.

End bodies2.

Section finish.
Context (h0 : Store.heap).

Lemma holds_finishing name bound st h apps news :
  holds h0 name bound st h → Merge.merged st = shape name apps news →
  finishing h0 apps news (shape name apps news) h.
Proof.
  intros (Hu & A & N & va & vn & vs & Hm & Hla & HFa & Hln & HFn & Hnews
          & Hlm & Hls & HFs & Hhash) Hm'.
  assert (A = apps ∧ N = news) as [-> ->].
  { rewrite Hm in Hm'. unfold shape in Hm'. by injection Hm' as -> ->. }
  split; [done|]. exists va, vn. eexists.
  do 4 (split; [done|]). split; [exact Hlm|]. unfold shape.
  do 3 (apply List.Forall2_cons; [split; [reflexivity|left; constructor]|]).
  apply List.Forall2_cons; [split; [reflexivity|right; left; done]|].
  apply List.Forall2_cons; [split; [reflexivity|right; right; done]|].
  constructor.
Qed.

Lemma finishing_repr apps news d h :
  finishing h0 apps news d h →
  repr h (Store.VRef (length h0 + 2)) (JDict d).
Proof.
  intros (Hu & va & vn & kvs & Hla & HFa & Hln & HFn & Hlm & HF).
  apply repr_dict with kvs; [done|].
  eapply Forall2_impl; [exact HF|]. intros kv jkv [Hk Hv]. split; [done|].
  destruct Hv as [Hv|[[-> ->]|[-> ->]]].
  - exact (repr_unchanged h0 h _ _ Hu Hv).
  - apply repr_list with va; [done|]. eapply Forall2_impl; [exact HFa|].
    intros x jx Hx. exact (repr_unchanged h0 h _ _ Hu Hx).
  - apply repr_list with vn; [done|]. eapply Forall2_impl; [exact HFn|].
    intros x jx Hx. exact (repr_unchanged h0 h _ _ Hu Hx).
Qed.

Lemma Forall2_dict_set {V W} (P : V → W → Prop) k v w
    (kvs : list (string * V)) (d : list (string * W)) :
  Forall2 (λ kv jkv, fst kv = fst jkv ∧ P (snd kv) (snd jkv)) kvs d →
  P v w →
  Forall2 (λ kv jkv, fst kv = fst jkv ∧ P (snd kv) (snd jkv))
    (dict_set k v kvs) (dict_set k w d).
Proof.
  intros HF Hvw. induction HF as [|[k1 v1] [k2 w1] kvs d [Hk Hv] HF IH];
    simpl in *.
  - by repeat constructor.
  - subst k2. destruct (String.eqb k k1); by constructor.
Qed.

Lemma sim_copy_key depth apps news fv first key d h :
  repr h0 fv (JDict first) →
  finishing h0 apps news d h →
  simulates (finishing h0 apps news) (Merge.copy_key first key d)
    (Store.copy_key depth fv (Store.VRef (length h0 + 2)) key h).
Proof.
  intros Hfv Hfin.
  pose proof Hfin as (Hu & va & vn & kvs & Hla & HFa & Hln & HFn & Hlm & HF).
  inversion Hfv as [| | | | |l fkvs jkvs Hl HFf]; subst.
  unfold Merge.copy_key, Store.copy_key. rewrite bind_look.
  unfold Store.py_in. rewrite (Hu _ _ Hl). simpl Store.hashable. cbn iota.
  rewrite (dict_in_repr h0 key fkvs first HFf). unfold dict_in, dict_getitem.
  pose proof (dict_get_repr h0 key fkvs first HFf) as Hget.
  destruct (dict_get key first) as [jv|] eqn:Ej; cbn [bind]; [|done].
  rewrite bind_look. unfold Store.py_getitem. rewrite (Hu _ _ Hl).
  destruct (dict_get key fkvs) as [v|]; [|done].
  unfold Store.py_setitem. rewrite Hlm. simpl.
  split; [apply unchanged_insert; [lia|done]|].
  exists va, vn, (dict_set key v kvs).
  rewrite list_lookup_insert_eq by (by eapply lookup_lt_Some).
  rewrite !list_lookup_insert_ne by lia.
  repeat split; try done.
  apply (Forall2_dict_set
           (λ v jv, repr h0 v jv ∨
                    (v = Store.VRef (length h0) ∧ jv = JList apps) ∨
                    (v = Store.VRef (S (length h0)) ∧ jv = JList news)));
    [done|by left].
Qed.

Lemma sim_for_keys_of {St} (R : St → Store.heap → Prop)
    (pbody : string → St → result St) (body : string → Store.M ()) keys s h :
  (∀ k s h, R s h → simulates R (pbody k s) (body k h)) →
  R s h →
  simulates R (for_each pbody keys s) (Store.for_keys_of body keys h).
Proof.
  intros Hstep. revert s h. induction keys as [|k keys IH]; intros s h Hsh;
    [done|].
  cbn [for_each Store.for_keys_of]. apply sim_bind; auto.
Qed.

Lemma for_each_manifests ms st :
  for_each (λ j s, match j with
                   | JDict m => Merge.merge_manifest m s
                   | _ => Raise TypeError
                   end) (map JDict ms) st =
  for_each Merge.merge_manifest ms st.
Proof.
  revert st. induction ms as [|m ms IH]; intros st; [done|]. simpl.
  destruct (Merge.merge_manifest m st); simpl; auto.
Qed.

(** The call on a heap that holds the documents [ms], which are nested no
    deeper than the recursion limit [depth] and have no more values than
    the loops have turns, follows the merge on trees to the end: when it
    returns, the result is the third object it made, and the heap is as
    [finishing] says for the [apps] and the [news] of the document. *)
Lemma merge_manifests_finishing ms name v fuel depth :
  repr h0 v (JList (map JDict ms)) →
  json_wf (JList (map JDict ms)) = true →
  (json_size (JList (map JDict ms)) ≤ fuel)%nat →
  (json_depth (JList (map JDict ms)) ≤ depth)%nat →
  match Merge.merge_manifests ms name,
        Store.merge_manifests fuel depth v name h0 with
  | Ok d, (Store.Done r, h') =>
      r = Store.VRef (length h0 + 2) ∧
      ∃ apps news, finishing h0 apps news d h' ∧
        dict_get "apps" d = Some (JList apps) ∧
        dict_get "news" d = Some (JList news)
  | Raise e, (Store.Raised e', _) => e = e'
  | _, _ => False
  end.
Proof.
  intros Hv Hwf Hfuel Hdepth.
  set (bound := json_depth (JList (map JDict ms))) in *.
  unfold Store.merge_manifests. rewrite bind_look.
  rewrite (repr_truthy h0 v _ Hv).
  destruct ms as [|m0 ms']; [done|]. cbn [map truthy negb].
  rewrite !bind_alloc, !length_app. cbn [length].
  replace (length h0 + 1 + 1)%nat with (length h0 + 2)%nat by lia.
  replace (length h0 + 2 + 1)%nat with (length h0 + 3)%nat by lia.
  replace (length h0 + 1)%nat with (S (length h0)) by lia.
  match goal with
  | |- context [Store.bind _ _ ?h] => set (h1 := h)
  end.
  assert (holds h0 name bound (Merge.initial name) h1) as H1.
  { split; [by do 4 apply unchanged_alloc; apply unchanged_refl|].
    exists [], [], [], [], []. unfold h1. rewrite <- !app_assoc. simpl.
    rewrite !lookup_app_r by lia.
    replace (length h0 - length h0)%nat with 0%nat by lia.
    replace (S (length h0) - length h0)%nat with 1%nat by lia.
    replace (length h0 + 2 - length h0)%nat with 2%nat by lia.
    replace (length h0 + 3 - length h0)%nat with 3%nat by lia.
    repeat split; done. }
  inversion Hv as [| | | |l vs js Hl HF|]; subst.
  apply Forall2_cons_inv_r in HF as (fv & vs' & Hfv & HF' & ->).
  change (Merge.merge_manifests (m0 :: ms') name) with
    (let* st := for_each Merge.merge_manifest (m0 :: ms') (Merge.initial name)
     in Merge.copy_metadata m0 (Merge.merged st)).
  (* the loop over the manifests *)
  match goal with
  | |- context [Store.bind ?m ?k h1] =>
      change (Store.bind m k h1) with
        (Store.bind
           (Store.for_in fuel (Store.VRef l)
              (Store.merge_manifest fuel depth
                 (Store.VRef (length h0 + 2)) (Store.VRef (length h0 + 3))))
           k h1)
  end.
  assert (simulates (holds h0 name bound)
            (for_each Merge.merge_manifest (m0 :: ms') (Merge.initial name))
            (Store.for_in fuel (Store.VRef l)
               (Store.merge_manifest fuel depth
                  (Store.VRef (length h0 + 2)) (Store.VRef (length h0 + 3)))
               h1)) as Hloop.
  { rewrite <- for_each_manifests.
    apply (sim_for_in (holds h0 name bound) _ _ h0 fuel (Store.VRef l)
             (JList (map JDict (m0 :: ms')))); try done.
    - apply holds_unchanged.
    - intros js x jx [= <-] Hjx Hx s h Hs.
      destruct (py_iter_elem (JList (map JDict (m0 :: ms'))) _ jx eq_refl
                  Hjx Hwf) as [Hwfx Hsizex].
      change (jx ∈ map JDict (m0 :: ms')) in Hjx.
      pose proof (json_size_elem jx _ Hjx) as Hsmall.
      change (json_size (JList (map JDict (m0 :: ms'))))
        with (S (list_sum (map json_size (map JDict (m0 :: ms'))))) in Hfuel.
      apply list_elem_of_fmap in Hjx as (m & -> & _).
      apply sim_merge_manifest; try done; lia. }
  destruct (for_each Merge.merge_manifest _ _) as [st|e],
    (Store.for_in _ _ _ h1) as [[[]|e'|] h2] eqn:Efor; simpl in Hloop;
    try done.
  2:{ by rewrite (bind_raised _ _ _ _ _ Efor). }
  rewrite (bind_done _ _ _ _ _ Efor). cbn [bind]. rewrite bind_look.
  pose proof Hloop as (Hu2 & A & N & va & vn & vs & Hm & _).
  rewrite (repr_truthy h2 _ _ (repr_unchanged h0 h2 _ _ Hu2 Hv)).
  cbn [truthy map]. rewrite bind_assoc, bind_look.
  unfold Store.py_first. rewrite (Hu2 _ _ Hl). cbn iota.
  assert (simulates (finishing h0 A N)
            (for_each (Merge.copy_key m0) Merge.metadata_keys (Merge.merged st))
            (Store.for_keys_of
               (Store.copy_key depth fv (Store.VRef (length h0 + 2)))
               Merge.metadata_keys h2)) as Hfin.
  { apply sim_for_keys_of.
    - intros. by apply sim_copy_key.
    - rewrite Hm. by eapply holds_finishing. }
  unfold Merge.copy_metadata.
  destruct (for_each (Merge.copy_key m0) _ _) as [d|e] eqn:Ed,
    (Store.for_keys_of _ _ h2) as [[[]|e'|] h3] eqn:Efin; simpl in Hfin;
    try done.
  - rewrite (bind_done _ _ _ _ _ Efin). simpl. split; [done|].
    exists A, N. split; [done|].
    change (Merge.copy_metadata m0 (Merge.merged st) = Ok d) in Ed.
    rewrite copy_metadata_fun, Hm in Ed. injection Ed as <-.
    by rewrite result_apps, result_news.
  - by rewrite (bind_raised _ _ _ _ _ Efin).
Qed.

(** The merge on the heap, run on a heap that holds the documents [ms] with
    bounds above their size, ends as the merge on trees does: it returns a
    reference to the document the latter returns, or raises the same
    exception. *)
Theorem store_refines_merge ms name v fuel depth :
  repr h0 v (JList (map JDict ms)) →
  json_wf (JList (map JDict ms)) = true →
  (json_size (JList (map JDict ms)) ≤ fuel)%nat →
  (json_size (JList (map JDict ms)) ≤ depth)%nat →
  match Merge.merge_manifests ms name,
        Store.merge_manifests fuel depth v name h0 with
  | Ok d, (Store.Done r, h') => repr h' r (JDict d)
  | Raise e, (Store.Raised e', _) => e = e'
  | _, _ => False
  end.
Proof.
  intros Hv Hwf Hfuel Hdepth.
  pose proof (json_depth_le_size (JList (map JDict ms))) as Hdeep.
  pose proof (merge_manifests_finishing ms name v fuel depth
                Hv Hwf Hfuel ltac:(lia)) as H.
  destruct (Merge.merge_manifests ms name) as [d|e],
    (Store.merge_manifests fuel depth v name h0) as [[r|e'|] h']; try done.
  destruct H as (-> & apps & news & Hfin & _). by eapply finishing_repr.
Qed.

End finish.

End simulation.

Lemma dump_repr n h v j : Store.dump n h v = Some j → repr h v j.
Proof.
  revert v j. induction n as [|n IH]; intros v j;
    destruct v as [| | | |l]; simpl; try done;
    try (intros [= <-]; constructor).
  destruct (h !! l) as [[xs|kvs|]|] eqn:Hl; try done.
  - destruct (mapM (Store.dump n h) xs) as [js|] eqn:E; [|done].
    intros [= <-]. apply mapM_Some in E. apply repr_list with xs; [done|].
    eapply Forall2_impl; [exact E|]. auto.
  - destruct (mapM _ kvs) as [js|] eqn:E; [|done].
    intros [= <-]. apply mapM_Some in E. apply repr_dict with kvs; [done|].
    eapply Forall2_impl; [exact E|]. intros [k x] [k' jx]. simpl.
    destruct (Store.dump n h x) as [jx'|] eqn:Ex; [|done].
    intros [= <- <-]. auto.
Qed.

(** ** The exceptions of the merge *)

Lemma for_each_ext {A S} (f g : A → S → result S) xs s :
  (∀ x s, x ∈ xs → f x s = g x s) → for_each f xs s = for_each g xs s.
Proof.
  revert s. induction xs as [|x xs IH]; intros s H; [done|]. simpl.
  rewrite H by left. destruct (g x s); simpl; [|done].
  apply IH. intros. apply H. by right.
Qed.

Lemma for_each_map {A B S} (f : A → B) (body : B → S → result S) xs s :
  for_each body (map f xs) s = for_each (λ x, body (f x)) xs s.
Proof.
  revert s. induction xs as [|x xs IH]; intros s; [done|]. simpl.
  destruct (body (f x) s); simpl; auto.
Qed.

(** On an object the statements of [Script] are those of [Merge]. *)
Lemma script_merge_manifest_dict m st :
  Script.merge_manifest (JDict m) st = Merge.merge_manifest m st.
Proof.
  unfold Script.merge_manifest, Merge.merge_manifest. cbn [py_in bind py_getitem].
  destruct (dict_in "apps" m); cbn [bind].
  - destruct (let* apps := dict_getitem "apps" m in _) as [st1|e]; [|done].
    cbn [bind]. by destruct (dict_in "news" m).
  - by destruct (dict_in "news" m).
Qed.

Lemma script_copy_key_dict first key m :
  Script.copy_key (JDict first) key m = Merge.copy_key first key m.
Proof. done. Qed.

Lemma script_merge_manifests_dicts ms name :
  Script.merge_manifests (map JDict ms) name = Merge.merge_manifests ms name.
Proof.
  destruct ms as [|first rest]; [done|].
  unfold Script.merge_manifests, Merge.merge_manifests.
  cbn [map]. rewrite <- (map_cons JDict first rest), for_each_map.
  rewrite (for_each_ext _ Merge.merge_manifest)
    by (intros; apply script_merge_manifest_dict).
  done.
Qed.

Lemma py_in_raises x v e : py_in x v = Raise e → e = TypeError.
Proof. destruct v, x; simpl; congruence. Qed.

Lemma py_iter_raises v e : py_iter v = Raise e → e = TypeError.
Proof. destruct v; simpl; congruence. Qed.

(** A key that is [in] a value can be read, or the value is not an object
    and the subscript is a [TypeError]. *)
Lemma py_getitem_after_in k v :
  py_in (JStr k) v = Ok true →
  match py_getitem v k with
  | Ok w => ∃ d, v = JDict d ∧ dict_get k d = Some w
  | Raise e => e = TypeError ∧ ∀ d, v ≠ JDict d
  end.
Proof.
  destruct v as [| | | | |d]; simpl; try done;
    try (intros _; split; [done|congruence]).
  unfold dict_in, dict_getitem. destruct (dict_get k d) as [w|] eqn:E; [|done].
  intros _. by exists d.
Qed.

Lemma merge_app_raises app n A N seen e :
  Merge.merge_app app (Merge.State (shape n A N) seen) = Raise e →
  e = TypeError ∨ e = AttributeError.
Proof.
  unfold Merge.merge_app.
  destruct (py_get app "bundleIdentifier" (JStr "")) as [b|e'] eqn:Eg.
  2:{ destruct app; simpl in Eg; try done; injection Eg as <-.
      all: cbn [bind]; intros [= <-]; auto. }
  cbn [bind Merge.merged Merge.seen_apps]. rewrite append_at_apps.
  unfold set_contains.
  destruct (truthy b), (hashable b); cbn [bind negb]; try done.
  - by destruct (negb _).
  - intros [= <-]. auto.
Qed.

Lemma apps_loop_raises xs n A N seen e :
  for_each Merge.merge_app xs (Merge.State (shape n A N) seen) = Raise e →
  e = TypeError ∨ e = AttributeError.
Proof.
  revert A seen. induction xs as [|x xs IH]; intros A seen; [done|].
  cbn [for_each]. pose proof (merge_app_shape x n A N seen) as Hx.
  destruct (Merge.merge_app x _) as [st|e'] eqn:Ex; cbn [bind].
  - destruct Hx as [_ ->]. apply IH.
  - intros [= <-]. by eapply merge_app_raises.
Qed.

(** One manifest, whatever value it is: the loops leave a result of the same
    form, or the exception is a [TypeError] or an [AttributeError]. *)
Lemma script_merge_manifest_out manifest n A N seen :
  match Script.merge_manifest manifest (Merge.State (shape n A N) seen) with
  | Ok st => ∃ A' N' seen', st = Merge.State (shape n A' N') seen'
  | Raise e => e = TypeError ∨ e = AttributeError
  end.
Proof.
  unfold Script.merge_manifest.
  destruct (py_in (JStr "apps") manifest) as [has_apps|e] eqn:Ea; cbn [bind].
  2:{ left. by eapply py_in_raises. }
  assert (match (if has_apps
                 then let* apps := py_getitem manifest "apps" in
                      let* xs := py_iter apps in
                      for_each Merge.merge_app xs
                        (Merge.State (shape n A N) seen)
                 else Ok (Merge.State (shape n A N) seen)) with
          | Ok st => ∃ A' seen', st = Merge.State (shape n A' N) seen'
          | Raise e => e = TypeError ∨ e = AttributeError
          end) as H1.
  { destruct has_apps; [|by eauto].
    pose proof (py_getitem_after_in "apps" manifest Ea) as Hg.
    destruct (py_getitem manifest "apps") as [apps|e]; cbn [bind];
      [|left; apply Hg].
    destruct (py_iter apps) as [xs|e] eqn:Ei; cbn [bind].
    2:{ left. by eapply py_iter_raises. }
    pose proof (apps_loop xs n A N seen) as Hl.
    destruct (for_each Merge.merge_app xs _) as [st|e] eqn:El.
    - destruct Hl as [_ ->]. eauto.
    - by eapply apps_loop_raises. }
  destruct (if has_apps then _ else _) as [st1|e]; cbn [bind]; [|done].
  destruct H1 as (A' & seen' & ->).
  destruct (py_in (JStr "news") manifest) as [has_news|e] eqn:En; cbn [bind].
  2:{ left. by eapply py_in_raises. }
  destruct has_news; [|by eauto].
  pose proof (py_getitem_after_in "news" manifest En) as Hg.
  destruct (py_getitem manifest "news") as [news|e]; cbn [bind];
    [|left; apply Hg].
  destruct (py_iter news) as [xs|e] eqn:Ei; cbn [bind].
  2:{ left. by eapply py_iter_raises. }
  rewrite news_loop. eauto.
Qed.

Lemma script_loop_out ms n A N seen :
  match for_each Script.merge_manifest ms (Merge.State (shape n A N) seen) with
  | Ok st => ∃ A' N' seen', st = Merge.State (shape n A' N') seen'
  | Raise e => e = TypeError ∨ e = AttributeError
  end.
Proof.
  revert A N seen. induction ms as [|m ms IH]; intros A N seen;
    [simpl; by eauto|].
  cbn [for_each]. pose proof (script_merge_manifest_out m n A N seen) as Hm.
  destruct (Script.merge_manifest m _) as [st|e]; cbn [bind]; [|done].
  destruct Hm as (A' & N' & seen' & ->). apply IH.
Qed.

Lemma script_copy_key_out first key m :
  match Script.copy_key first key m with
  | Ok m' => m' = m ∨ ∃ v, m' = dict_set key v m
  | Raise e => e = TypeError
  end.
Proof.
  unfold Script.copy_key.
  destruct (py_in (JStr key) first) as [present|e] eqn:Ei; cbn [bind].
  2:{ by eapply py_in_raises. }
  destruct present; [|by left].
  pose proof (py_getitem_after_in key first Ei) as Hg.
  destruct (py_getitem first key) as [v|e]; cbn [bind]; [by eauto|apply Hg].
Qed.

Lemma script_copy_keys_raises first keys m e :
  for_each (Script.copy_key first) keys m = Raise e → e = TypeError.
Proof.
  revert m. induction keys as [|k keys IH]; intros m; [done|].
  cbn [for_each]. pose proof (script_copy_key_out first k m) as Hk.
  destruct (Script.copy_key first k m) as [m'|e']; cbn [bind]; [apply IH|].
  by intros [= <-].
Qed.

(** The exceptions of [merge_manifests], whatever the manifests are. *)
Lemma script_merge_manifests_raises ms name e :
  Script.merge_manifests ms name = Raise e →
  (ms = [] ∧ e = ValueError) ∨
  (ms ≠ [] ∧ (e = TypeError ∨ e = AttributeError)).
Proof.
  destruct ms as [|first rest]; [intros [= <-]; by left|].
  intros H. right. split; [done|]. revert H.
  unfold Script.merge_manifests.
  pose proof (script_loop_out (first :: rest) name [] [] []) as Hl.
  change (Merge.initial name) with (Merge.State (shape name [] []) []).
  destruct (for_each Script.merge_manifest _ _) as [st|e']; cbn [bind].
  - intros H. left. by eapply script_copy_keys_raises.
  - by intros [= <-].
Qed.

(** ** The merge under the recursion limit *)

Lemma up_to_limit_refl {A} (r : result A) : up_to_limit r r.
Proof. by left. Qed.

Lemma up_to_limit_bind {A B} (m m' : result A) (k k' : A → result B) :
  up_to_limit m m' → (∀ a, up_to_limit (k a) (k' a)) →
  up_to_limit (bind m k) (bind m' k').
Proof.
  intros [->| ->] Hk; [|by right]. destruct m' as [a|e]; [apply Hk|by left].
Qed.

Lemma up_to_limit_for_each {A S} (f g : A → S → result S) xs s :
  (∀ x s, up_to_limit (f x s) (g x s)) →
  up_to_limit (for_each f xs s) (for_each g xs s).
Proof.
  intros H. revert s. induction xs as [|x xs IH]; intros s; [by left|].
  cbn [for_each]. by apply up_to_limit_bind.
Qed.

Lemma all2_ok_up_to_limit (p : json → json → result bool) xs ys :
  (∀ x y, up_to_limit (p x y) (Ok (py_eq x y))) →
  length xs = length ys →
  up_to_limit (Store.all2_ok p xs ys) (Ok (py_eq (JList xs) (JList ys))).
Proof.
  intros Hp. revert ys. induction xs as [|x xs IH]; intros [|y ys] Hl;
    try done; [by left|].
  rewrite py_eq_list_cons. cbn [Store.all2_ok].
  destruct (Hp x y) as [-> | ->]; [|by right]. cbn [bind].
  destruct (py_eq x y); [|by left]. apply IH. by injection Hl.
Qed.

Lemma all_ok_up_to_limit {A} (p : A → result bool) (q : A → bool) xs :
  (∀ x, up_to_limit (p x) (Ok (q x))) →
  up_to_limit (Store.all_ok p xs) (Ok (forallb q xs)).
Proof.
  intros Hp. induction xs as [|x xs IH]; [by left|].
  cbn [Store.all_ok forallb].
  destruct (Hp x) as [-> | ->]; [|by right]. cbn [bind].
  by destruct (q x); [|left].
Qed.

Lemma any_ok_up_to_limit {A} (p : A → result bool) (q : A → bool) xs :
  (∀ x, up_to_limit (p x) (Ok (q x))) →
  up_to_limit (Store.any_ok p xs) (Ok (existsb q xs)).
Proof.
  intros Hp. induction xs as [|x xs IH]; [by left|].
  cbn [Store.any_ok existsb].
  destruct (Hp x) as [-> | ->]; [|by right]. cbn [bind].
  by destruct (q x); [left|].
Qed.

Lemma length_eqb_false_py_eq xs ys :
  (length xs =? length ys)%nat = false →
  py_eq (JList xs) (JList ys) = false.
Proof.
  revert ys. induction xs as [|x xs IH]; intros [|y ys]; try done.
  intros H. rewrite py_eq_list_cons, (IH ys H). apply andb_false_r.
Qed.

(** The comparison under the limit gives what [==] gives, or hits the
    limit. *)
Lemma py_eq_within_up_to_limit depth a b :
  up_to_limit (py_eq_within depth a b) (Ok (py_eq a b)).
Proof.
  revert a b. induction depth as [|depth IH]; intros a b; [by right|].
  destruct a as [| | | |xs|d1], b as [| | | |ys|d2]; try by left.
  - cbn [py_eq_within].
    destruct (length xs =? length ys)%nat eqn:El.
    + apply all2_ok_up_to_limit; [done|]. by apply Nat.eqb_eq.
    + left. by rewrite length_eqb_false_py_eq.
  - cbn [py_eq_within]. rewrite py_eq_dict_unfold.
    destruct (length d1 =? length d2)%nat; [|by left]. cbn [andb].
    apply all_ok_up_to_limit. intros [k v]. cbn [fst snd].
    destruct (dict_get k d2); [apply IH|by left].
Qed.

Lemma py_in_within_up_to_limit depth x v :
  up_to_limit (py_in_within depth x v) (py_in x v).
Proof.
  destruct v; try by left. cbn [py_in_within py_in].
  apply any_ok_up_to_limit. intros y. apply py_eq_within_up_to_limit.
Qed.

Lemma set_contains_within_up_to_limit depth x s :
  up_to_limit (set_contains_within depth x s) (set_contains x s).
Proof.
  unfold set_contains_within, set_contains. destruct (hashable x); [|by left].
  apply any_ok_up_to_limit. intros y. apply py_eq_within_up_to_limit.
Qed.

Lemma merge_app_within_up_to_limit depth app st :
  up_to_limit (Script.merge_app_within depth app st) (Merge.merge_app app st).
Proof.
  unfold Script.merge_app_within, Merge.merge_app.
  apply up_to_limit_bind; [by left|]. intros bundle_id.
  apply up_to_limit_bind; [|intros; by left].
  destruct (truthy bundle_id); [|by left].
  apply up_to_limit_bind; [|intros; by left].
  apply set_contains_within_up_to_limit.
Qed.

Lemma merge_news_item_within_up_to_limit depth item st :
  up_to_limit (Script.merge_news_item_within depth item st)
    (Merge.merge_news_item item st).
Proof.
  unfold Script.merge_news_item_within, Merge.merge_news_item.
  apply up_to_limit_bind; [by left|]. intros news.
  apply up_to_limit_bind; [|intros; by left].
  apply py_in_within_up_to_limit.
Qed.

Lemma merge_manifest_within_up_to_limit depth manifest st :
  up_to_limit (Script.merge_manifest_within depth manifest st)
    (Script.merge_manifest manifest st).
Proof.
  unfold Script.merge_manifest_within, Script.merge_manifest.
  apply up_to_limit_bind; [by left|]. intros has_apps.
  apply up_to_limit_bind.
  { destruct has_apps; [|by left].
    apply up_to_limit_bind; [by left|]. intros apps.
    apply up_to_limit_bind; [by left|]. intros xs.
    apply up_to_limit_for_each. intros. apply merge_app_within_up_to_limit. }
  intros st1. apply up_to_limit_bind; [by left|]. intros has_news.
  destruct has_news; [|by left].
  apply up_to_limit_bind; [by left|]. intros news.
  apply up_to_limit_bind; [by left|]. intros xs.
  apply up_to_limit_for_each. intros. apply merge_news_item_within_up_to_limit.
Qed.

(** The merge under the limit ends as the merge without it, or hits the
    limit. *)
Lemma merge_manifests_within_up_to_limit depth ms name :
  up_to_limit (Script.merge_manifests_within depth ms name)
    (Script.merge_manifests ms name).
Proof.
  destruct ms as [|first rest]; [by left|].
  unfold Script.merge_manifests_within, Script.merge_manifests.
  apply up_to_limit_bind; [|intros; by left].
  apply up_to_limit_for_each. intros. apply merge_manifest_within_up_to_limit.
Qed.

Lemma merge_manifests_within_Ok depth ms name d :
  Script.merge_manifests_within depth ms name = Ok d →
  Script.merge_manifests ms name = Ok d.
Proof.
  destruct (merge_manifests_within_up_to_limit depth ms name) as [-> | ->];
    done.
Qed.


(** *** Documents within the limit *)

Lemma all2_ok_enough (p : json → json → result bool) xs ys :
  Forall (λ x, ∀ y, p x y = Ok (py_eq x y)) xs →
  length xs = length ys →
  Store.all2_ok p xs ys = Ok (py_eq (JList xs) (JList ys)).
Proof.
  intros Hp. revert ys. induction Hp as [|x xs Hx _ IH]; intros [|y ys] Hl;
    try done.
  rewrite py_eq_list_cons. cbn [Store.all2_ok]. rewrite Hx. cbn [bind].
  destruct (py_eq x y); [|done]. apply IH. by injection Hl.
Qed.

Lemma all_ok_enough {A} (p : A → result bool) (q : A → bool) xs :
  Forall (λ x, p x = Ok (q x)) xs →
  Store.all_ok p xs = Ok (forallb q xs).
Proof.
  induction 1 as [|x xs Hx _ IH]; [done|].
  cbn [Store.all_ok forallb]. rewrite Hx. cbn [bind]. by destruct (q x).
Qed.

Lemma any_ok_enough {A} (p : A → result bool) (q : A → bool) xs :
  Forall (λ x, p x = Ok (q x)) xs →
  Store.any_ok p xs = Ok (existsb q xs).
Proof.
  induction 1 as [|x xs Hx _ IH]; [done|].
  cbn [Store.any_ok existsb]. rewrite Hx. cbn [bind]. by destruct (q x).
Qed.

(** The comparison returns when the left document is nested no deeper than
    the limit. *)
Lemma py_eq_within_enough depth a b :
  (json_depth a ≤ depth)%nat → py_eq_within depth a b = Ok (py_eq a b).
Proof.
  revert depth b. induction a as [|x|x|s|xs IH|d1 IH] using json_ind;
    intros depth b Hd; (destruct depth as [|depth]; [simpl in Hd; lia|]);
    try by destruct b.
  - destruct b as [| | | |ys|d2]; try done. cbn [py_eq_within].
    destruct (length xs =? length ys)%nat eqn:El.
    + apply all2_ok_enough; [|by apply Nat.eqb_eq].
      rewrite Forall_forall in IH. apply Forall_forall. intros x Hx y.
      apply IH; [done|]. pose proof (json_depth_elem x xs Hx).
      simpl in Hd. lia.
    + by rewrite length_eqb_false_py_eq.
  - destruct b as [| | | |ys|d2]; try done. cbn [py_eq_within].
    rewrite py_eq_dict_unfold.
    destruct (length d1 =? length d2)%nat; [|done]. cbn [andb].
    apply all_ok_enough. rewrite Forall_forall in IH. apply Forall_forall.
    intros [k v] Hkv. cbn [fst snd]. destruct (dict_get k d2); [|done].
    apply (IH (k, v) Hkv). pose proof (json_depth_value k v d1 Hkv).
    simpl in *. lia.
Qed.

Lemma hashable_depth y : hashable y = true → json_depth y = 1%nat.
Proof. by destruct y. Qed.

Lemma merge_app_within_enough depth app st :
  (1 ≤ depth)%nat →
  Forall (λ y, hashable y = true) (Merge.seen_apps st) →
  Script.merge_app_within depth app st = Merge.merge_app app st.
Proof.
  intros Hd Hseen. unfold Script.merge_app_within, Merge.merge_app.
  destruct (py_get app "bundleIdentifier" (JStr "")) as [b|e]; [|done].
  cbn [bind]. destruct (truthy b); [|done].
  unfold set_contains_within, set_contains. destruct (hashable b); [|done].
  rewrite (any_ok_enough _ (λ y, py_eq y b)); [done|].
  eapply Forall_impl; [exact Hseen|]. intros y Hy.
  apply py_eq_within_enough. rewrite (hashable_depth y Hy). lia.
Qed.

Lemma merge_news_item_within_enough depth item n A N seen :
  Forall (λ y, json_depth y ≤ depth)%nat N →
  Script.merge_news_item_within depth item (Merge.State (shape n A N) seen) =
  Merge.merge_news_item item (Merge.State (shape n A N) seen).
Proof.
  intros HN. unfold Script.merge_news_item_within, Merge.merge_news_item.
  cbn [Merge.merged].
  change (dict_getitem "news" (shape n A N)) with (Ok (A:=json) (JList N)).
  cbn [bind py_in_within py_in].
  rewrite (any_ok_enough _ (λ y, py_eq y item)); [done|].
  eapply Forall_impl; [exact HN|]. intros y Hy.
  by apply py_eq_within_enough.
Qed.

Lemma seen_after_hashable seen xs :
  forallb app_ok xs = true →
  Forall (λ y, hashable y = true) seen →
  Forall (λ y, hashable y = true) (seen_after seen xs).
Proof.
  revert seen. induction xs as [|a xs IH]; intros seen Hok Hseen; [done|].
  cbn [forallb] in Hok. apply andb_true_iff in Hok as [Ha Hok].
  cbn [seen_after]. destruct (truthy (app_id a)) eqn:Ht; [|by apply IH].
  destruct (existsb _ seen); [by apply IH|].
  apply IH; [done|]. apply Forall_app. split; [done|].
  constructor; [|done]. by apply app_ok_hashable.
Qed.

Lemma keep_news_depth depth N xs :
  Forall (λ y, json_depth y ≤ depth)%nat N →
  Forall (λ y, json_depth y ≤ depth)%nat xs →
  Forall (λ y, json_depth y ≤ depth)%nat (keep_news N xs).
Proof.
  intros HN Hxs. destruct (keep_news_added N xs) as (l & -> & Hl).
  apply Forall_app. split; [done|].
  rewrite Forall_forall in Hxs. apply Forall_forall. intros y Hy.
  apply Hxs. by eapply elem_of_sublist.
Qed.

(** A loop under the limit is the loop without it, as long as the states
    it goes through satisfy [P]. *)
Lemma for_each_enough {A S} (P : S → Prop) (f g : A → S → result S) xs s :
  P s →
  (∀ x s, x ∈ xs → P s →
          f x s = g x s ∧ ∀ s', g x s = Ok s' → P s') →
  for_each f xs s = for_each g xs s ∧
  ∀ s', for_each g xs s = Ok s' → P s'.
Proof.
  revert s. induction xs as [|x xs IH]; intros s Hs H.
  - split; [done|]. by intros s' [= <-].
  - cbn [for_each]. destruct (H x s ltac:(left) Hs) as [-> Hx].
    destruct (g x s) as [s1|e]; cbn [bind]; [|done].
    apply IH; [by apply Hx|]. intros y s2 Hy. apply H. by right.
Qed.

Lemma merge_manifest_within_enough depth m n A N seen :
  (1 ≤ depth)%nat →
  Forall (λ y, hashable y = true) seen →
  Forall (λ y, json_depth y ≤ depth)%nat N →
  Forall (λ y, json_depth y ≤ depth)%nat (entries "news" m) →
  Script.merge_manifest_within depth (JDict m)
    (Merge.State (shape n A N) seen) =
  Merge.merge_manifest m (Merge.State (shape n A N) seen).
Proof.
  intros Hd Hseen HN Hm.
  unfold Script.merge_manifest_within, Merge.merge_manifest.
  cbn [py_in bind py_getitem].
  assert ((if dict_in "apps" m
           then let* apps := dict_getitem "apps" m in
                let* xs := py_iter apps in
                for_each (Script.merge_app_within depth) xs
                  (Merge.State (shape n A N) seen)
           else Ok (Merge.State (shape n A N) seen)) =
          (if dict_in "apps" m
           then let* apps := dict_getitem "apps" m in
                let* xs := py_iter apps in
                for_each Merge.merge_app xs (Merge.State (shape n A N) seen)
           else Ok (Merge.State (shape n A N) seen)) ∧
          ∀ st1, (if dict_in "apps" m
                  then let* apps := dict_getitem "apps" m in
                       let* xs := py_iter apps in
                       for_each Merge.merge_app xs
                         (Merge.State (shape n A N) seen)
                  else Ok (Merge.State (shape n A N) seen)) = Ok st1 →
                 ∃ A' seen', st1 = Merge.State (shape n A' N) seen')
    as [-> Hst1].
  { destruct (dict_in "apps" m); [|split; [done|]; intros ? [= <-]; eauto].
    destruct (dict_getitem "apps" m) as [apps|e]; [|done]. cbn [bind].
    destruct (py_iter apps) as [xs|e]; [|done]. cbn [bind].
    destruct (for_each_enough
                (λ st, ∃ A' seen', st = Merge.State (shape n A' N) seen' ∧
                                   Forall (λ y, hashable y = true) seen')
                (Script.merge_app_within depth) Merge.merge_app xs
                (Merge.State (shape n A N) seen)) as [-> Hl]; [by eauto| |].
    - intros x st _ (A' & seen' & -> & Hs').
      split; [by apply merge_app_within_enough|]. intros st' Hst'.
      pose proof (merge_app_shape x n A' N seen') as Hx.
      rewrite Hst' in Hx. destruct Hx as [Hok ->]. do 2 eexists.
      split; [done|]. apply seen_after_hashable; [|done].
      cbn [forallb]. by rewrite Hok.
    - split; [done|]. intros st1 H1.
      destruct (Hl st1 H1) as (A' & seen' & -> & _). eauto. }
  destruct (if dict_in "apps" m then _ else _) as [st1|e]; [|done].
  cbn [bind]. destruct (Hst1 st1 eq_refl) as (A' & seen' & ->).
  unfold entries, dict_in, dict_getitem in *.
  destruct (dict_get "news" m) as [news|]; [|done]. cbn [bind].
  destruct (py_iter news) as [xs|e]; [|done]. cbn [bind].
  apply (for_each_enough
           (λ st, ∃ N', st = Merge.State (shape n A' N') seen' ∧
                        Forall (λ y, json_depth y ≤ depth)%nat N')
           (Script.merge_news_item_within depth) Merge.merge_news_item xs);
    [by eauto|].
  intros x st Hx (N' & -> & HN').
  split; [by apply merge_news_item_within_enough|].
  rewrite merge_news_item_shape. intros st' [= <-]. eexists. split; [done|].
  apply (keep_news_depth depth N' [x]); [done|]. constructor; [|done].
  rewrite Forall_forall in Hm. by apply Hm.
Qed.

(** The merge of manifests whose news items are nested no deeper than the
    limit is the merge on trees. *)
Lemma merge_manifests_within_enough depth ms name :
  (1 ≤ depth)%nat →
  (∀ x, x ∈ all_news ms → (json_depth x ≤ depth)%nat) →
  Script.merge_manifests_within depth (map JDict ms) name =
  Merge.merge_manifests ms name.
Proof.
  intros Hd Hnews. rewrite <- script_merge_manifests_dicts.
  destruct ms as [|first rest]; [done|].
  unfold Script.merge_manifests_within, Script.merge_manifests.
  cbn [map]. rewrite <- (map_cons JDict first rest), !for_each_map.
  destruct (for_each_enough
              (λ st, ∃ A N seen, st = Merge.State (shape name A N) seen ∧
                                 Forall (λ y, hashable y = true) seen ∧
                                 Forall (λ y, json_depth y ≤ depth)%nat N)
              (λ m, Script.merge_manifest_within depth (JDict m))
              (λ m, Script.merge_manifest (JDict m)) (first :: rest)
              (Merge.initial name)) as [-> _]; [| |done].
  - exists [], [], []. by repeat split.
  - intros m st Hm (A & N & seen & -> & Hseen & HN).
    assert (Forall (λ y, json_depth y ≤ depth)%nat (entries "news" m))
      as Hbound.
    { apply Forall_forall. intros x Hx. apply Hnews.
      apply elem_of_concat_map. eauto. }
    rewrite script_merge_manifest_dict.
    split; [by apply merge_manifest_within_enough|]. intros st' Hst'.
    pose proof (merge_manifest_shape m name A N seen) as Hs.
    rewrite Hst' in Hs. destruct Hs as [Hacc ->]. do 3 eexists.
    split; [done|]. split.
    + apply seen_after_hashable; [|done]. unfold accepted in Hacc.
      by apply andb_true_iff in Hacc as [[_ ?]%andb_true_iff _].
    + by apply keep_news_depth.
Qed.

(** X17.  The interpreter's limit on recursion changes the outcome of
    [merge_manifests] in one way only, by a [RecursionError]: a call that
    returns under the limit returns what the merge without the limit
    returns, and a call that raises another exception raises what the merge
    without the limit raises. *)
Theorem recursion_limit_changes_nothing_else depth ms name :
  match Script.merge_manifests_within depth ms name with
  | Ok d => Script.merge_manifests ms name = Ok d
  | Raise e =>
      e = RecursionError ∨ Script.merge_manifests ms name = Raise e
  end.
Proof.
  destruct (merge_manifests_within_up_to_limit depth ms name) as [-> | ->];
    [|by left].
  destruct (Script.merge_manifests ms name); [done|by right].
Qed.

(** X18.  The limit is not hit when the interpreter has a level of
    recursion left and no news item of the manifests is nested deeper than
    it has levels left: the call then ends as the merge on trees does,
    however many apps and news items there are. *)
Theorem merge_within_the_limit depth ms name :
  (1 ≤ depth)%nat →
  (∀ x, x ∈ all_news ms → (json_depth x ≤ depth)%nat) →
  Script.merge_manifests_within depth (map JDict ms) name =
  Merge.merge_manifests ms name.
Proof. apply merge_manifests_within_enough. Qed.

(** ** Which calls return *)

(** The call on a heap that holds the documents [ms], which are nested no
    deeper than the recursion limit and have no more values than the loops
    have turns, ends as the merge on trees does. *)
Lemma store_outcome h0 ms name v fuel depth :
  repr h0 v (JList (map JDict ms)) →
  json_wf (JList (map JDict ms)) = true →
  (json_size (JList (map JDict ms)) ≤ fuel)%nat →
  (json_depth (JList (map JDict ms)) ≤ depth)%nat →
  match Merge.merge_manifests ms name,
        Store.merge_manifests fuel depth v name h0 with
  | Ok d, (Store.Done r, h') => repr h' r (JDict d)
  | Raise e, (Store.Raised e', _) => e = e'
  | _, _ => False
  end.
Proof.
  intros Hv Hwf Hfuel Hdepth.
  pose proof (merge_manifests_finishing h0 ms name v fuel depth
                Hv Hwf Hfuel Hdepth) as H.
  destruct (Merge.merge_manifests ms name) as [d|e],
    (Store.merge_manifests fuel depth v name h0) as [[r|e'|] h']; try done.
  destruct H as (-> & apps & news & Hfin & _). by eapply finishing_repr.
Qed.

(** C4.  Merging an empty list of manifests raises the [ValueError] of line
    47 and returns nothing.  A non-empty list never raises it.  A call on
    a non-empty list of manifests of the documented shape returns a result,
    the document the merge on trees gives, when the manifests are nested no
    deeper than the interpreter's recursion limit [depth] (and have no more
    values than [fuel], the bound the model puts on the turns of a loop):
    beyond that limit the comparison of two news items raises
    [RecursionError]. *)
Theorem C4_empty_input_error :
  (∀ name, Merge.merge_manifests [] name = Raise ValueError) ∧
  (∀ ms name, ms ≠ [] → Merge.merge_manifests ms name ≠ Raise ValueError) ∧
  (∀ h0 v ms name fuel depth,
     repr h0 v (JList (map JDict ms)) →
     json_wf (JList (map JDict ms)) = true →
     (json_size (JList (map JDict ms)) ≤ fuel)%nat →
     (json_depth (JList (map JDict ms)) ≤ depth)%nat →
     ms ≠ [] → forallb manifest_ok ms = true →
     ∃ r h' d,
       Store.merge_manifests fuel depth v name h0 = (Store.Done r, h') ∧
       Merge.merge_manifests ms name = Ok d ∧
       repr h' r (JDict d)).
Proof.
  split; [done|]. split.
  - intros ms name Hne H. pose proof (merge_manifests_spec ms name) as Hs.
    rewrite H in Hs. destruct Hs as [[? _]|(_ & _ & ?)]; done.
  - intros h0 v ms name fuel depth Hv Hwf Hfuel Hdepth Hne Hok.
    pose proof (store_outcome h0 ms name v fuel depth Hv Hwf Hfuel Hdepth)
      as Hrun.
    pose proof (merge_manifests_spec ms name) as Hs.
    destruct (Merge.merge_manifests ms name) as [d|e].
    + destruct (Store.merge_manifests fuel depth v name h0)
        as [[r|e'|] h']; try done.
      by exists r, h', d.
    + destruct Hs as [[? _]|(_ & Hacc & _)]; [done|].
      assert (forallb accepted ms = true); [|congruence].
      rewrite forallb_forall in Hok. apply forallb_forall.
      intros m Hm. by apply manifest_ok_accepted, Hok.
Qed.

(** X2.  On a heap that holds the manifests, which are nested no deeper
    than the interpreter's recursion limit [depth] and have no more values
    than [fuel], the bound on the turns of a loop, the call returns exactly
    when the list is not empty and every manifest is accepted: [apps] and
    [news], where present, can be iterated over, and every app is a
    dictionary whose identifier is false or hashable.  It then returns the
    document the merge on trees gives.  When it raises, the exception is
    the [ValueError] of the empty list, a [TypeError] or an
    [AttributeError]; a missing key never raises. *)
Theorem merge_manifests_returns_iff h0 ms name v fuel depth :
  repr h0 v (JList (map JDict ms)) →
  json_wf (JList (map JDict ms)) = true →
  (json_size (JList (map JDict ms)) ≤ fuel)%nat →
  (json_depth (JList (map JDict ms)) ≤ depth)%nat →
  match Store.merge_manifests fuel depth v name h0 with
  | (Store.Done r, h') =>
      ms ≠ [] ∧ forallb accepted ms = true ∧
      ∃ d, Merge.merge_manifests ms name = Ok d ∧ repr h' r (JDict d)
  | (Store.Raised e, _) =>
      (ms = [] ∧ e = ValueError) ∨
      (ms ≠ [] ∧ forallb accepted ms = false ∧
       (e = TypeError ∨ e = AttributeError))
  | (Store.OutOfFuel, _) => False
  end.
Proof.
  intros Hv Hwf Hfuel Hdepth.
  pose proof (store_outcome h0 ms name v fuel depth Hv Hwf Hfuel Hdepth)
    as Hrun.
  pose proof (merge_manifests_spec ms name) as Hs.
  destruct (Merge.merge_manifests ms name) as [d|e] eqn:Hm,
    (Store.merge_manifests fuel depth v name h0) as [[r|e'|] h'];
    try done.
  - destruct Hs as (first & rest & -> & Hacc & _).
    split; [done|]. split; [done|]. by exists d.
  - subst e'. rewrite <- script_merge_manifests_dicts in Hm.
    apply script_merge_manifests_raises in Hm.
    destruct Hs as [[-> ->]|(Hne & Hf & _)]; [by left|right].
    destruct Hm as [[Hnil _]|[_ He]]; [by destruct ms|done].
Qed.

(** ** Merging a merged repository *)

Lemma dict_set_same {V} k (v : V) d : dict_get k d = Some v → dict_set k v d = d.
Proof.
  induction d as [|[k' v'] d IH]; simpl; [done|].
  destruct (String.eqb k k') eqn:E.
  - apply String.eqb_eq in E as ->. by intros [= ->].
  - intros H. by rewrite IH.
Qed.

(** The metadata keys of a result: those of the first manifest, and the
    default icon. *)
Lemma result_metadata first name A N k :
  k ∈ Merge.metadata_keys →
  dict_get k (with_metadata first (shape name A N)) =
  match dict_get k first with
  | Some v => Some v
  | None => if String.eqb k "iconURL" then Some (JStr Merge.default_icon)
            else None
  end.
Proof.
  intros Hk. unfold with_metadata. rewrite with_metadata_copied by done.
  destruct (dict_get k first); [done|].
  unfold Merge.metadata_keys in Hk.
  repeat (apply elem_of_cons in Hk as [->|Hk]; [reflexivity|]).
  by apply elem_of_nil in Hk.
Qed.

(** The seven lookups [with_metadata] makes, as a case analysis. *)
Ltac metadata_cases first :=
  destruct (dict_get "sourceURL" first), (dict_get "subtitle" first),
    (dict_get "description" first), (dict_get "iconURL" first),
    (dict_get "headerURL" first), (dict_get "website" first),
    (dict_get "tintColor" first).

(** Copying the metadata of a result into a result under construction does
    what copying those of its first manifest does. *)
Lemma with_metadata_result first n A1 N1 n' A N :
  with_metadata (with_metadata first (shape n A1 N1)) (shape n' A N) =
  with_metadata first (shape n' A N).
Proof.
  pose proof (λ k, result_metadata first n A1 N1 k) as Hr.
  revert Hr. generalize (with_metadata first (shape n A1 N1)). intros r Hr.
  unfold with_metadata, Merge.metadata_keys in *. cbn [fold_left].
  rewrite !Hr by (rewrite !elem_of_cons; tauto).
  change (String.eqb "sourceURL" "iconURL") with false.
  change (String.eqb "subtitle" "iconURL") with false.
  change (String.eqb "description" "iconURL") with false.
  change (String.eqb "iconURL" "iconURL") with true.
  change (String.eqb "headerURL" "iconURL") with false.
  change (String.eqb "website" "iconURL") with false.
  change (String.eqb "tintColor" "iconURL") with false.
  clear Hr. metadata_cases first; reflexivity.
Qed.

Lemma result_entries_apps first name A N :
  entries "apps" (with_metadata first (shape name A N)) = A.
Proof. unfold entries. by rewrite result_apps. Qed.

Lemma result_entries_news first name A N :
  entries "news" (with_metadata first (shape name A N)) = N.
Proof. unfold entries. by rewrite result_news. Qed.

Lemma result_accepted first name A N :
  accepted (with_metadata first (shape name A N)) = forallb app_ok A.
Proof.
  unfold accepted.
  rewrite result_entries_apps, result_apps, result_news. simpl.
  by rewrite andb_true_r.
Qed.

Lemma keep_apps_distinct_ids seen xs : distinct_ids (keep_apps seen xs).
Proof.
  intros i j a b Ha Hb Hij Hb'.
  destruct (truthy (app_id a)) eqn:Ea.
  - by eapply keep_apps_distinct.
  - destruct (py_eq (app_id a) (app_id b)) eqn:E; [|done].
    apply py_eq_truthy in E. congruence.
Qed.

(** The loops do not change what they have kept when they run over it
    again. *)
Lemma keep_apps_kept xs : keep_apps [] (keep_apps [] xs) = keep_apps [] xs.
Proof. apply keep_apps_all; [done|apply keep_apps_distinct_ids]. Qed.

Lemma keep_news_kept xs : keep_news [] (keep_news [] xs) = keep_news [] xs.
Proof.
  rewrite keep_news_all; [done|done|].
  apply keep_news_distinct. by intros i j a b Ha.
Qed.

Lemma seen_after_keep_apps xs :
  seen_after [] (keep_apps [] xs) = seen_after [] xs.
Proof. by rewrite <- seen_after_set, seen_after_kept. Qed.

Lemma forallb_sublist {A} (p : A → bool) l1 l2 :
  l1 `sublist_of` l2 → forallb p l2 = true → forallb p l1 = true.
Proof.
  rewrite !forallb_forall. intros Hs H x Hx. apply H.
  apply list_elem_of_In. eapply elem_of_sublist; [|done].
  by apply list_elem_of_In.
Qed.

Lemma all_apps_ok ms :
  forallb accepted ms = true → forallb app_ok (all_apps ms) = true.
Proof.
  intros H. apply forallb_forall. intros a Ha.
  apply list_elem_of_In in Ha. by eapply accepted_app_ok.
Qed.

(** The state of the loops after the manifests [ms], and after the result of
    merging [ms] alone, is the same. *)
Lemma loops_over_result first rest n n' :
  forallb accepted (first :: rest) = true →
  Merge.merge_manifest
    (with_metadata first
       (shape n (keep_apps [] (all_apps (first :: rest)))
                (keep_news [] (all_news (first :: rest)))))
    (Merge.State (shape n' [] []) []) =
  for_each Merge.merge_manifest (first :: rest)
    (Merge.State (shape n' [] []) []).
Proof.
  intros Hacc. set (ms := first :: rest) in *.
  pose proof (manifests_loop ms n' [] [] []) as Hl.
  destruct (for_each Merge.merge_manifest ms _) as [st|e];
    [|destruct Hl; congruence].
  destruct Hl as [_ ->].
  match goal with
  | |- Merge.merge_manifest ?r _ = _ =>
      pose proof (merge_manifest_shape r n' [] [] []) as Hr;
      destruct (Merge.merge_manifest r _) as [st|e]
  end.
  - destruct Hr as [_ ->].
    rewrite result_entries_apps, result_entries_news.
    by rewrite keep_apps_kept, keep_news_kept, seen_after_keep_apps.
  - destruct Hr as [Hr _]. rewrite result_accepted in Hr.
    rewrite (forallb_sublist app_ok _ (all_apps ms)) in Hr; [done| |].
    + apply keep_apps_sublist.
    + by apply all_apps_ok.
Qed.

Lemma for_each_cons {A S} (body : A → S → result S) x xs s :
  for_each body (x :: xs) s = let* s' := body x s in for_each body xs s'.
Proof. done. Qed.

Lemma merge_result_then ms1 ms2 name name' r :
  Merge.merge_manifests ms1 name = Ok r →
  Merge.merge_manifests (r :: ms2) name' =
  Merge.merge_manifests (ms1 ++ ms2) name'.
Proof.
  intros (first & rest & -> & Hacc & ->)%merge_manifests_Ok.
  change ((first :: rest) ++ ms2) with (first :: (rest ++ ms2)).
  rewrite !merge_manifests_unfold.
  change (first :: (rest ++ ms2)) with ((first :: rest) ++ ms2).
  rewrite for_each_app, (for_each_cons _ (with_metadata _ _) ms2).
  rewrite (loops_over_result first rest name name' Hacc).
  pose proof (manifests_loop (first :: rest) name' [] [] []) as Hl.
  destruct (for_each Merge.merge_manifest (first :: rest) _) as [st|e];
    cbn [bind]; [|done].
  destruct Hl as [_ ->].
  match goal with
  | |- context [for_each Merge.merge_manifest ms2
                  (Merge.State (shape ?n ?A ?N) ?seen)] =>
      pose proof (manifests_loop ms2 n A N seen) as Hl2;
      destruct (for_each Merge.merge_manifest ms2
                  (Merge.State (shape n A N) seen)) as [st|e]
  end; cbn [bind]; [|done].
  destruct Hl2 as [_ ->]. cbn [Merge.merged].
  by rewrite with_metadata_result.
Qed.

(** X3.  Merging is incremental.  A merged repository put in front of
    further manifests merges to what all the manifests together merge to,
    with the same exception if one of the further manifests is refused; and
    a merged repository merged alone under its own name is returned as it
    is. *)
Theorem merge_manifests_incremental ms1 ms2 name name' r :
  Merge.merge_manifests ms1 name = Ok r →
  Merge.merge_manifests (r :: ms2) name' =
  Merge.merge_manifests (ms1 ++ ms2) name' ∧
  Merge.merge_manifests [r] name = Ok r.
Proof.
  intros H. split; [by eapply merge_result_then|].
  by rewrite (merge_result_then ms1 [] name name r H), app_nil_r.
Qed.

(** ** The keys of the result *)

Lemma with_metadata_keys first name A N :
  map fst (with_metadata first (shape name A N)) =
  ["name"; "identifier"; "iconURL"; "apps"; "news"] ++
  filter (λ k, dict_in k first = true)
    ["sourceURL"; "subtitle"; "description"; "headerURL"; "website";
     "tintColor"].
Proof.
  rewrite !filter_cons, filter_nil.
  unfold with_metadata, Merge.metadata_keys, dict_in. cbn [fold_left].
  metadata_cases first; reflexivity.
Qed.

(** X4.  The keys of the result, in the order [json.dump] writes them, are
    [name], [identifier], [iconURL], [apps] and [news], followed by those of
    [sourceURL], [subtitle], [description], [headerURL], [website] and
    [tintColor] the first manifest has.  No other key of a manifest reaches
    the result. *)
Theorem result_keys ms name r :
  Merge.merge_manifests ms name = Ok r →
  ∃ first rest, ms = first :: rest ∧
    map fst r =
    ["name"; "identifier"; "iconURL"; "apps"; "news"] ++
    filter (λ k, dict_in k first = true)
      ["sourceURL"; "subtitle"; "description"; "headerURL"; "website";
       "tintColor"].
Proof.
  intros (first & rest & -> & _ & ->)%merge_manifests_Ok.
  exists first, rest. split; [done|]. apply with_metadata_keys.
Qed.

(** ** The output name *)

Lemma with_metadata_name first n1 n2 A N :
  with_metadata first (shape n2 A N) =
  dict_set "name" (JStr n2) (with_metadata first (shape n1 A N)).
Proof.
  unfold with_metadata, Merge.metadata_keys. cbn [fold_left].
  metadata_cases first; reflexivity.
Qed.

(** A loop keeps two runs in step when its body does. *)
Lemma for_each_agree {A S} (R : S → S → Prop) (body : A → S → result S)
    xs s1 s2 :
  (∀ x s1 s2, R s1 s2 → agree R (body x s1) (body x s2)) →
  R s1 s2 → agree R (for_each body xs s1) (for_each body xs s2).
Proof.
  intros Hbody. revert s1 s2.
  induction xs as [|x xs IH]; intros s1 s2 HR; [done|]. cbn [for_each].
  pose proof (Hbody x s1 s2 HR) as Hx.
  destruct (body x s1), (body x s2); cbn [bind]; simpl in Hx; try done.
  by apply IH.
Qed.

Section names.

Context (n1 n2 : string).

Local Abbreviation R := (renamed n1 n2).

Lemma merge_app_name app s1 s2 :
  R s1 s2 → agree R (Merge.merge_app app s1) (Merge.merge_app app s2).
Proof.
  intros (A & N & seen & -> & ->). unfold Merge.merge_app.
  destruct (py_get app "bundleIdentifier" (JStr "")) as [b|e]; [|done].
  cbn [bind Merge.merged Merge.seen_apps]. rewrite !append_at_apps.
  unfold set_contains.
  destruct (truthy b), (hashable b); cbn [bind negb agree]; try done.
  - destruct (negb _); cbn [bind agree]; red; eauto.
  - red; eauto.
  - red; eauto.
Qed.

Lemma merge_news_item_name x s1 s2 :
  R s1 s2 →
  agree R (Merge.merge_news_item x s1) (Merge.merge_news_item x s2).
Proof.
  intros (A & N & seen & -> & ->). rewrite !merge_news_item_shape.
  by exists A, (keep_news N [x]), seen.
Qed.

Lemma merge_manifest_name m s1 s2 :
  R s1 s2 →
  agree R (Merge.merge_manifest m s1) (Merge.merge_manifest m s2).
Proof.
  intros HR. unfold Merge.merge_manifest.
  assert (agree R
            (if dict_in "apps" m
             then let* apps := dict_getitem "apps" m in
                  let* xs := py_iter apps in
                  for_each Merge.merge_app xs s1
             else Ok s1)
            (if dict_in "apps" m
             then let* apps := dict_getitem "apps" m in
                  let* xs := py_iter apps in
                  for_each Merge.merge_app xs s2
             else Ok s2)) as H1.
  { destruct (dict_in "apps" m); [|done].
    destruct (dict_getitem "apps" m) as [apps|e]; [|done]. cbn [bind].
    destruct (py_iter apps) as [xs|e]; [|done]. cbn [bind].
    apply for_each_agree; [apply merge_app_name|done]. }
  destruct (if dict_in "apps" m then _ else Ok s1) as [t1|e1],
    (if dict_in "apps" m then _ else Ok s2) as [t2|e2]; try done.
  cbn [bind]. simpl in H1.
  destruct (dict_in "news" m); [|done].
  destruct (dict_getitem "news" m) as [news|e]; [|done]. cbn [bind].
  destruct (py_iter news) as [xs|e]; [|done]. cbn [bind].
  apply for_each_agree; [apply merge_news_item_name|done].
Qed.

Lemma manifests_loop_name ms :
  agree R
    (for_each Merge.merge_manifest ms (Merge.State (shape n1 [] []) []))
    (for_each Merge.merge_manifest ms (Merge.State (shape n2 [] []) [])).
Proof.
  apply for_each_agree; [apply merge_manifest_name|].
  by exists [], [], [].
Qed.

End names.

(** X5.  The output name decides the [name] of the result and nothing else:
    with another name the merge returns the same document with that one
    value replaced, or raises the same exception. *)
Theorem output_name_sets_name_only ms n1 n2 :
  match Merge.merge_manifests ms n1, Merge.merge_manifests ms n2 with
  | Ok r1, Ok r2 => r2 = dict_set "name" (JStr n2) r1
  | Raise e1, Raise e2 => e1 = e2
  | _, _ => False
  end.
Proof.
  destruct ms as [|first rest]; [done|]. rewrite !merge_manifests_unfold.
  pose proof (manifests_loop_name n1 n2 (first :: rest)) as H.
  destruct (for_each _ _ (Merge.State (shape n1 [] []) [])) as [st1|e1],
    (for_each _ _ (Merge.State (shape n2 [] []) [])) as [st2|e2];
    cbn [bind]; simpl in H; try done.
  destruct H as (A & N & seen & -> & ->). apply with_metadata_name.
Qed.

(** ** The script: one source after the other *)

Lemma script_result_apps ms name d :
  Script.merge_manifests ms name = Ok d →
  ∃ apps, dict_get "apps" d = Some (JList apps).
Proof.
  destruct ms as [|first rest]; [done|]. unfold Script.merge_manifests.
  pose proof (script_loop_out (first :: rest) name [] [] []) as Hl.
  change (Merge.initial name) with (Merge.State (shape name [] []) []).
  destruct (for_each Script.merge_manifest _ _) as [st|e]; cbn [bind]; [|done].
  destruct Hl as (A & N & seen & ->). cbn [Merge.merged].
  assert (∀ keys m m', "apps" ∉ keys →
            for_each (Script.copy_key first) keys m = Ok m' →
            dict_get "apps" m' = dict_get "apps" m) as Hkeys.
  { induction keys as [|k keys IH]; intros m m' Hk; [by intros [= ->]|].
    apply not_elem_of_cons in Hk as [Hne Hk].
    cbn [for_each]. pose proof (script_copy_key_out first k m) as Hc.
    destruct (Script.copy_key first k m) as [m1|e]; cbn [bind]; [|done].
    intros H. rewrite (IH m1 m' Hk H).
    destruct Hc as [->|[v ->]]; [done|].
    by apply dict_get_set_ne. }
  assert ("apps" ∉ Merge.metadata_keys) as Hm.
  { unfold Merge.metadata_keys.
    repeat (apply not_elem_of_cons; split; [done|]). apply not_elem_of_nil. }
  intros H. exists A. by rewrite (Hkeys _ _ _ Hm H).
Qed.

Section script.

Context (urlopen : string → Script.answer string).
Context (loads : string → Script.answer json).

Lemma fetch_manifest_run url s :
  Script.fetch_manifest urlopen loads url s =
  match fetched urlopen loads url with
  | Script.Got doc => (Script.Returned doc, s)
  | Script.Failed e =>
      (Script.Raised e,
       {| Script.manifests := Script.manifests s;
          Script.stdout := Script.stdout s;
          Script.stderr := Script.stderr s ++ fetch_log url e;
          Script.files := Script.files s |})
  end.
Proof.
  unfold Script.fetch_manifest, Script.try_except, Script.bind, fetched,
    Script.call.
  destruct s as [ms out err fs].
  destruct (urlopen url) as [data|e]; simpl.
  - destruct (loads data) as [doc|e]; simpl; [done|].
    destruct e; simpl; by rewrite ?app_nil_r.
  - destruct e; simpl; by rewrite ?app_nil_r.
Qed.

Lemma fetch_into_manifests_run url s :
  Script.fetch_into_manifests urlopen loads url s =
  (Script.Returned (),
   {| Script.manifests :=
        Script.manifests s ++ option_list (delivered urlopen loads url);
      Script.stdout := Script.stdout s ++ progress urlopen loads url;
      Script.stderr := Script.stderr s ++ complaints urlopen loads url;
      Script.files := Script.files s |}).
Proof.
  unfold Script.fetch_into_manifests, Script.try_except.
  unfold Script.bind at 1. cbn [Script.print].
  unfold Script.bind at 1. rewrite fetch_manifest_run.
  unfold delivered, progress, complaints.
  destruct s as [ms out err fs]. cbn [Script.manifests Script.stdout
    Script.stderr Script.files].
  destruct (fetched urlopen loads url) as [doc|e]; cbn [option_list].
  - unfold Script.bind, Script.append_manifest, Script.lift.
    cbn [Script.manifests Script.stdout Script.stderr Script.files].
    change (let* apps := py_get doc "apps" (JList []) in py_len apps)
      with (Script.app_count doc).
    destruct (Script.app_count doc) as [n|e]; unfold Script.eprint; simpl.
    + by rewrite app_nil_r, <- app_assoc.
    + done.
  - unfold Script.eprint. simpl. by rewrite app_nil_r, <- app_assoc.
Qed.

Lemma fetch_loop_run urls s :
  Script.for_in (Script.fetch_into_manifests urlopen loads) urls s =
  (Script.Returned (),
   {| Script.manifests :=
        Script.manifests s ++ omap (delivered urlopen loads) urls;
      Script.stdout :=
        Script.stdout s ++ concat (map (progress urlopen loads) urls);
      Script.stderr :=
        Script.stderr s ++ concat (map (complaints urlopen loads) urls);
      Script.files := Script.files s |}).
Proof.
  revert s. induction urls as [|url urls IH]; intros s.
  - destruct s. simpl. by rewrite !app_nil_r.
  - cbn [Script.for_in]. unfold Script.bind.
    rewrite fetch_into_manifests_run, IH. simpl.
    rewrite <- !app_assoc.
    by destruct (delivered urlopen loads url).
Qed.

Context (depth : nat).
Context (dump : string → json → Script.written).
Context (dumps : json → Script.answer string).

(** What [main] does, in one piece. *)
Lemma main_with_run urls s :
  Script.main_with urlopen loads depth dump dumps urls s =
  let docs := omap (delivered urlopen loads) urls in
  let out := Script.stdout s ++
             Script.Text "Fetching manifests..." ::
             concat (map (progress urlopen loads) urls) in
  let err := Script.stderr s ++ concat (map (complaints urlopen loads) urls) in
  let merging :=
    Script.Text (String.append Script.newline "Merging manifests...") in
  match docs with
  | [] =>
      (Script.Exited 1,
       {| Script.manifests := []; Script.stdout := out;
          Script.stderr :=
            err ++ [Script.Text "Error: No manifests could be fetched"];
          Script.files := Script.files s |})
  | _ :: _ =>
      match Script.merge_manifests_within depth docs Script.output_name with
      | Raise e =>
          (Script.Raised (Script.Builtin e),
           {| Script.manifests := docs; Script.stdout := out ++ [merging];
              Script.stderr := err; Script.files := Script.files s |})
      | Ok d =>
          match dump Script.output_file (JDict d) with
          | Script.NotOpened e =>
              (Script.Raised e,
               {| Script.manifests := docs;
                  Script.stdout := out ++ [merging];
                  Script.stderr := err; Script.files := Script.files s |})
          | Script.Broken e =>
              (Script.Raised e,
               {| Script.manifests := docs;
                  Script.stdout := out ++ [merging];
                  Script.stderr := err;
                  Script.files :=
                    dict_set Script.output_file Script.Partial
                      (Script.files s) |})
          | Script.Saved =>
              match dumps (JDict d) with
              | Script.Got text =>
                  (Script.Returned (),
                   {| Script.manifests := docs;
                      Script.stdout := out ++ report (length docs) d text;
                      Script.stderr := err;
                      Script.files :=
                        dict_set Script.output_file (Script.Whole (JDict d))
                          (Script.files s) |})
              | Script.Failed e =>
                  (Script.Raised e,
                   {| Script.manifests := docs;
                      Script.stdout := out ++ summary (length docs) d;
                      Script.stderr := err;
                      Script.files :=
                        dict_set Script.output_file (Script.Whole (JDict d))
                          (Script.files s) |})
              end
          end
      end
  end.
Proof.
  unfold Script.main_with.
  unfold Script.bind at 1. cbn [Script.print].
  unfold Script.bind at 1. cbn [Script.assign_manifests].
  unfold Script.bind at 1. rewrite fetch_loop_run.
  cbn [Script.manifests Script.stdout Script.stderr Script.files app].
  unfold Script.bind at 1. cbn [Script.read_manifests Script.manifests].
  rewrite <- app_assoc. cbn [app].
  destruct (omap (delivered urlopen loads) urls) as [|doc docs] eqn:Ed.
  - reflexivity.
  - cbn [truthy negb]. unfold Script.bind at 1. cbn [Script.ret].
    unfold Script.bind at 1. cbn [Script.print].
    unfold Script.bind at 1.
    destruct (Script.merge_manifests_within depth (doc :: docs)
                Script.output_name) as [d|e] eqn:Em; [|reflexivity].
    destruct (script_result_apps _ _ _ (merge_manifests_within_Ok _ _ _ _ Em))
      as [apps Ha].
    cbn [Script.lift Script.ret]. unfold Script.bind at 1.
    unfold Script.dump_to.
    destruct (dump Script.output_file (JDict d)) as [|e|e];
      [|reflexivity|reflexivity].
    unfold Script.write_file.
    cbn [Script.manifests Script.stdout Script.stderr Script.files].
    unfold Script.bind at 1. cbn [Script.print].
    unfold Script.bind at 1. unfold Script.lift, dict_getitem. rewrite Ha.
    cbn [bind py_len Script.ret Script.manifests Script.stdout Script.stderr
         Script.files].
    unfold Script.bind at 1. cbn [Script.print].
    unfold Script.bind at 1. cbn [Script.print].
    unfold Script.bind at 1. cbn [Script.print].
    unfold Script.bind at 1. cbn [Script.print].
    unfold Script.bind at 1. cbn [Script.print].
    unfold Script.bind at 1. unfold Script.call.
    cbn [Script.manifests Script.stdout Script.stderr Script.files].
    unfold report, summary. rewrite Ha.
    destruct (dumps (JDict d)) as [text|e];
      unfold Script.bind, Script.ret, Script.raise, Script.print;
      cbn [Script.manifests Script.stdout Script.stderr Script.files];
      rewrite <- !app_assoc; reflexivity.
Qed.

End script.

(** ** The script: what [main] ends with *)

Lemma omap_nil_iff {A B} (f : A → option B) (l : list A) :
  omap f l = [] ↔ ∀ x, x ∈ l → f x = None.
Proof.
  induction l as [|x l IH]; simpl.
  - split; [|done]. intros _ x Hx. by apply elem_of_nil in Hx.
  - destruct (f x) as [y|] eqn:E.
    + split; [done|]. intros H. specialize (H x ltac:(left)). congruence.
    + rewrite IH. split.
      * intros H y [->|Hy]%elem_of_cons; auto.
      * intros H y Hy. apply H. by right.
Qed.

Lemma omap_filter_is_Some {A B} (f : A → option B) (l : list A) :
  omap f (filter (λ x, is_Some (f x)) l) = omap f l.
Proof.
  induction l as [|x l IH]; [done|]. rewrite filter_cons.
  destruct (decide (is_Some (f x))) as [[y Hy]|Hn]; csimpl.
  - by rewrite Hy, IH.
  - destruct (f x) as [y|] eqn:E; [|done]. destruct Hn. by eexists.
Qed.

Lemma elem_of_omap_1 {A B} (f : A → option B) (l : list A) x y :
  x ∈ l → f x = Some y → y ∈ omap f l.
Proof. intros Hx Hy. apply list_elem_of_omap. eauto. Qed.

Lemma elem_of_concat_map_1 {A B} (f : A → list B) l x y :
  x ∈ l → y ∈ f x → y ∈ concat (map f l).
Proof. intros Hx Hy. apply elem_of_concat_map. eauto. Qed.

(** [main] as [main_with_run] has it, with the name and the file spelled
    out. *)
Ltac main_cases :=
  cbv zeta; rewrite ?main_with_run; cbv zeta;
  change Script.output_name with "OctoNezd's Merged Repository";
  change Script.output_file with "merged_altstore.json".

Section script_properties.

Context (urlopen : string → Script.answer string).
Context (loads : string → Script.answer json).

(** X6.  [fetch_manifest] returns the parsed document when the request and
    the parser succeed.  Otherwise it raises the very exception the request
    or the parser raised, after one line on [stderr] for a [URLError] or a
    [JSONDecodeError] and none for any other exception.  It writes nothing
    to [stdout] and touches no file. *)
Theorem fetch_manifest_passes_errors_on url s :
  match urlopen url with
  | Script.Got data =>
      match loads data with
      | Script.Got doc =>
          Script.fetch_manifest urlopen loads url s = (Script.Returned doc, s)
      | Script.Failed e =>
          ∃ s', Script.fetch_manifest urlopen loads url s =
                (Script.Raised e, s') ∧
            Script.stdout s' = Script.stdout s ∧
            Script.files s' = Script.files s ∧
            Script.manifests s' = Script.manifests s ∧
            Script.stderr s' =
              Script.stderr s ++
              match e with
              | Script.URLError _ => [Script.ErrorFetching url e]
              | Script.JSONDecodeError _ => [Script.ErrorParsing url e]
              | _ => []
              end
      end
  | Script.Failed e =>
      ∃ s', Script.fetch_manifest urlopen loads url s =
            (Script.Raised e, s') ∧
        Script.stdout s' = Script.stdout s ∧
        Script.files s' = Script.files s ∧
        Script.manifests s' = Script.manifests s ∧
        Script.stderr s' =
          Script.stderr s ++
          match e with
          | Script.URLError _ => [Script.ErrorFetching url e]
          | Script.JSONDecodeError _ => [Script.ErrorParsing url e]
          | _ => []
          end
  end.
Proof.
  pose proof (fetch_manifest_run urlopen loads url s) as H.
  unfold fetched in H.
  destruct (urlopen url) as [data|e]; [destruct (loads data) as [doc|e]|];
    [done| |]; rewrite H; eexists; repeat split; done.
Qed.

Context (depth : nat).
Context (dump : string → json → Script.written).
Context (dumps : json → Script.answer string).

(** X7.  [main] ends with [sys.exit(1)] exactly when no source delivered a
    document; it then has written no file, and the last line on [stderr]
    says that no manifest could be fetched.  It calls [sys.exit] with no
    other status. *)
Theorem main_exits_iff_nothing_fetched urls s :
  let r := Script.main_with urlopen loads depth dump dumps urls s in
  (r.1 = Script.Exited 1 ↔
   ∀ url, url ∈ urls → delivered urlopen loads url = None) ∧
  (∀ code, r.1 = Script.Exited code →
     code = 1 ∧
     Script.files r.2 = Script.files s ∧
     last (Script.stderr r.2) =
       Some (Script.Text "Error: No manifests could be fetched")).
Proof.
  main_cases. rewrite <- omap_nil_iff.
  destruct (omap (delivered urlopen loads) urls) as [|doc docs].
  - cbn [fst snd]. split; [done|]. intros code [= <-].
    cbn [Script.files Script.stderr]. by rewrite last_snoc.
  - destruct (Script.merge_manifests_within _ _ _) as [d|e];
      [destruct (dump _ _); [destruct (dumps _)| |]|];
      cbn [fst]; split; try done; by split.
Qed.



(** X10.  A source that fails is skipped: [main] ends in the same way, with
    the same files and the same manifests merged, as it does on the list of
    those URLs only that deliver a document. *)
Theorem main_skips_failed_sources urls s :
  let good := filter (λ url, is_Some (delivered urlopen loads url)) urls in
  let r := Script.main_with urlopen loads depth dump dumps urls s in
  let r' := Script.main_with urlopen loads depth dump dumps good s in
  r.1 = r'.1 ∧
  Script.files r.2 = Script.files r'.2 ∧
  Script.manifests r.2 = Script.manifests r'.2.
Proof.
  main_cases. rewrite omap_filter_is_Some.
  destruct (omap (delivered urlopen loads) urls) as [|doc docs]; [done|].
  destruct (Script.merge_manifests_within _ _ _); [|done].
  destruct (dump _ _); [|done..]. by destruct (dumps _).
Qed.

(** X11.  [main] appends a document to [manifests] before it counts the
    apps.  A delivered document whose apps cannot be counted is reported on
    [stderr] as failed to fetch, and is merged all the same; [main] does
    not exit for want of manifests. *)
Theorem main_merges_what_it_reports_failed urls s url doc e :
  url ∈ urls →
  fetched urlopen loads url = Script.Got doc →
  Script.app_count doc = Raise e →
  let r := Script.main_with urlopen loads depth dump dumps urls s in
  Script.FailedToFetch url (Script.Builtin e) ∈ Script.stderr r.2 ∧
  doc ∈ Script.manifests r.2 ∧
  (∀ code, r.1 ≠ Script.Exited code).
Proof.
  intros Hurl Hdoc He. main_cases.
  assert (doc ∈ omap (delivered urlopen loads) urls) as Hin.
  { apply (elem_of_omap_1 _ _ url); [done|]. unfold delivered.
    by rewrite Hdoc. }
  assert (Script.FailedToFetch url (Script.Builtin e) ∈
          Script.stderr s ++ concat (map (complaints urlopen loads) urls))
    as Herr.
  { apply elem_of_app. right. apply (elem_of_concat_map_1 _ _ url); [done|].
    unfold complaints. rewrite Hdoc, He. by left. }
  destruct (omap (delivered urlopen loads) urls) as [|d0 docs];
    [by apply elem_of_nil in Hin|].
  destruct (Script.merge_manifests_within _ _ _); [|done].
  destruct (dump _ _); [|done..]. by destruct (dumps _).
Qed.

Lemma verdicts_per_source urls :
  (length (List.filter is_found (concat (map (progress urlopen loads) urls))) +
   length (List.filter is_failed
             (concat (map (complaints urlopen loads) urls))))%nat
  = length urls.
Proof.
  induction urls as [|url urls IH]; [done|]. cbn [map concat].
  rewrite !List.filter_app, !length_app.
  assert ((length (List.filter is_found (progress urlopen loads url)) +
           length (List.filter is_failed (complaints urlopen loads url)))%nat
          = 1%nat) as H1.
  { unfold progress, complaints.
    destruct (fetched urlopen loads url) as [doc|e].
    - by destruct (Script.app_count doc).
    - by destruct e. }
  cbn [length]. lia.
Qed.

(** X12.  Every source gets one verdict: among the lines [main] adds, the
    [Found] lines on [stdout] and the [Failed to fetch] lines on [stderr]
    are together as many as there are URLs. *)
Theorem main_gives_each_source_one_verdict urls s :
  let r := Script.main_with urlopen loads depth dump dumps urls s in
  ∃ out err,
    Script.stdout r.2 = Script.stdout s ++ out ∧
    Script.stderr r.2 = Script.stderr s ++ err ∧
    (length (List.filter is_found out) +
     length (List.filter is_failed err))%nat = length urls.
Proof.
  main_cases.
  pose proof (verdicts_per_source urls) as Hv.
  destruct (omap (delivered urlopen loads) urls) as [|doc docs];
    [|destruct (Script.merge_manifests_within _ _ _) as [d|e];
      [destruct (dump _ _); [destruct (dumps _)| |]|]];
    cbn [snd Script.stdout Script.stderr].
  - eexists _, _. split; [reflexivity|]. split; [by rewrite <- app_assoc|].
    cbn [List.filter is_found]. rewrite List.filter_app, length_app.
    cbn [List.filter is_failed length]. lia.
  - eexists _, _. split; [by rewrite <- app_assoc|]. split; [reflexivity|].
    cbn [app List.filter is_found]. rewrite List.filter_app, length_app.
    unfold report, summary. cbn [app List.filter is_found length]. lia.
  - eexists _, _. split; [by rewrite <- app_assoc|]. split; [reflexivity|].
    cbn [app List.filter is_found]. rewrite List.filter_app, length_app.
    unfold summary. cbn [List.filter is_found length]. lia.
  - eexists _, _. split; [by rewrite <- app_assoc|]. split; [reflexivity|].
    cbn [app List.filter is_found]. rewrite List.filter_app, length_app.
    cbn [List.filter is_found length]. lia.
  - eexists _, _. split; [by rewrite <- app_assoc|]. split; [reflexivity|].
    cbn [app List.filter is_found]. rewrite List.filter_app, length_app.
    cbn [List.filter is_found length]. lia.
  - eexists _, _. split; [by rewrite <- app_assoc|]. split; [reflexivity|].
    cbn [app List.filter is_found]. rewrite List.filter_app, length_app.
    cbn [List.filter is_found length]. lia.
Qed.

End script_properties.

(** ** The result shares its apps and news with the arguments *)

Section sharing.

Context (h0 : Store.heap) (manifests : Store.val).

Lemma sharing_unchanged h : sharing h0 manifests h → unchanged h0 h.
Proof. by intros [[? _] _]. Qed.

(** Writing to an object the call has made, other than the two lists and
    the result, keeps the invariant. *)
Lemma sharing_insert h l o :
  (length h0 + 2 < l)%nat →
  sharing h0 manifests h → sharing h0 manifests (<[l := o]> h).
Proof.
  intros Hl [Hb (va & vn & Ha & Hn & HFa & HFn)].
  split; [apply building_insert; [lia|lia|done]|].
  exists va, vn. by rewrite !list_lookup_insert_ne by lia.
Qed.

Lemma closed_object l o :
  closed h0 = true → h0 !! l = Some o →
  match o with
  | Store.OList xs | Store.OSet xs => ∀ x, x ∈ xs → known h0 x = true
  | Store.ODict kvs => ∀ kv, kv ∈ kvs → known h0 (snd kv) = true
  end.
Proof.
  intros Hc Hl. unfold closed in Hc. rewrite forallb_forall in Hc.
  specialize (Hc o (proj1 (list_elem_of_In _ _)
                      (list_elem_of_lookup_2 _ _ _ Hl))).
  destruct o as [xs|kvs|xs]; rewrite forallb_forall in Hc;
    intros x Hx; by apply Hc, list_elem_of_In.
Qed.

(** In a closed heap the elements of a value are values of the heap. *)
Lemma elems_known v x :
  closed h0 = true → x ∈ elems h0 v → known h0 x = true.
Proof.
  intros Hc. destruct v as [| | |s|l]; simpl;
    try (by intros ?%elem_of_nil).
  - induction s as [|c s IH]; simpl; [by intros ?%elem_of_nil|].
    intros [->|Hx]%elem_of_cons; auto.
  - destruct (h0 !! l) as [o|] eqn:Hl; [|by intros ?%elem_of_nil].
    pose proof (closed_object l o Hc Hl) as Ho.
    destruct o as [xs|kvs|xs]; auto.
    by intros (kv & -> & _)%list_elem_of_fmap.
Qed.

Lemma getitem_known m k c :
  closed h0 = true → Store.py_getitem h0 m k = Ok c → known h0 c = true.
Proof.
  intros Hc. destruct m as [| | | |l]; simpl; try done.
  destruct (h0 !! l) as [[xs|kvs|xs]|] eqn:Hl; try done.
  destruct (dict_get k kvs) as [x|] eqn:Hk; [|done]. intros [= <-].
  apply (closed_object l _ Hc Hl (k, x)). by apply dict_get_elem_of.
Qed.

(** A value of [h0] has the same item after the call's writes. *)
Lemma getitem_unchanged h m k :
  unchanged h0 h → known h0 m = true →
  Store.py_getitem h m k = Store.py_getitem h0 m k.
Proof.
  intros Hu Hm. destruct m as [| | | |l]; simpl; try done.
  simpl in Hm. apply bool_decide_eq_true in Hm.
  destruct (lookup_lt_is_Some_2 h0 l Hm) as [o Ho].
  by rewrite Ho, (Hu _ _ Ho).
Qed.

Lemma append_apps_sharing x :
  item_of h0 manifests "apps" x →
  hoare (sharing h0 manifests)
    (Store.py_append (Store.VRef (length h0)) x) (λ _, True).
Proof.
  intros Hx. apply hoare_true.
  intros h [Hb (va & vn & Ha & Hn & HFa & HFn)].
  unfold Store.py_append. rewrite Ha. simpl.
  split; [apply building_insert; [lia|lia|done]|].
  exists (va ++ [x]), vn.
  rewrite list_lookup_insert_eq by (by eapply lookup_lt_Some).
  rewrite list_lookup_insert_ne by lia.
  repeat split; try done. apply Forall_app. split; [done|]. by constructor.
Qed.

Lemma append_news_sharing x :
  item_of h0 manifests "news" x →
  hoare (sharing h0 manifests)
    (Store.py_append (Store.VRef (S (length h0))) x) (λ _, True).
Proof.
  intros Hx. apply hoare_true.
  intros h [Hb (va & vn & Ha & Hn & HFa & HFn)].
  unfold Store.py_append. rewrite Hn. simpl.
  split; [apply building_insert; [lia|lia|done]|].
  exists va, (vn ++ [x]).
  rewrite list_lookup_insert_eq by (by eapply lookup_lt_Some).
  rewrite list_lookup_insert_ne by lia.
  repeat split; try done. apply Forall_app. split; [done|]. by constructor.
Qed.

Lemma add_sharing depth x :
  hoare (sharing h0 manifests)
    (Store.py_add depth (Store.VRef (length h0 + 3)) x) (λ _, True).
Proof.
  apply hoare_true. intros h Hh. unfold Store.py_add.
  destruct (h !! _) as [[|  |xs]|]; try done.
  destruct (Store.hashable h x); [|done].
  destruct (Store.any_ok _ xs) as [[]|]; try done. simpl.
  apply sharing_insert; [lia|done].
Qed.

Lemma getitem_apps_sharing :
  hoare (sharing h0 manifests)
    (Store.look (λ h, Store.py_getitem h (Store.VRef (length h0 + 2)) "apps"))
    (λ v, v = Store.VRef (length h0)).
Proof.
  apply hoare_look. intros h a [(_ & d & Hd & Ha & _) _].
  unfold Store.py_getitem. rewrite Hd, Ha. by intros [= <-].
Qed.

Lemma getitem_news_sharing :
  hoare (sharing h0 manifests)
    (Store.look (λ h, Store.py_getitem h (Store.VRef (length h0 + 2)) "news"))
    (λ v, v = Store.VRef (S (length h0))).
Proof.
  apply hoare_look. intros h a [(_ & d & Hd & _ & Hn) _].
  unfold Store.py_getitem. rewrite Hd, Hn. by intros [= <-].
Qed.

Lemma merge_app_sharing depth app :
  item_of h0 manifests "apps" app →
  hoare (sharing h0 manifests)
    (Store.merge_app depth (Store.VRef (length h0 + 2))
       (Store.VRef (length h0 + 3)) app)
    (λ _, True).
Proof.
  intros Happ. unfold Store.merge_app.
  eapply hoare_bind; [apply look_any|]. intros bundle_id _.
  eapply hoare_bind; [apply look_any|]. intros nonempty _.
  eapply hoare_bind with (Q := λ _, True).
  { destruct nonempty; [|by apply hoare_ret].
    eapply hoare_bind; [apply look_any|]. intros ? _. by apply hoare_ret. }
  intros [] _.
  - eapply hoare_bind; [apply getitem_apps_sharing|]. intros ? ->.
    eapply hoare_bind; [by apply append_apps_sharing|]. intros _ _.
    apply add_sharing.
  - destruct (negb nonempty); [|by apply hoare_ret].
    eapply hoare_bind; [apply getitem_apps_sharing|]. intros ? ->.
    by apply append_apps_sharing.
Qed.

Lemma merge_news_item_sharing depth item :
  item_of h0 manifests "news" item →
  hoare (sharing h0 manifests)
    (Store.merge_news_item depth (Store.VRef (length h0 + 2)) item)
    (λ _, True).
Proof.
  intros Hitem. unfold Store.merge_news_item.
  eapply hoare_bind; [apply look_any|]. intros news _.
  eapply hoare_bind; [apply look_any|]. intros found _.
  destruct (negb found); [|by apply hoare_ret].
  eapply hoare_bind; [apply getitem_news_sharing|]. intros ? ->.
  by apply append_news_sharing.
Qed.

(** A loop over a value of [h0] runs its body on the elements that value
    had in [h0], whatever the body writes to the objects of the call. *)
Section loops.
Context (I : Store.heap → Prop) (body : Store.val → Store.M unit).
Hypothesis HI : ∀ h, I h → unchanged h0 h.

Lemma for_values_elems xs :
  (∀ x, x ∈ xs → hoare I (body x) (λ _, True)) →
  hoare I (Store.for_values body xs) (λ _, True).
Proof.
  induction xs as [|x xs IH]; intros Hbody; simpl; [by apply hoare_ret|].
  eapply hoare_bind; [apply Hbody; left|]. intros _ _.
  apply IH. intros y Hy. apply Hbody. by right.
Qed.

Lemma for_list_elems fuel l xs i :
  h0 !! l = Some (Store.OList xs) →
  (∀ x, x ∈ xs → hoare I (body x) (λ _, True)) →
  hoare I (Store.for_list fuel body l i) (λ _, True).
Proof.
  intros Hl Hbody. revert i. induction fuel as [|fuel IH]; intros i;
    apply hoare_true; intros h Hh; simpl; [done|].
  rewrite (HI h Hh _ _ Hl).
  destruct (xs !! i) as [x|] eqn:Hx; [|done].
  refine (proj1 (hoare_bind I (body x) _ _ _ _ _ h Hh)).
  - apply Hbody. by eapply list_elem_of_lookup_2.
  - intros _ _. apply IH.
Qed.

Lemma for_keys_elems fuel l o size i :
  h0 !! l = Some o →
  (∀ x, x ∈ elems h0 (Store.VRef l) → hoare I (body x) (λ _, True)) →
  hoare I (Store.for_keys fuel body l size i) (λ _, True).
Proof.
  intros Hl Hbody. revert i. induction fuel as [|fuel IH]; intros i;
    apply hoare_true; intros h Hh; simpl; [done|].
  rewrite (HI h Hh _ _ Hl). destruct (negb _); [done|].
  match goal with |- context [?keys !! i] =>
    destruct (keys !! i) as [x|] eqn:Hx end; [|done].
  refine (proj1 (hoare_bind I (body x) _ _ _ _ _ h Hh)).
  - apply Hbody. simpl. rewrite Hl. apply list_elem_of_lookup_2 in Hx.
    destruct o; [by apply elem_of_nil in Hx|done..].
  - intros _ _. apply IH.
Qed.

Lemma for_in_elems fuel v :
  known h0 v = true →
  (∀ x, x ∈ elems h0 v → hoare I (body x) (λ _, True)) →
  hoare I (Store.for_in fuel v body) (λ _, True).
Proof.
  intros Hv Hbody. destruct v as [| | |s|l]; simpl;
    try apply hoare_raise.
  - by apply for_values_elems.
  - simpl in Hv. apply bool_decide_eq_true in Hv.
    destruct (lookup_lt_is_Some_2 h0 l Hv) as [o Ho].
    apply hoare_true. intros h Hh. rewrite (HI h Hh _ _ Ho).
    destruct o as [xs|kvs|xs].
    + apply (for_list_elems fuel l xs 0 Ho); [|done].
      intros x Hx. apply Hbody. simpl. by rewrite Ho.
    + by apply (for_keys_elems fuel l _ _ 0 Ho).
    + by apply (for_keys_elems fuel l _ _ 0 Ho).
Qed.

End loops.

Hypothesis Hclosed : closed h0 = true.

Lemma merge_manifest_sharing fuel depth manifest :
  manifest ∈ elems h0 manifests →
  hoare (sharing h0 manifests)
    (Store.merge_manifest fuel depth (Store.VRef (length h0 + 2))
       (Store.VRef (length h0 + 3)) manifest) (λ _, True).
Proof.
  intros Hm. pose proof (elems_known _ _ Hclosed Hm) as Hkm.
  assert (∀ key, hoare (sharing h0 manifests)
            (Store.look (λ h, Store.py_getitem h manifest key))
            (λ c, Store.py_getitem h0 manifest key = Ok c)) as Hget.
  { intros key. apply hoare_look. intros h c Hh.
    by rewrite (getitem_unchanged h _ _ (sharing_unchanged h Hh) Hkm). }
  unfold Store.merge_manifest.
  eapply hoare_bind; [apply look_any|]. intros has_apps _.
  eapply hoare_bind with (Q := λ _, True).
  { destruct has_apps; [|by apply hoare_ret].
    eapply hoare_bind; [apply Hget|]. intros apps Happs.
    apply for_in_elems;
      [apply sharing_unchanged|exact (getitem_known _ _ _ Hclosed Happs)|].
    intros x Hx. apply merge_app_sharing. by exists manifest, apps. }
  intros _ _.
  eapply hoare_bind; [apply look_any|]. intros has_news _.
  destruct has_news; [|by apply hoare_ret].
  eapply hoare_bind; [apply Hget|]. intros news Hnews.
  apply for_in_elems;
    [apply sharing_unchanged|exact (getitem_known _ _ _ Hclosed Hnews)|].
  intros x Hx. apply merge_news_item_sharing. by exists manifest, news.
Qed.

Lemma copy_key_sharing depth first key :
  key ≠ "apps" → key ≠ "news" →
  hoare (sharing h0 manifests)
    (Store.copy_key depth first (Store.VRef (length h0 + 2)) key)
    (λ _, True).
Proof.
  intros Ha Hn. unfold Store.copy_key.
  eapply hoare_bind; [apply look_any|]. intros present _.
  destruct present; [|by apply hoare_ret].
  eapply hoare_bind; [apply look_any|]. intros v _.
  apply hoare_true.
  intros h [[Hu (d & Hd & Hda & Hdn)] (va & vn & Hva & Hvn & HFa & HFn)].
  unfold Store.py_setitem. rewrite Hd. simpl. split.
  - split; [apply unchanged_insert; [lia|done]|].
    exists (dict_set key v d).
    rewrite list_lookup_insert_eq by (by eapply lookup_lt_Some).
    by rewrite !dict_get_set_ne.
  - exists va, vn. by rewrite !list_lookup_insert_ne by lia.
Qed.

Lemma copy_keys_sharing depth first keys :
  Forall (λ k, k ≠ "apps" ∧ k ≠ "news") keys →
  hoare (sharing h0 manifests)
    (Store.for_keys_of
       (Store.copy_key depth first (Store.VRef (length h0 + 2))) keys)
    (λ _, True).
Proof.
  induction 1 as [|k keys [Ha Hn] _ IH]; simpl; [by apply hoare_ret|].
  eapply hoare_bind; [by apply copy_key_sharing|]. by intros _ _.
Qed.

(** A call that returns has built the result as its third object, and its
    [apps] and [news], the first and the second, hold elements of the
    manifests' [apps] and [news]. *)
Lemma merge_manifests_sharing fuel depth name r h' :
  known h0 manifests = true →
  Store.merge_manifests fuel depth manifests name h0 = (Store.Done r, h') →
  r = Store.VRef (length h0 + 2) ∧ sharing h0 manifests h'.
Proof.
  intros Hk. unfold Store.merge_manifests. rewrite bind_look.
  destruct (Store.truthy h0 manifests); cbn [negb]; [|done].
  rewrite !bind_alloc, !length_app. cbn [length].
  replace (length h0 + 1 + 1)%nat with (length h0 + 2)%nat by lia.
  replace (length h0 + 2 + 1)%nat with (length h0 + 3)%nat by lia.
  replace (length h0 + 1)%nat with (S (length h0)) by lia.
  match goal with
  | |- context [Store.bind _ _ ?h] => set (h1 := h)
  end.
  assert (sharing h0 manifests h1) as H1.
  { split; [split|].
    - by do 4 apply unchanged_alloc; apply unchanged_refl.
    - eexists. split.
      + unfold h1. rewrite <- !app_assoc. simpl.
        rewrite lookup_app_r by lia.
        replace (length h0 + 2 - length h0)%nat with 2%nat by lia.
        reflexivity.
      + split; reflexivity.
    - exists [], []. unfold h1. rewrite <- !app_assoc. simpl.
      rewrite !lookup_app_r by lia.
      replace (length h0 - length h0)%nat with 0%nat by lia.
      replace (S (length h0) - length h0)%nat with 1%nat by lia.
      repeat split; done. }
  match goal with
  | |- Store.bind ?m ?k h1 = _ → _ =>
      assert (hoare (sharing h0 manifests) m (λ _, True)) as Hloop
        by (apply for_in_elems; [apply sharing_unchanged|done|];
            intros x Hx; by apply merge_manifest_sharing);
      destruct (Hloop h1 H1) as [H2 _]; unfold Store.bind at 1;
      destruct (m h1) as [[[]|e|] h2]; simpl in H2; [|done..]
  end.
  rewrite bind_look. cbn iota.
  match goal with
  | |- Store.bind ?m ?k h2 = _ → _ =>
      assert (hoare (sharing h0 manifests) m (λ _, True)) as Hkeys
  end.
  { destruct (Store.truthy h2 manifests); [|by apply hoare_ret].
    eapply hoare_bind; [apply look_any|]. intros first _.
    apply copy_keys_sharing. unfold Merge.metadata_keys.
    repeat (apply List.Forall_cons; [done|]). apply List.Forall_nil. }
  destruct (Hkeys h2 H2) as [H3 _]. unfold Store.bind at 1.
  match goal with
  | |- match ?m h2 with _ => _ end = _ → _ =>
      destruct (m h2) as [[[]|e|] h3]; simpl in H3; [|done..]
  end.
  unfold Store.ret. by intros [= <- <-].
Qed.

(** X13.  The merge copies no app and no news item.  In a heap whose
    references are all to objects of the heap, a call on a value of that
    heap that returns has made the result and its two lists, and every
    value in the result's [apps] is an element of [m["apps"]] for an element
    [m] of the argument, every value in its [news] an element of
    [m["news"]]: the value itself, so that a reference among them is to the
    manifest's own object, one the caller had before the call, and which is
    still as it was.  Writing to an app through the result writes to the
    manifest it came from. *)
Theorem result_shares_its_items name fuel depth r h' :
  known h0 manifests = true →
  Store.merge_manifests fuel depth manifests name h0 = (Store.Done r, h') →
  ∃ kvs va vn,
    r = Store.VRef (length h0 + 2) ∧
    h' !! (length h0 + 2)%nat = Some (Store.ODict kvs) ∧
    dict_get "apps" kvs = Some (Store.VRef (length h0)) ∧
    dict_get "news" kvs = Some (Store.VRef (S (length h0))) ∧
    h' !! length h0 = Some (Store.OList va) ∧
    h' !! S (length h0) = Some (Store.OList vn) ∧
    (∀ x, x ∈ va → item_of h0 manifests "apps" x) ∧
    (∀ x, x ∈ vn → item_of h0 manifests "news" x) ∧
    ∀ x l, x ∈ va ++ vn → x = Store.VRef l →
           (l < length h0)%nat ∧ h' !! l = h0 !! l.
Proof.
  intros Hk Hrun.
  destruct (merge_manifests_sharing _ _ _ _ _ Hk Hrun)
    as [-> [(Hu & kvs & Hkvs & Ha & Hn) (va & vn & Hva & Hvn & HFa & HFn)]].
  rewrite Forall_forall in HFa, HFn.
  exists kvs, va, vn. do 6 (split; [done|]).
  split; [exact HFa|]. split; [exact HFn|]. intros x l Hx ->.
  assert (known h0 (Store.VRef l) = true) as Hl.
  { apply elem_of_app in Hx as [Hx|Hx].
    - destruct (HFa _ Hx) as (m & c & _ & _ & Hc). by eapply elems_known.
    - destruct (HFn _ Hx) as (m & c & _ & _ & Hc). by eapply elems_known. }
  simpl in Hl. apply bool_decide_eq_true in Hl. split; [done|].
  destruct (lookup_lt_is_Some_2 h0 l Hl) as [o Ho].
  by rewrite Ho, (Hu _ _ Ho).
Qed.

End sharing.

(** ** Manifests that are no objects *)

Lemma for_each_Ok_elem {A S} (body : A → S → result S) xs s s' x :
  for_each body xs s = Ok s' → x ∈ xs → ∃ s1 s2, body x s1 = Ok s2.
Proof.
  revert s. induction xs as [|y xs IH]; intros s H Hx;
    [by apply elem_of_nil in Hx|].
  cbn [for_each] in H. apply bind_Ok in H as (s1 & Hy & H).
  apply elem_of_cons in Hx as [->|Hx]; [by eauto|by eapply IH].
Qed.

Lemma script_merge_manifest_none m st :
  py_in (JStr "apps") m = Ok false → py_in (JStr "news") m = Ok false →
  Script.merge_manifest m st = Ok st.
Proof. intros Ha Hn. unfold Script.merge_manifest. by rewrite Ha, Hn. Qed.

Lemma script_copy_keys_none first keys d :
  (∀ k, k ∈ keys → py_in (JStr k) first = Ok false) →
  for_each (Script.copy_key first) keys d = Ok d.
Proof.
  induction keys as [|k keys IH]; intros H; [done|]. cbn [for_each].
  unfold Script.copy_key at 1. rewrite (H k) by left. cbn [bind].
  apply IH. intros k' Hk'. apply H. by right.
Qed.

Lemma script_loop_none ms1 m ms2 st :
  py_in (JStr "apps") m = Ok false → py_in (JStr "news") m = Ok false →
  for_each Script.merge_manifest (ms1 ++ m :: ms2) st =
  for_each Script.merge_manifest (ms1 ++ JDict [] :: ms2) st.
Proof.
  intros Ha Hn. rewrite !for_each_app.
  destruct (for_each Script.merge_manifest ms1 st) as [st1|e]; [|done].
  cbn [bind for_each]. by rewrite !script_merge_manifest_none.
Qed.

(** X14.  [merge_manifests] on documents that are no objects.  It returns
    only if every manifest is an object, an array or a string: [null], a
    boolean or a number raises.  A manifest in which none of the nine keys
    the merge reads is found (as a key of an object, an element of an array
    or a part of a string) is merged as the empty object is, wherever it
    stands in the list. *)
Theorem manifests_that_are_no_objects :
  (∀ ms name r, Script.merge_manifests ms name = Ok r →
     ∀ m, m ∈ ms → iterable m = true) ∧
  (∀ ms1 m ms2 name,
     (∀ key, key ∈ "apps" :: "news" :: Merge.metadata_keys →
             py_in (JStr key) m = Ok false) →
     Script.merge_manifests (ms1 ++ m :: ms2) name =
     Script.merge_manifests (ms1 ++ JDict [] :: ms2) name).
Proof.
  split.
  - intros ms name r Hr m Hm. destruct ms as [|first rest]; [done|].
    unfold Script.merge_manifests in Hr.
    apply bind_Ok in Hr as (st & Hloop & _).
    destruct (for_each_Ok_elem _ _ _ _ _ Hloop Hm) as (s1 & s2 & Hbody).
    by destruct m.
  - intros ms1 m ms2 name Hkeys.
    assert (py_in (JStr "apps") m = Ok false) as Ha by (apply Hkeys; left).
    assert (py_in (JStr "news") m = Ok false) as Hn
      by (apply Hkeys; right; left).
    assert (∀ k, k ∈ Merge.metadata_keys → py_in (JStr k) m = Ok false)
      as Hmeta by (intros k Hk; apply Hkeys; by do 2 right).
    destruct ms1 as [|first ms1]; unfold Script.merge_manifests; cbn [app].
    + rewrite (script_loop_none [] m ms2 _ Ha Hn). cbn [app].
      destruct (for_each Script.merge_manifest _ _) as [st|e]; [|done].
      cbn [bind]. by rewrite !script_copy_keys_none.
    + by rewrite (script_loop_none (first :: ms1) m ms2 _ Ha Hn).
Qed.

(** ** The script from end to end *)



(** X16.  [main] asks for the manifest of oldlander first and for that of
    VNDS-LOVE-TOUCH second: the manifests it merges are the documents these
    two URLs deliver, in this order, each one if it is delivered.  When
    [main] returns, the file holds the merge of exactly these manifests. *)
Theorem main_asks_oldlander_first
    (urlopen : string → Script.answer string)
    (loads : string → Script.answer json)
    (depth : nat)
    (dump : string → json → Script.written)
    (dumps : json → Script.answer string) s :
  let r := Script.main urlopen loads depth dump dumps s in
  Script.manifests r.2 =
    option_list
      (delivered urlopen loads
         "https://github.com/OctoNezd/oldlander/releases/latest/download/altStoreManifest.json")
    ++
    option_list
      (delivered urlopen loads
         "https://github.com/OctoNezd/VNDS-LOVE-TOUCH/releases/latest/download/altStoreManifest.json")
  ∧
  (r.1 = Script.Returned () →
   ∃ d, Script.merge_manifests (Script.manifests r.2)
          "OctoNezd's Merged Repository" = Ok d ∧
        Script.merge_manifests_within depth (Script.manifests r.2)
          "OctoNezd's Merged Repository" = Ok d ∧
        dict_get "merged_altstore.json" (Script.files r.2) =
          Some (Script.Whole (JDict d))).
Proof.
  unfold Script.main. main_cases.
  assert (omap (delivered urlopen loads) Script.urls =
          option_list
            (delivered urlopen loads
               "https://github.com/OctoNezd/oldlander/releases/latest/download/altStoreManifest.json")
          ++
          option_list
            (delivered urlopen loads
               "https://github.com/OctoNezd/VNDS-LOVE-TOUCH/releases/latest/download/altStoreManifest.json"))
    as Hdocs.
  { unfold Script.urls. csimpl.
    by destruct (delivered urlopen loads _), (delivered urlopen loads _). }
  rewrite <- Hdocs.
  destruct (omap (delivered urlopen loads) Script.urls) as [|doc docs];
    [done|].
  destruct (Script.merge_manifests_within depth (doc :: docs) _)
    as [d|e] eqn:Em; [|done].
  destruct (dump _ _); [|done..]. destruct (dumps _); [|done].
  cbn [fst snd Script.manifests Script.files].
  split; [done|]. intros _. exists d.
  split; [by eapply merge_manifests_within_Ok|]. split; [done|].
  apply dict_get_set_eq.
Qed.

(** ** The two models on the example, and instances of the theorems *)

(** On the example the merge on the heap returns a reference to a new
    dictionary, and the document read from it is the result of the merge on
    trees. *)
Example store_agrees_on_example :
  ∃ r h',
    Store.merge_manifests 100 100 example_ref "Repo" example_heap
      = (Store.Done r, h') ∧
    Store.dump 10 h' r =
    match Merge.merge_manifests example_manifests "Repo" with
    | Ok d => Some (JDict d)
    | Raise _ => None
    end.
Proof. do 2 eexists. split; vm_compute; reflexivity. Qed.

(** With one level of recursion the comparison of the two news items of
    [example_nested] raises [RecursionError], in [main]'s merge and on the
    heap; with two levels the merge returns, and the item is kept once. *)
Example limit_hit_on_example :
  Script.merge_manifests_within 1 [JDict example_nested] "Repo" =
    Raise RecursionError ∧
  (Store.merge_manifests 100 1
     match (Store.load (JList [JDict example_nested]) []).1 with
     | Store.Done v => v
     | _ => Store.VNone
     end "Repo" (Store.load (JList [JDict example_nested]) []).2).1 =
    Store.Raised RecursionError ∧
  Script.merge_manifests_within 2 [JDict example_nested] "Repo" =
    Ok (shape "Repo" [] [JList [JInt 1]]).
Proof. repeat split; vm_compute; reflexivity. Qed.

Lemma C1_apps_dedup_first_seen_witness :
  example_manifests ≠ [] ∧
  ∃ r, Merge.merge_manifests example_manifests "Repo" = Ok r ∧
    ∃ apps, dict_get "apps" r = Some (JList apps) ∧
      apps `sublist_of` all_apps example_manifests ∧
      filter (λ a, truthy (app_id a) = false) apps =
      filter (λ a, truthy (app_id a) = false) (all_apps example_manifests) ∧
      apps = first_seen identifier_taken (all_apps example_manifests).
Proof.
  split; [done|]. eexists. split; [reflexivity|].
  destruct (C1_apps_dedup_first_seen example_manifests "Repo" _
              ltac:(done) eq_refl) as (apps & H1 & H2 & _ & _ & H3 & H4).
  exists apps. repeat split; assumption.
Defined.

Lemma C2_first_occurrence_wins_witness :
  dict_get "apps" spec_B =
    Some (JList ([] ++ JDict [("bundleIdentifier", JStr "x"); ("v", JInt 2)]
                    :: [JDict [("bundleIdentifier", JStr "y"); ("v", JInt 1)]]))
  ∧ Merge.merge_manifests ([spec_A] ++ spec_B :: []) "Repo" =
    Merge.merge_manifests
      ([spec_A] ++
       dict_set "apps"
         (JList ([] ++ [JDict [("bundleIdentifier", JStr "y"); ("v", JInt 1)]]))
         spec_B :: []) "Repo".
Proof.
  split; [reflexivity|].
  apply (proj2 C2_first_occurrence_wins [spec_A] spec_B [] []
           (JDict [("bundleIdentifier", JStr "x"); ("v", JInt 2)])
           [JDict [("bundleIdentifier", JStr "y"); ("v", JInt 1)]]
           (JDict [("bundleIdentifier", JStr "x"); ("v", JInt 1)]) "Repo").
  - reflexivity.
  - vm_compute. left.
  - reflexivity.
  - reflexivity.
Defined.

Lemma C3_distinct_identifier_count_witness :
  ∃ r, Merge.merge_manifests example_manifests "Repo" = Ok r ∧
    ∃ apps, dict_get "apps" r = Some (JList apps) ∧
      count_distinct (nonempty_ids apps) =
      count_distinct (nonempty_ids (all_apps example_manifests)).
Proof.
  eexists. split; [reflexivity|].
  destruct (C3_distinct_identifier_count example_manifests "Repo" _ eq_refl)
    as (apps & H1 & H2 & _).
  exists apps. split; assumption.
Defined.

Lemma C4_empty_input_error_witness :
  Merge.merge_manifests example_manifests "Repo" ≠ Raise ValueError ∧
  repr example_heap example_ref (JList (map JDict example_manifests)) ∧
  forallb manifest_ok example_manifests = true ∧
  ∃ r h' d,
    Store.merge_manifests 100 100 example_ref "Repo" example_heap =
      (Store.Done r, h') ∧
    Merge.merge_manifests example_manifests "Repo" = Ok d ∧
    repr h' r (JDict d).
Proof.
  assert (repr example_heap example_ref (JList (map JDict example_manifests)))
    as H by (apply (dump_repr 10); reflexivity).
  destruct C4_empty_input_error as (_ & H2 & H3). split; [|split; [|split]].
  - apply H2. done.
  - exact H.
  - reflexivity.
  - apply H3; [exact H | reflexivity | vm_compute; lia | vm_compute; lia
              | done | reflexivity].
Defined.

Lemma merge_manifests_returns_iff_witness :
  repr example_heap example_ref (JList (map JDict example_manifests)) ∧
  match Store.merge_manifests 100 100 example_ref "Repo" example_heap with
  | (Store.Done r, h') =>
      example_manifests ≠ [] ∧ forallb accepted example_manifests = true ∧
      ∃ d, Merge.merge_manifests example_manifests "Repo" = Ok d ∧
           repr h' r (JDict d)
  | (Store.Raised e, _) =>
      (example_manifests = [] ∧ e = ValueError) ∨
      (example_manifests ≠ [] ∧ forallb accepted example_manifests = false ∧
       (e = TypeError ∨ e = AttributeError))
  | (Store.OutOfFuel, _) => False
  end.
Proof.
  assert (repr example_heap example_ref (JList (map JDict example_manifests)))
    as H by (apply (dump_repr 10); reflexivity).
  split; [exact H|].
  apply (merge_manifests_returns_iff example_heap example_manifests "Repo"
           example_ref 100 100 H); [reflexivity | vm_compute; lia..].
Defined.

Lemma C5_news_dedup_witness :
  forallb json_wf (all_news example_manifests) = true ∧
  hello_item ∈ all_news example_manifests ∧
  ∃ r, Merge.merge_manifests example_manifests "Repo" = Ok r ∧
    ∃ news, dict_get "news" r = Some (JList news) ∧
      ∃ pre post, news = pre ++ hello_item :: post ∧
                  (hello_item ∉ pre) ∧ (hello_item ∉ post).
Proof.
  split; [reflexivity|]. split; [vm_compute; left|].
  eexists. split; [reflexivity|].
  destruct (C5_news_dedup example_manifests "Repo" _ eq_refl eq_refl)
    as (news & H1 & _ & _ & _ & _ & H2 & _).
  exists news. split; [assumption|]. apply H2. vm_compute. left.
Defined.

Lemma C6_metadata_from_first_witness :
  ∃ r, Merge.merge_manifests (example_first :: [example_second]) "Repo" = Ok r ∧
    dict_get "iconURL" r = Some (JStr "https://example.org/icon.png") ∧
    dict_get "website" r = None.
Proof.
  eexists. split; [reflexivity|].
  destruct (C6_metadata_from_first example_first [example_second] "Repo" _
              eq_refl) as [H1 H2].
  split.
  - apply H1. reflexivity.
  - rewrite H2; [reflexivity|]. do 5 right. left.
Defined.

Lemma C7_identifier_name_fixed_witness :
  ∃ r, Merge.merge_manifests example_manifests "Repo" = Ok r ∧
    dict_get "identifier" r = Some (JStr "com.octonezd.merged-repo") ∧
    dict_get "name" r = Some (JStr "Repo").
Proof.
  eexists. split; [reflexivity|].
  apply (proj1 C7_identifier_name_fixed example_manifests "Repo"). reflexivity.
Defined.

Lemma C8_single_manifest_witness :
  ∃ r, Merge.merge_manifests [example_second] "Repo" = Ok r ∧
    ∃ apps news,
      dict_get "apps" r = Some (JList apps) ∧
      dict_get "news" r = Some (JList news) ∧
      apps = keep_apps [] (entries "apps" example_second) ∧
      news = keep_news [] (entries "news" example_second).
Proof.
  eexists. split; [reflexivity|].
  destruct (C8_single_manifest example_second "Repo" _ eq_refl)
    as (apps & news & H1 & H2 & H3 & H4 & _).
  exists apps, news. repeat split; assumption.
Defined.

Lemma C9_falsy_identifier_as_missing_witness :
  JNull ∈ falsy_values ∧
  ∀ name apps news seen,
    Merge.merge_app (JDict [("bundleIdentifier", JNull)])
      (Merge.State (shape name apps news) seen) =
    Ok (Merge.State
          (shape name (apps ++ [JDict [("bundleIdentifier", JNull)]]) news)
          seen).
Proof.
  assert (JNull ∈ falsy_values) as H by left.
  split; [exact H|].
  exact (proj1 (proj2 (proj2
    (C9_falsy_identifier_as_missing JNull [("bundleIdentifier", JNull)]
       H eq_refl)))).
Defined.

Lemma C10_inputs_unchanged_witness :
  Store.dump 10 example_heap example_ref
    = Some (JList (map JDict example_manifests)) ∧
  Store.dump 10
    (Store.merge_manifests 100 100 example_ref "Repo" example_heap).2
    example_ref
    = Some (JList (map JDict example_manifests)).
Proof.
  split; [reflexivity|].
  apply (proj2 (C10_inputs_unchanged 100 100 example_ref "Repo" example_heap)).
  reflexivity.
Defined.

Lemma store_refines_merge_witness :
  repr example_heap example_ref (JList (map JDict example_manifests)) ∧
  match Merge.merge_manifests example_manifests "Repo",
        Store.merge_manifests 100 100 example_ref "Repo" example_heap with
  | Ok d, (Store.Done r, h') => repr h' r (JDict d)
  | Raise e, (Store.Raised e', _) => e = e'
  | _, _ => False
  end.
Proof.
  assert (repr example_heap example_ref (JList (map JDict example_manifests)))
    as H by (apply (dump_repr 10); reflexivity).
  split; [exact H|].
  apply (store_refines_merge example_heap example_manifests "Repo"
           example_ref 100 100 H); [reflexivity | vm_compute; lia..].
Defined.

Lemma merge_manifests_incremental_witness :
  ∃ r, Merge.merge_manifests [example_first] "Repo" = Ok r ∧
    Merge.merge_manifests (r :: [example_second]) "Next" =
    Merge.merge_manifests ([example_first] ++ [example_second]) "Next" ∧
    Merge.merge_manifests [r] "Repo" = Ok r.
Proof.
  eexists. split; [reflexivity|].
  apply (merge_manifests_incremental [example_first] [example_second]
           "Repo" "Next").
  reflexivity.
Defined.

Lemma result_keys_witness :
  ∃ r, Merge.merge_manifests [example_second; example_first] "Repo" = Ok r ∧
    map fst r = ["name"; "identifier"; "iconURL"; "apps"; "news"; "website"].
Proof.
  eexists. split; [reflexivity|].
  destruct (result_keys [example_second; example_first] "Repo" _ eq_refl)
    as (first & rest & Hms & Hkeys).
  injection Hms as <- <-. exact Hkeys.
Defined.


Lemma main_merges_what_it_reports_failed_witness :
  fetched example_urlopen example_loads "https://example.org/array.json" =
    Script.Got (JList []) ∧
  Script.app_count (JList []) = Raise AttributeError ∧
  Script.FailedToFetch "https://example.org/array.json"
    (Script.Builtin AttributeError) ∈
  Script.stderr
    (Script.main_with example_urlopen example_loads 100 example_dump
       example_dumps ["https://example.org/array.json"] example_state).2 ∧
  JList [] ∈
  Script.manifests
    (Script.main_with example_urlopen example_loads 100 example_dump
       example_dumps ["https://example.org/array.json"] example_state).2 ∧
  (Script.main_with example_urlopen example_loads 100 example_dump
     example_dumps ["https://example.org/array.json"] example_state).1 =
  Script.Returned ().
Proof.
  split; [reflexivity|]. split; [reflexivity|].
  destruct (main_merges_what_it_reports_failed example_urlopen example_loads
              100 example_dump example_dumps
              ["https://example.org/array.json"] example_state
              "https://example.org/array.json" (JList []) AttributeError)
    as (H1 & H2 & _); [by left|reflexivity|reflexivity|].
  split; [exact H1|]. split; [exact H2|]. reflexivity.
Defined.

Lemma result_shares_its_items_witness :
  closed example_heap = true ∧
  known example_heap example_ref = true ∧
  ∃ r h' va,
    Store.merge_manifests 100 100 example_ref "Repo" example_heap =
      (Store.Done r, h') ∧
    r = Store.VRef (length example_heap + 2) ∧
    h' !! length example_heap = Some (Store.OList va) ∧
    (∀ x, x ∈ va → item_of example_heap example_ref "apps" x) ∧
    ∀ x l, x ∈ va → x = Store.VRef l →
           (l < length example_heap)%nat ∧ h' !! l = example_heap !! l.
Proof.
  split; [reflexivity|]. split; [reflexivity|].
  destruct (Store.merge_manifests 100 100 example_ref "Repo" example_heap)
    as [[r|e|] h'] eqn:Hrun; [|vm_compute in Hrun; discriminate..].
  destruct (result_shares_its_items example_heap example_ref eq_refl "Repo"
              100 100 r h' eq_refl Hrun)
    as (kvs & va & vn & Hr & _ & _ & _ & Hva & _ & Happs & _ & Hold).
  exists r, h', va. split; [reflexivity|]. split; [exact Hr|].
  split; [exact Hva|]. split; [exact Happs|]. intros x l Hx Hl.
  apply (Hold x l); [apply elem_of_app; by left|exact Hl].
Defined.


Lemma merge_within_the_limit_witness :
  (∀ x, x ∈ all_news example_manifests → (json_depth x ≤ 3)%nat) ∧
  Script.merge_manifests_within 3 (map JDict example_manifests) "Repo" =
  Merge.merge_manifests example_manifests "Repo".
Proof.
  assert (∀ x, x ∈ all_news example_manifests → (json_depth x ≤ 3)%nat)
    as Hnews.
  { intros x Hx. vm_compute in Hx.
    repeat (apply elem_of_cons in Hx as [->|Hx]; [vm_compute; lia|]).
    by apply elem_of_nil in Hx. }
  split; [exact Hnews|].
  apply (merge_within_the_limit 3 example_manifests "Repo"); [lia|exact Hnews].
Defined.
